(** * SenseVoice speech front end: a shallow embedding of the C++ sources

    The development follows the core components of the repository:

    - [AudioProcessor] (src/audio_processor.cpp): initialisation,
      preemphasis, framing, mel filterbank, low-frame-rate stacking, CMVN;
    - [Tokenizer] (src/tokenizer.cpp): the vocabulary, character
      splitting and the decoding of token ids to text;
    - [ASRModel] (src/asr_model.cpp): greedy CTC decoding, the language
      tables and [recognize];
    - [VADDetector] (src/vad_detector.cpp): the stateful neural voice
      activity detector;
    - [AudioRecorder] (src/audio_recorder.cpp): the capture state machine
      driven by the audio callback.

    C++ [float] is IEEE binary32 and [double] is IEEE binary64; both are
    modelled with the Standard Library's executable specification of IEEE
    arithmetic ([SpecFloat]).  [size_t] is a 64-bit unsigned integer and
    [int] a 32-bit signed one; conversions between them wrap modulo a power
    of two, as GCC, Clang and MSVC implement them (and as C++20 requires).
    Operations the repository delegates to other libraries (libm's
    transcendental functions, FFTW, ONNX Runtime) are parameters of the
    model. *)

From Stdlib Require Import ZArith List Bool Lia Ascii String.
From Stdlib Require Import Floats.SpecFloat.
From stdpp Require Import base list.
From stdpp Require Import strings gmap.
Import ListNotations.

Local Open Scope Z_scope.

(** ** Outcomes of a C++ call

    A call returns, throws a C++ exception, or has undefined behaviour
    (an out-of-bounds access, a division by zero). *)

Inductive exn : Type :=
  | length_error      (* std::length_error *)
  | inference_error.  (* Ort::Exception, a std::exception *)

Inductive outcome (A : Type) : Type :=
  | Ok (a : A)
  | Throw (e : exn)
  | Undefined.
Arguments Ok {A} a.
Arguments Throw {A} e.
Arguments Undefined {A}.

#[global] Instance outcome_bind : MBind outcome := fun A B f m =>
  match m with
  | Ok a => f a
  | Throw e => Throw e
  | Undefined => Undefined
  end.

#[global] Instance outcome_ret : MRet outcome := fun A a => Ok a.

Definition of_option {A} (o : option A) : outcome A :=
  match o with
  | Some a => Ok a
  | None => Undefined
  end.

(** ** Machine integers

    [int] arithmetic is written on [Z]: a signed overflow is undefined in
    C++ and no claim depends on one.  The quotient of two [int]s is
    [Z.quot], which truncates toward zero. *)

Definition to_size_t (z : Z) : Z := z mod 2 ^ 64.
Definition to_int (z : Z) : Z := (z + 2 ^ 31) mod 2 ^ 32 - 2 ^ 31.

(** [std::vector<T>::max_size()] for an element of [elt] bytes, as in
    libstdc++: [PTRDIFF_MAX / sizeof(T)].  Running out of memory below
    that size ([std::bad_alloc]) is outside the model. *)
Definition vector_max_size (elt : Z) : Z := (2 ^ 63 - 1) / elt.

(** [v.reserve(n)], [v.resize(n)] and [vector(n)] first compare the
    requested size, converted to [size_type], with [max_size()]. *)
Definition check_size (elt n : Z) : outcome Z :=
  if vector_max_size elt <? to_size_t n then Throw length_error
  else Ok (to_size_t n).

(** [v[i]] for a signed or unsigned index [i]. *)
Definition vget {A} (v : list A) (i : Z) : outcome A :=
  if (0 <=? i) && (i <? Z.of_nat (length v))
  then of_option (v !! Z.to_nat i)
  else Undefined.

(** [v[i] = x]. *)
Definition vset {A} (v : list A) (i : Z) (x : A) : outcome (list A) :=
  if (0 <=? i) && (i <? Z.of_nat (length v))
  then Ok (<[Z.to_nat i := x]> v)
  else Undefined.

(** The range [v.begin() + a, v.begin() + b). *)
Definition vrange {A} (v : list A) (a b : Z) : outcome (list A) :=
  if (0 <=? a) && (a <=? b) && (b <=? Z.of_nat (length v))
  then Ok (take (Z.to_nat (b - a)) (drop (Z.to_nat a) v))
  else Undefined.

(** ** IEEE binary32: the C++ [float] *)

Module F32.
Definition t : Type := spec_float.
Definition prec : Z := 24.
Definition emax : Z := 128.

Definition zero : t := S754_zero false.
Definition nan : t := S754_nan.
Definition of_Z (n : Z) : t := binary_normalize prec emax n 0 false.
Definition one : t := of_Z 1.

Definition add : t -> t -> t := SFadd prec emax.
Definition sub : t -> t -> t := SFsub prec emax.
Definition mul : t -> t -> t := SFmul prec emax.
Definition div : t -> t -> t := SFdiv prec emax.
Definition sqrt : t -> t := SFsqrt prec emax.
Definition abs : t -> t := SFabs.
Definition opp : t -> t := SFopp.
Definition ltb : t -> t -> bool := SFltb.
(** [a > b] *)
Definition gtb (a b : t) : bool := SFltb b a.
(** [std::max(a, b)] is [(a < b) ? b : a]. *)
Definition max (a b : t) : t := if ltb a b then b else a.
Definition is_nan (x : t) : bool :=
  match x with S754_nan => true | _ => false end.

(** The literal [num/den] written in decimal, rounded to nearest. *)
Definition lit (num den : Z) : t := div (of_Z num) (of_Z den).

(** [std::floor] followed by [static_cast<int>]; the cast of a NaN or
    of an infinity is undefined. *)
Definition floor_Z (x : t) : option Z :=
  match x with
  | S754_zero _ => Some 0
  | S754_finite s m e =>
      let v := if s then Z.neg m else Z.pos m in
      Some (if 0 <=? e then Z.shiftl v e else v / 2 ^ (- e))
  | _ => None
  end.
End F32.

(** ** IEEE binary64: the C++ [double] *)

Module F64.
Definition t : Type := spec_float.
Definition prec : Z := 53.
Definition emax : Z := 1024.

Definition zero : t := S754_zero false.
Definition of_Z (n : Z) : t := binary_normalize prec emax n 0 false.
Definition add : t -> t -> t := SFadd prec emax.
Definition sub : t -> t -> t := SFsub prec emax.
Definition mul : t -> t -> t := SFmul prec emax.
Definition div : t -> t -> t := SFdiv prec emax.
Definition ltb : t -> t -> bool := SFltb.
Definition gtb (a b : t) : bool := SFltb b a.
Definition lit (num den : Z) : t := div (of_Z num) (of_Z den).

(** The promotion of a [float] to [double] is exact. *)
Definition of_f32 (x : F32.t) : t :=
  match x with
  | S754_finite s m e => binary_round prec emax s m e
  | _ => x
  end.

(** [static_cast<size_t>(x)]: truncation toward zero, undefined when
    the value is not representable. *)
Definition trunc_size_t (x : t) : option Z :=
  match x with
  | S754_zero _ => Some 0
  | S754_finite false m e =>
      let v := if 0 <=? e then Z.shiftl (Z.pos m) e else Z.pos m / 2 ^ (- e) in
      if v <? 2 ^ 64 then Some v else None
  | S754_finite true m e =>
      if (e <? 0) && (Z.pos m / 2 ^ (- e) =? 0) then Some 0 else None
  | _ => None
  end.
End F64.

(** The conversion of a [double] to [float], rounding to nearest. *)
Definition F32_of_F64 (x : F64.t) : F32.t :=
  match x with
  | S754_finite s m e => binary_round F32.prec F32.emax s m e
  | _ => x
  end.

(** [M_PI], the [double] nearest to pi: [0x1.921fb54442d18p+1]. *)
Definition M_PI : F64.t := S754_finite false 7074237752028440 (-51).

(** ** src/audio_processor.cpp *)

Module AudioProcessor.

Record Config : Type := {
  sample_rate : Z;
  frame_length : Z;
  frame_shift : Z;
  n_mels : Z;
  n_fft : Z;
  preemphasis : F32.t;
  apply_cmvn : bool;
  cmvn_file : string
}.

(** The default member initialisers of [AudioProcessor::Config]. *)
Definition default_config : Config := {|
  sample_rate := 16000;
  frame_length := 400;
  frame_shift := 160;
  n_mels := 80;
  n_fft := 512;
  preemphasis := F32.lit 97 100;
  apply_cmvn := true;
  cmvn_file := EmptyString
|}.

Record t : Type := {
  config_ : Config;
  cmvn_loaded_ : bool;
  cmvn_mean_ : list F32.t;
  cmvn_var_ : list F32.t;
  mel_filterbank_ : list (list F32.t);
  window_ : list F32.t
}.

(** *** [preprocess]

    [for (size_t i = result.size() - 1; i > 0; --i)
       result[i] = result[i] - preemphasis * result[i - 1];]
    The loop runs on the vector in place; [preemph_loop alpha i result]
    is the loop entered with index [i]. *)
Fixpoint preemph_loop (alpha : F32.t) (i : nat) (result : list F32.t)
  : outcome (list F32.t) :=
  match i with
  | O => Ok result
  | S i' =>
      xi ← vget result (Z.of_nat i);
      xp ← vget result (Z.of_nat i - 1);
      result' ← vset result (Z.of_nat i) (F32.sub xi (F32.mul alpha xp));
      preemph_loop alpha i' result'
  end.

Definition preprocess (cfg : Config) (audio : list F32.t)
  : outcome (list F32.t) :=
  let result := audio in
  if F32.gtb (preemphasis cfg) F32.zero then
    preemph_loop (preemphasis cfg)
      (Z.to_nat (to_size_t (Z.of_nat (length result) - 1))) result
  else Ok result.

(** *** [frameSignal] *)

(** [frame.resize(n, 0.0f)] *)
Definition resize_zero (frame : list F32.t) (n : Z) : outcome (list F32.t) :=
  n' ← check_size 4 n;
  Ok (take (Z.to_nat n') frame
      ++ replicate (Z.to_nat n' - length frame)%nat F32.zero).

(** [static_cast<int>((signal.size() - frame_length) / frame_shift) + 1]:
    the subtraction and the division are carried out in [size_t]. *)
Definition num_frames (cfg : Config) (signal : list F32.t) : outcome Z :=
  if to_size_t (frame_shift cfg) =? 0 then Undefined
  else
    let q := to_int (to_size_t (Z.of_nat (length signal)
                                - to_size_t (frame_length cfg))
                     / to_size_t (frame_shift cfg)) in
    if q =? 2 ^ 31 - 1 then Undefined else Ok (q + 1).

(** The body of the framing loop, for frame index [i] and [n] frames
    still to produce. *)
Fixpoint frame_loop (cfg : Config) (signal : list F32.t) (n : nat) (i : Z)
    (frames : list (list F32.t)) : outcome (list (list F32.t)) :=
  match n with
  | O => Ok frames
  | S n' =>
      let start := i * frame_shift cfg in
      let end_ := start + frame_length cfg in
      frame ←
        (if end_ <=? to_int (Z.of_nat (length signal))
         then vrange signal start end_
         else tail ← vrange signal start (Z.of_nat (length signal));
              resize_zero tail (frame_length cfg));
      frame_loop cfg signal n' (i + 1) (frames ++ [frame])
  end.

Definition frameSignal (cfg : Config) (signal : list F32.t)
  : outcome (list (list F32.t)) :=
  n ← num_frames cfg signal;
  _ ← check_size 24 n;                       (* frames.reserve(num_frames) *)
  frame_loop cfg signal (Z.to_nat n) 0 [].

(** *** The mel filterbank *)

(** Left side of the triangle: [for (j = start; j < center; ++j)]. *)
Fixpoint ramp_up (n : nat) (j start center : Z) (filt : list F32.t)
  : outcome (list F32.t) :=
  match n with
  | O => Ok filt
  | S n' =>
      filt' ←
        (if center =? start then Ok filt
         else vset filt j (F32.div (F32.of_Z (j - start))
                                   (F32.of_Z (center - start))));
      ramp_up n' (j + 1) start center filt'
  end.

(** Right side of the triangle: [for (j = center; j < end; ++j)]. *)
Fixpoint ramp_down (n : nat) (j center end_ : Z) (filt : list F32.t)
  : outcome (list F32.t) :=
  match n with
  | O => Ok filt
  | S n' =>
      filt' ←
        (if end_ =? center then Ok filt
         else vset filt j (F32.div (F32.of_Z (end_ - j))
                                   (F32.of_Z (end_ - center))));
      ramp_down n' (j + 1) center end_ filt'
  end.

(** One iteration of the loop "Create triangular filters", for the
    bins [start], [center] and [end_] of filter [i]. *)
Definition triangle (fft_size start center end_ : Z) : outcome (list F32.t) :=
  n ← check_size 4 fft_size;
  let filt := replicate (Z.to_nat n) F32.zero in
  filt ← ramp_up (Z.to_nat (center - start)) start start center filt;
  ramp_down (Z.to_nat (end_ - center)) center center end_ filt.

Fixpoint triangles (fft_size : Z) (bin_points : list Z) (n : nat) (i : Z)
  : outcome (list (list F32.t)) :=
  match n with
  | O => Ok []
  | S n' =>
      start ← vget bin_points i;
      center ← vget bin_points (i + 1);
      end_ ← vget bin_points (i + 2);
      filt ← triangle fft_size start center end_;
      rest ← triangles fft_size bin_points n' (i + 1);
      Ok (filt :: rest)
  end.

Section Libm.
(** [std::log10] and [std::pow] on [float]. *)
Variable log10f : F32.t -> F32.t.
Variable powf : F32.t -> F32.t -> F32.t.

Definition hz_to_mel (hz : F32.t) : F32.t :=
  F32.mul (F32.of_Z 2595)
    (log10f (F32.add F32.one (F32.div hz (F32.of_Z 700)))).

Definition mel_to_hz (mel : F32.t) : F32.t :=
  F32.mul (F32.of_Z 700)
    (F32.sub (powf (F32.of_Z 10) (F32.div mel (F32.of_Z 2595))) F32.one).

(** Entry [i] of [bin_points]. *)
Definition bin_point (cfg : Config) (i : Z) : outcome Z :=
  let num_filters := n_mels cfg in
  let fft_size := Z.quot (n_fft cfg) 2 + 1 in
  let nyquist := F32.div (F32.of_Z (sample_rate cfg)) (F32.of_Z 2) in
  let mel_max := hz_to_mel nyquist in
  let mel_point :=
    F32.div (F32.mul (F32.of_Z i) mel_max) (F32.of_Z (num_filters + 1)) in
  let hz_point := mel_to_hz mel_point in
  b ← of_option
        (F32.floor_Z (F32.div (F32.mul (F32.of_Z (n_fft cfg + 1)) hz_point)
                              (F32.of_Z (sample_rate cfg))));
  if (- 2 ^ 31 <=? b) && (b <? 2 ^ 31)
  then Ok (Z.min b (fft_size - 1))
  else Undefined.

Fixpoint bin_points_from (cfg : Config) (n : nat) (i : Z) : outcome (list Z) :=
  match n with
  | O => Ok []
  | S n' =>
      b ← bin_point cfg i;
      rest ← bin_points_from cfg n' (i + 1);
      Ok (b :: rest)
  end.

Definition initializeMelFilterbank (cfg : Config)
  : outcome (list (list F32.t)) :=
  let num_filters := n_mels cfg in
  let fft_size := Z.quot (n_fft cfg) 2 + 1 in
  _ ← check_size 24 num_filters;           (* mel_filterbank_.resize *)
  n ← check_size 4 (num_filters + 2);      (* mel_points, hz_points, bin_points *)
  bin_points ← bin_points_from cfg (Z.to_nat n) 0;
  triangles fft_size bin_points (Z.to_nat num_filters) 0.
End Libm.

(** *** [loadCMVN]: the statistics are the placeholders of the source. *)
Definition loadCMVN (p : t) : outcome t :=
  n ← check_size 4 (n_mels (config_ p));
  Ok {| config_ := config_ p;
        cmvn_loaded_ := true;
        cmvn_mean_ := replicate (Z.to_nat n) F32.zero;
        cmvn_var_ := replicate (Z.to_nat n) F32.one;
        mel_filterbank_ := mel_filterbank_ p;
        window_ := window_ p |}.

(** *** [applyLFR] with [lfr_m = 7] and [lfr_n = 6] *)
Definition lfr_m : nat := 7.
Definition lfr_n : nat := 6.

(** The frame stacked at output position [i]: frames [i .. i+6], the last
    input frame standing in for the missing ones. *)
Definition lfr_frame (features : list (list F32.t)) (i : nat) : list F32.t :=
  concat (map (fun j => default [] (features !! (if decide (i + j < length features)%nat
                                                 then (i + j)%nat
                                                 else (length features - 1)%nat)))
              (seq 0 lfr_m)).

(** [for (size_t i = 0; i < features.size(); i += lfr_n)]; [fuel] bounds
    the number of iterations and [length features] always suffices. *)
Fixpoint lfr_loop (features : list (list F32.t)) (fuel i : nat)
  : list (list F32.t) :=
  match fuel with
  | O => []
  | S fuel' =>
      if decide (i < length features)%nat
      then lfr_frame features i :: lfr_loop features fuel' (i + lfr_n)%nat
      else []
  end.

Definition applyLFR (features : list (list F32.t)) : list (list F32.t) :=
  match features with
  | [] => features
  | _ => lfr_loop features (length features) 0
  end.

(** *** [applyCMVN]

    [for (i = 0; i < frame.size() && i < cmvn_mean_.size(); ++i)
       frame[i] = (frame[i] - cmvn_mean_[i]) / std::sqrt(cmvn_var_[i]);] *)
Fixpoint cmvn_frame (frame mean var : list F32.t) : outcome (list F32.t) :=
  match frame, mean with
  | x :: frame', m :: mean' =>
      match var with
      | v :: var' =>
          rest ← cmvn_frame frame' mean' var';
          Ok (F32.div (F32.sub x m) (F32.sqrt v) :: rest)
      | [] => Undefined               (* cmvn_var_[i] past the end *)
      end
  | _, _ => Ok frame
  end.

Fixpoint cmvn_frames (features : list (list F32.t)) (mean var : list F32.t)
  : outcome (list (list F32.t)) :=
  match features with
  | [] => Ok []
  | frame :: features' =>
      frame' ← cmvn_frame frame mean var;
      rest ← cmvn_frames features' mean var;
      Ok (frame' :: rest)
  end.

Definition applyCMVN (p : t) (features : list (list F32.t))
  : outcome (list (list F32.t)) :=
  if negb (cmvn_loaded_ p) || bool_decide (features = []) then Ok features
  else cmvn_frames features (cmvn_mean_ p) (cmvn_var_ p).

(** *** [computeFbank] and [extractFeatures] *)
Section Pipeline.
(** FFTW's real-to-complex transform, giving the [N/2 + 1] bins that
    [AudioProcessor::fft] returns; [std::abs] on [std::complex<float>];
    [std::log] on [float]. *)
Variable fft : list F32.t -> list (F32.t * F32.t).
Variable cabsf : F32.t * F32.t -> F32.t.
Variable logf : F32.t -> F32.t.

(** The frame multiplied by the window and zero-padded to [n_fft]. *)
Definition windowed_frame (p : t) (frame : list F32.t) : outcome (list F32.t) :=
  n ← check_size 4 (n_fft (config_ p));
  let copy_len := Nat.min (length frame) (length (window_ p)) in
  if decide (copy_len <= Z.to_nat n)%nat
  then Ok (zip_with F32.mul frame (window_ p)
           ++ replicate (Z.to_nat n - copy_len)%nat F32.zero)
  else Undefined.

Definition computePowerSpectrum (fft_result : list (F32.t * F32.t))
  : list F32.t :=
  map (fun val => let magnitude := cabsf val in F32.mul magnitude magnitude)
      fft_result.

(** [mel_features[i]], accumulated over [j] from left to right. *)
Definition mel_energy (power_spectrum filt : list F32.t) : F32.t :=
  fold_left (fun acc pw => F32.add acc (F32.mul (fst pw) (snd pw)))
            (zip power_spectrum filt) F32.zero.

Fixpoint mel_loop (p : t) (power_spectrum : list F32.t) (n : nat) (i : Z)
  : outcome (list F32.t) :=
  match n with
  | O => Ok []
  | S n' =>
      filt ← vget (mel_filterbank_ p) i;
      rest ← mel_loop p power_spectrum n' (i + 1);
      Ok (mel_energy power_spectrum filt :: rest)
  end.

Definition applyMelFilterbank (p : t) (power_spectrum : list F32.t)
  : outcome (list F32.t) :=
  n ← check_size 4 (n_mels (config_ p));
  mel_loop p power_spectrum (Z.to_nat (n_mels (config_ p))) 0.

Definition fbank_frame (p : t) (frame : list F32.t) : outcome (list F32.t) :=
  w ← windowed_frame p frame;
  let power_spectrum := computePowerSpectrum (fft w) in
  mel_features ← applyMelFilterbank p power_spectrum;
  Ok (map (fun val => logf (F32.max val (F32.lit 1 10000000000)))
          mel_features).

Fixpoint fbank_frames (p : t) (frames : list (list F32.t))
  : outcome (list (list F32.t)) :=
  match frames with
  | [] => Ok []
  | frame :: frames' =>
      f ← fbank_frame p frame;
      rest ← fbank_frames p frames';
      Ok (f :: rest)
  end.

Definition computeFbank (p : t) (audio : list F32.t)
  : outcome (list (list F32.t)) :=
  frames ← frameSignal (config_ p) audio;
  fbank_frames p frames.

Definition extractFeatures (p : t) (audio : list F32.t)
  : outcome (list (list F32.t)) :=
  preprocessed_audio ← preprocess (config_ p) audio;
  fbank_features ← computeFbank p preprocessed_audio;
  let fbank_features := applyLFR fbank_features in
  if cmvn_loaded_ p then applyCMVN p fbank_features
  else Ok fbank_features.
End Pipeline.

(** *** [createHammingWindow] and [initialize] *)
Section Initialize.
(** [std::log10] and [std::pow] on [float], [std::cos] on [double]. *)
Variable log10f : F32.t -> F32.t.
Variable powf : F32.t -> F32.t -> F32.t.
Variable cos : F64.t -> F64.t.

(** [0.54f - 0.46f * std::cos(2.0f * M_PI * i / (size - 1))]: the
    product with [M_PI] and everything after it is in [double], and the
    result is rounded to [float] when it is stored. *)
Definition hamming_weight (size i : Z) : F32.t :=
  F32_of_F64
    (F64.sub (F64.of_f32 (F32.lit 54 100))
       (F64.mul (F64.of_f32 (F32.lit 46 100))
          (cos (F64.div
                  (F64.mul (F64.mul (F64.of_f32 (F32.of_Z 2)) M_PI) (F64.of_Z i))
                  (F64.of_Z (size - 1)))))).

Fixpoint window_loop (size : Z) (n : nat) (i : Z) : list F32.t :=
  match n with
  | O => []
  | S n' => hamming_weight size i :: window_loop size n' (i + 1)
  end.

Definition createHammingWindow (size : Z) : outcome (list F32.t) :=
  _ ← check_size 4 size;                    (* std::vector<float> window(size) *)
  Ok (window_loop size (Z.to_nat size) 0).

(** The constructor followed by [initialize()]. *)
Definition initialize (cfg : Config) : outcome t :=
  fb ← initializeMelFilterbank log10f powf cfg;
  w ← createHammingWindow (frame_length cfg);
  let p := {| config_ := cfg;
              cmvn_loaded_ := false;
              cmvn_mean_ := [];
              cmvn_var_ := [];
              mel_filterbank_ := fb;
              window_ := w |} in
  if String.eqb (cmvn_file cfg) "" then Ok p else loadCMVN p.
End Initialize.

End AudioProcessor.

(** ** src/tokenizer.cpp *)

Module Tokenizer.

(** The vocabulary: [id_to_token_], [token_to_id_] and [vocab_size_]. *)
Record t : Type := {
  id_to_token_ : gmap Z string;
  token_to_id_ : gmap string Z;
  vocab_size_ : Z
}.

Definition unk_token_id_ : Z := 1.

(** The tokenizer after construction. *)
Definition empty : t :=
  {| id_to_token_ := ∅; token_to_id_ := ∅; vocab_size_ := 0 |}.

(** [line.substr(0, line.find('\t'))], the whole line when it holds no
    tab. *)
Fixpoint before_tab (line : string) : string :=
  match line with
  | EmptyString => EmptyString
  | String c rest =>
      if Ascii.eqb c "009"%char then EmptyString else String c (before_tab rest)
  end.

(** The loop [while (std::getline(file, line))] over the lines of the
    file, entered with the next [id]. *)
Fixpoint load_lines (lines : list string) (id : Z) (tk : t) : Z * t :=
  match lines with
  | [] => (id, tk)
  | line :: rest =>
      if String.eqb line "" then load_lines rest id tk
      else
        let token := before_tab line in
        load_lines rest (id + 1)
          {| id_to_token_ := <[id := token]> (id_to_token_ tk);
             token_to_id_ := <[token := id]> (token_to_id_ tk);
             vocab_size_ := vocab_size_ tk |}
  end.

(** [loadVocabulary]: [file] is [None] when the file cannot be opened
    and holds its lines otherwise. *)
Definition loadVocabulary (vocab_file : string) (file : option (list string))
    (tk : t) : bool * t :=
  if String.eqb vocab_file "" then (false, tk)
  else
    match file with
    | None => (false, tk)
    | Some lines =>
        let tk' := snd (load_lines lines 0 tk) in
        (true, {| id_to_token_ := id_to_token_ tk';
                  token_to_id_ := token_to_id_ tk';
                  vocab_size_ := Z.of_nat (size (id_to_token_ tk')) |})
    end.

Definition idToToken (tk : t) (id : Z) : string :=
  match id_to_token_ tk !! id with
  | Some token => token
  | None => "<unk>"
  end.

Definition tokenToId (tk : t) (token : string) : Z :=
  match token_to_id_ tk !! token with
  | Some id => id
  | None => unk_token_id_
  end.

(** The length of the UTF-8 sequence that the byte [c] starts. *)
Definition char_len (c : Ascii.ascii) : nat :=
  let n := Ascii.nat_of_ascii c in
  if (192 <=? n)%nat then
    if (240 <=? n)%nat then 4%nat
    else if (224 <=? n)%nat then 3%nat
    else 2%nat
  else 1%nat.

(** The loop [while (i < text.length())] of [splitByDelimiters]; every
    iteration advances [i], so [text.length()] iterations suffice. *)
Fixpoint split_loop (text : string) (fuel i : nat) : list string :=
  match fuel with
  | O => []
  | S fuel' =>
      match String.get i text with
      | None => []
      | Some c =>
          let n := char_len c in
          let ch := String.substring i n text in
          (if (i + n <=? String.length text)%nat
              && negb (String.eqb ch "") && negb (String.eqb ch " ")
              && negb (String.eqb ch (String "009"%char ""))
              && negb (String.eqb ch (String "010"%char ""))
           then [ch] else [])
          ++ split_loop text fuel' (i + n)
      end
  end.

Definition splitByDelimiters (text : string) : list string :=
  split_loop text (String.length text) 0.

Definition encode (tk : t) (text : string) : list Z :=
  map (tokenToId tk) (splitByDelimiters text).

Definition joinTokens (tokens : list string) : string :=
  fold_left String.append tokens "".

(** A character of [" \t\n\r"]. *)
Definition is_space (c : Ascii.ascii) : bool :=
  Ascii.eqb c " "%char || Ascii.eqb c "009"%char
  || Ascii.eqb c "010"%char || Ascii.eqb c "013"%char.

(** [s.erase(0, s.find_first_not_of(" \t\n\r"))] *)
Fixpoint trim_left (s : string) : string :=
  match s with
  | EmptyString => EmptyString
  | String c rest => if is_space c then trim_left rest else s
  end.

(** [s.erase(s.find_last_not_of(" \t\n\r") + 1)] *)
Fixpoint trim_right (s : string) : string :=
  match s with
  | EmptyString => EmptyString
  | String c rest =>
      match trim_right rest with
      | EmptyString => if is_space c then EmptyString else String c EmptyString
      | rest' => String c rest'
      end
  end.

Section Regex.
(** [std::regex_replace(subject, std::regex(pattern), replacement)] *)
Variable regex_replace : string -> string -> string -> string.

Definition postProcessText (text : string) : string :=
  let result := text in
  let result := regex_replace result "<\|[^|]*\|>" "" in
  let result := regex_replace result "-?\d+\.\d+" "" in
  let result := regex_replace result "\d+" "" in
  let result := regex_replace result "\?\s*\?" "" in
  let result := regex_replace result "▁" " " in
  let result := regex_replace result "\s+" " " in
  let result := trim_left result in
  trim_right result.

(** "Simple decoding".  The optional ONNX decoder is run before it, but
    its output is not used and an exception it raises is caught. *)
Definition decode (tk : t) (token_ids : list Z) : string :=
  let tokens :=
    filter (fun token => negb (String.eqb token "")
                         && negb (String.eqb token "<blank>"))
           (map (idToToken tk) token_ids) in
  postProcessText (joinTokens tokens).
End Regex.

End Tokenizer.

(** ** src/asr_model.cpp: greedy CTC decoding and recognition *)

Module ASRModel.

(** The inner loop [for (int v = 1; v < vocab_size; ++v)] over the row
    that starts at [base], entered with index [v]. *)
Fixpoint argmax_loop (logits : list F32.t) (base : Z) (n : nat) (v : Z)
    (max_token : Z) (max_prob : F32.t) : outcome (Z * F32.t) :=
  match n with
  | O => Ok (max_token, max_prob)
  | S n' =>
      x ← vget logits (base + v);
      if F32.gtb x max_prob
      then argmax_loop logits base n' (v + 1) v x
      else argmax_loop logits base n' (v + 1) max_token max_prob
  end.

(** [max_token] for time step [t]. *)
Definition max_token_at (logits : list F32.t) (vocab_size t : Z) : outcome Z :=
  max_prob ← vget logits (t * vocab_size);
  r ← argmax_loop logits (t * vocab_size) (Z.to_nat (vocab_size - 1)) 1 0 max_prob;
  Ok (fst r).

(** The outer loop [for (int t = 0; t < sequence_length; ++t)]. *)
Fixpoint decode_loop (blank_id : Z) (logits : list F32.t) (vocab_size : Z)
    (n : nat) (t prev_token : Z) (tokens : list Z) : outcome (list Z) :=
  match n with
  | O => Ok tokens
  | S n' =>
      max_token ← max_token_at logits vocab_size t;
      let tokens' :=
        if negb (max_token =? blank_id) && negb (max_token =? prev_token)
        then tokens ++ [max_token] else tokens in
      decode_loop blank_id logits vocab_size n' (t + 1) max_token tokens'
  end.

Definition decodeCTC (blank_id_ : Z) (logits : list F32.t) (sequence_length : Z)
  : outcome (list Z) :=
  if to_size_t sequence_length =? 0 then Undefined
  else
    let vocab_size :=
      to_int (Z.of_nat (length logits) / to_size_t sequence_length) in
    decode_loop blank_id_ logits vocab_size (Z.to_nat sequence_length) 0 (-1) [].

(** *** The decoding rule in the words of the specification *)

(** [m] is the argmax of [row], ties broken toward the lowest index:
    no entry is greater than [row[m]] and every earlier entry is
    strictly smaller. *)
Definition lowest_argmax (row : list F32.t) (m : Z) : Prop :=
  exists x, 0 <= m /\ row !! Z.to_nat m = Some x
    /\ (forall v y, row !! v = Some y -> F32.gtb y x = false)
    /\ (forall v y, (v < Z.to_nat m)%nat -> row !! v = Some y -> F32.ltb y x = true).

(** Blank removal and duplicate collapse over the raw per-step argmax
    stream: a token is emitted when it differs from the blank and from
    the raw argmax of the previous step ([prev], absent at step 0). *)
Fixpoint ctc_collapse (blank : Z) (prev : option Z) (raw : list Z) : list Z :=
  match raw with
  | [] => []
  | tok :: raw' =>
      let emit := negb (tok =? blank)
                  && match prev with Some p => negb (tok =? p) | None => true end in
      (if emit then [tok] else []) ++ ctc_collapse blank (Some tok) raw'
  end.

(** *** The model object and [recognize] *)

Record Config : Type := {
  model_path : string;
  config_path : string;
  vocab_path : string;
  decoder_path : string;
  batch_size : Z;
  sample_rate : Z;
  language : string;
  use_itn : bool;
  quantized : bool
}.

Definition default_config : Config := {|
  model_path := EmptyString;
  config_path := EmptyString;
  vocab_path := EmptyString;
  decoder_path := EmptyString;
  batch_size := 1;
  sample_rate := 16000;
  language := "zh";
  use_itn := true;
  quantized := true
|}.

(** [session_] records whether the ONNX session exists; [None] is a
    null [audio_processor_] or [tokenizer_]. *)
Record t : Type := {
  config_ : Config;
  session_ : bool;
  audio_processor_ : option AudioProcessor.t;
  tokenizer_ : option Tokenizer.t;
  blank_id_ : Z;
  language_dict_ : gmap string Z;
  textnorm_dict_ : gmap string Z
}.

Definition with_language_dict (m : t) (d : gmap string Z) : t :=
  {| config_ := config_ m; session_ := session_ m;
     audio_processor_ := audio_processor_ m; tokenizer_ := tokenizer_ m;
     blank_id_ := blank_id_ m;
     language_dict_ := d; textnorm_dict_ := textnorm_dict_ m |}.

Definition with_textnorm_dict (m : t) (d : gmap string Z) : t :=
  {| config_ := config_ m; session_ := session_ m;
     audio_processor_ := audio_processor_ m; tokenizer_ := tokenizer_ m;
     blank_id_ := blank_id_ m;
     language_dict_ := language_dict_ m; textnorm_dict_ := d |}.

(** The model object that the constructor leaves. *)
Definition initializeLanguageMaps (m : t) : t :=
  with_textnorm_dict
    (with_language_dict m
       (<["nospeech" := 13]> (<["ko" := 12]> (<["ja" := 11]> (<["yue" := 7]>
          (<["en" := 4]> (<["zh" := 3]> (<["auto" := 0]> (language_dict_ m)))))))))
    (<["woitn" := 15]> (<["withitn" := 14]> (textnorm_dict_ m))).

Definition construct (config : Config) : t :=
  initializeLanguageMaps
    {| config_ := config; session_ := false;
       audio_processor_ := None; tokenizer_ := None;
       blank_id_ := 0;
       language_dict_ := ∅; textnorm_dict_ := ∅ |}.

(** [dict[key]] on a [std::map<std::string, int>]: a missing key is
    inserted with the value 0. *)
Definition map_index (dict : gmap string Z) (key : string)
  : Z * gmap string Z :=
  match dict !! key with
  | Some v => (v, dict)
  | None => (0, <[key := 0]> dict)
  end.

Definition getLanguageId (m : t) (language : string) : Z * t :=
  match language_dict_ m !! language with
  | Some id => (id, m)
  | None =>
      let r := map_index (language_dict_ m) "auto" in
      (fst r, with_language_dict m (snd r))
  end.

Definition getTextnormId (m : t) (use_itn : bool) : Z * t :=
  let r := map_index (textnorm_dict_ m)
             (if use_itn then "withitn" else "woitn") in
  (fst r, with_textnorm_dict m (snd r)).

(** An output tensor: its shape and its data. *)
Record tensor : Type := {
  shape : list Z;
  data : list F32.t
}.

Inductive run_result : Type :=
  | RunFailed
  | RunOutputs (output_tensors : list tensor).

Section Recognize.
Variable fft : list F32.t -> list (F32.t * F32.t).
Variable cabsf : F32.t * F32.t -> F32.t.
Variable logf : F32.t -> F32.t.
Variable regex_replace : string -> string -> string -> string.
(** The creation of the four input tensors and [session_->Run] on
    them: the flattened features with their shape, the feature length,
    the language id and the text normalisation id.  [RunFailed] is an
    exception of either step. *)
Variable Run : list F32.t -> list Z -> Z -> Z -> Z -> run_result.

(** "Get logits and decode" *)
Definition decode_outputs (m : t) (tk : Tokenizer.t)
    (output_tensors : list tensor) : outcome string :=
  logits ← vget output_tensors 0;
  shape1 ← vget (shape logits) 1;
  shape2 ← vget (shape logits) 2;
  let seq_len := to_int shape1 in
  let vocab_size := to_int shape2 in
  if (- 2 ^ 31 <=? seq_len * vocab_size) && (seq_len * vocab_size <? 2 ^ 31)
  then
    logits_vec ← vrange (data logits) 0 (seq_len * vocab_size);
    token_ids ← decodeCTC (blank_id_ m) logits_vec seq_len;
    Ok (Tokenizer.decode regex_replace tk token_ids)
  else Undefined.

(** [recognize]: the returned text and the model object after the
    call.  An exception leaves through the [catch], which returns the
    empty string. *)
Definition recognize (m : t) (audio : list F32.t) : outcome (string * t) :=
  match session_ m, audio_processor_ m, tokenizer_ m with
  | true, Some ap, Some tk =>
      match AudioProcessor.extractFeatures fft cabsf logf ap audio with
      | Throw _ => Ok (EmptyString, m)
      | Undefined => Undefined
      | Ok features =>
          let feature_dim :=
            match features with
            | [] => 0
            | frame :: _ => Z.of_nat (length frame)
            end in
          let sequence_length := Z.of_nat (length features) in
          match check_size 4 (sequence_length * feature_dim) with
          | Throw _ => Ok (EmptyString, m)   (* flattened_features.reserve *)
          | Undefined => Undefined
          | Ok _ =>
              let flattened_features := concat features in
              let feature_shape :=
                [batch_size (config_ m); sequence_length; feature_dim] in
              let feat_length := to_int sequence_length in
              let l := getLanguageId m (language (config_ m)) in
              let n := getTextnormId (snd l) (use_itn (config_ m)) in
              let m' := snd n in
              match Run flattened_features feature_shape feat_length
                        (fst l) (fst n) with
              | RunFailed => Ok (EmptyString, m')
              | RunOutputs output_tensors =>
                  match decode_outputs m' tk output_tensors with
                  | Ok result => Ok (result, m')
                  | Throw _ => Ok (EmptyString, m')
                  | Undefined => Undefined
                  end
              end
          end
      end
  | _, _, _ => Ok (EmptyString, m)
  end.
End Recognize.

End ASRModel.

(** ** src/vad_detector.cpp: the neural voice activity detector *)

(** [std::copy(src.begin(), src.end(), dst.begin() + pos)] *)
Definition copy_into {A} (src : list A) (pos : Z) (dst : list A) : outcome (list A) :=
  if (0 <=? pos) && (pos + Z.of_nat (length src) <=? Z.of_nat (length dst))
  then Ok (take (Z.to_nat pos) dst ++ src
           ++ drop (Z.to_nat pos + length src)%nat dst)
  else Undefined.

Module VADDetector.

Record Config : Type := {
  model_path : string;
  sample_rate : Z;
  window_size : Z;
  context_size : Z;
  history_size : Z
}.

Definition default_config : Config := {|
  model_path := EmptyString;
  sample_rate := 16000;
  window_size := 512;
  context_size := 64;
  history_size := 10
|}.

(** [session_] records whether the ONNX session has been created. *)
Record t : Type := {
  config_ : Config;
  session_ : bool;
  state_h_ : list F32.t;
  state_c_ : list F32.t;
  context_ : list F32.t;
  prob_history_ : list F32.t
}.

(** What [session_->Run] gives back: an exception, or the output
    tensors in order. *)
Inductive run_result : Type :=
  | RunFailed
  | RunOutputs (output_tensors : list (list F32.t)).

Definition reset (d : t) : outcome t :=
  n ← check_size 4 (1 * context_size (config_ d));
  Ok {| config_ := config_ d;
        session_ := session_ d;
        state_h_ := replicate (2 * 1 * 128) F32.zero;
        state_c_ := replicate (2 * 1 * 128) F32.zero;
        context_ := replicate (Z.to_nat n) F32.zero;
        prob_history_ := [] |}.

Definition with_context (d : t) (c : list F32.t) : t :=
  {| config_ := config_ d; session_ := session_ d;
     state_h_ := state_h_ d; state_c_ := state_c_ d;
     context_ := c; prob_history_ := prob_history_ d |}.

Definition with_state_h (d : t) (h : list F32.t) : t :=
  {| config_ := config_ d; session_ := session_ d;
     state_h_ := h; state_c_ := state_c_ d;
     context_ := context_ d; prob_history_ := prob_history_ d |}.

Definition with_state_c (d : t) (c : list F32.t) : t :=
  {| config_ := config_ d; session_ := session_ d;
     state_h_ := state_h_ d; state_c_ := c;
     context_ := context_ d; prob_history_ := prob_history_ d |}.

Definition with_history (d : t) (h : list F32.t) : t :=
  {| config_ := config_ d; session_ := session_ d;
     state_h_ := state_h_ d; state_c_ := state_c_ d;
     context_ := context_ d; prob_history_ := h |}.

(** "Resample or pad to correct size": the frame cut or zero-padded to
    [window_size] samples. *)
Definition prepare_input (cfg : Config) (audio : list F32.t)
  : outcome (list F32.t) :=
  let len := Z.of_nat (length audio) in
  if negb (len =? to_size_t (window_size cfg)) then
    n ← check_size 4 (window_size cfg);       (* input_audio.resize *)
    if to_size_t (window_size cfg) <? len
    then Ok (take (Z.to_nat n) audio)
    else Ok (audio ++ replicate (Z.to_nat n - length audio)%nat F32.zero)
  else Ok audio.

(** "Concatenate context and current audio" *)
Definition concat_input (d : t) (input_audio : list F32.t)
  : outcome (list F32.t) :=
  let cfg := config_ d in
  n ← check_size 4 (context_size cfg + window_size cfg);
  x ← copy_into (context_ d) 0 (replicate (Z.to_nat n) F32.zero);
  copy_into input_audio (context_size cfg) x.

(** "Update context for next frame" *)
Definition update_context (d : t) (x : list F32.t) : outcome t :=
  let ctx := context_size (config_ d) in
  if to_size_t ctx <=? Z.of_nat (length x) then
    tail ← vrange x (Z.of_nat (length x) - ctx) (Z.of_nat (length x));
    c ← copy_into tail 0 (context_ d);
    Ok (with_context d c)
  else Ok d.

(** [std::copy(new_state, new_state + state.size(), state.begin())]
    from the data of an output tensor. *)
Definition copy_state (tensor state : list F32.t) : outcome (list F32.t) :=
  src ← vrange tensor 0 (Z.of_nat (length state));
  copy_into src 0 state.

(** "Update LSTM states (both h and c states)", with the fallback to
    the hidden state alone. *)
Definition update_states (d : t) (output_tensors : list (list F32.t))
  : outcome t :=
  if decide (2 < length output_tensors)%nat then
    new_state_h ← vget output_tensors 1;
    h ← copy_state new_state_h (state_h_ d);
    new_state_c ← vget output_tensors 2;
    c ← copy_state new_state_c (state_c_ d);
    Ok (with_state_c (with_state_h d h) c)
  else if decide (1 < length output_tensors)%nat then
    new_state_h ← vget output_tensors 1;
    h ← copy_state new_state_h (state_h_ d);
    Ok (with_state_h d h)
  else Ok d.

(** [prob_history_.push_back(prob)], bounded by [history_size]. *)
Definition push_history (cfg : Config) (history : list F32.t) (prob : F32.t)
  : list F32.t :=
  let history := history ++ [prob] in
  if to_size_t (history_size cfg) <? Z.of_nat (length history)
  then drop 1 history                          (* pop_front *)
  else history.

(** [std::accumulate(..., 0.0f) / prob_history_.size()] *)
Definition mean (history : list F32.t) : F32.t :=
  F32.div (fold_left F32.add history F32.zero)
          (F32.of_Z (Z.of_nat (length history))).

Definition smooth (d : t) (prob : F32.t) : F32.t * t :=
  let history := push_history (config_ d) (prob_history_ d) prob in
  (mean history, with_history d history).

Section Engine.
(** [session_->Run] on the input [x], the hidden state and the sample
    rate, in the order in which [detectVAD] builds [input_tensors]. *)
Variable Run : list F32.t -> list F32.t -> Z -> run_result.

(** The tail of the [try] block once [x] is built; an exception
    leaves through the [catch], which returns [0.0f]. *)
Definition infer (d : t) (x : list F32.t) : outcome (F32.t * t) :=
  match Run x (state_h_ d) (sample_rate (config_ d)) with
  | RunFailed => Ok (F32.zero, d)
  | RunOutputs output_tensors =>
      prob_data ← vget output_tensors 0;
      prob ← vget prob_data 0;
      d' ← update_states d output_tensors;
      Ok (smooth d' prob)
  end.

Definition detectVAD (d : t) (audio : list F32.t) : outcome (F32.t * t) :=
  if negb (session_ d) then Ok (F32.zero, d)
  else
    match input_audio ← prepare_input (config_ d) audio;
          concat_input d input_audio with
    | Throw _ => Ok (F32.zero, d)
    | Undefined => Undefined
    | Ok x =>
        match update_context d x with
        | Throw _ => Ok (F32.zero, d)
        | Undefined => Undefined
        | Ok d' => infer d' x
        end
    end.

(** A sequence of calls on successive frames, collecting the returned
    probabilities. *)
Fixpoint detect_all (d : t) (frames : list (list F32.t))
  : outcome (list F32.t) :=
  match frames with
  | [] => Ok []
  | frame :: frames' =>
      r ← detectVAD d frame;
      rest ← detect_all (snd r) frames';
      Ok (fst r :: rest)
  end.

(** A session: [reset()] and then the frames. *)
Definition session (d : t) (frames : list (list F32.t))
  : outcome (list F32.t) :=
  d0 ← reset d;
  detect_all d0 frames.
End Engine.

End VADDetector.

(** ** src/audio_recorder.cpp: the capture state machine *)

Module AudioRecorder.

Record Config : Type := {
  sample_rate : Z;
  channels : Z;
  frames_per_buffer : Z;
  device_index : Z;
  silence_duration : F64.t;
  max_record_time : F64.t;
  trigger_threshold : F64.t;
  stop_threshold : F64.t;
  vad_type : string
}.

Definition default_config : Config := {|
  sample_rate := 16000;
  channels := 1;
  frames_per_buffer := 512;
  device_index := -1;
  silence_duration := F64.of_Z 1;
  max_record_time := F64.of_Z 5;
  trigger_threshold := F64.lit 6 10;
  stop_threshold := F64.lit 35 100;
  vad_type := "energy"
|}.

(** The members that the audio callback reads or writes.  The detector
    behind the [vad_detector_] pointer is owned by the application and
    touched by nobody else during a session, so it is kept in place;
    [None] is the null pointer.  Time points of [steady_clock] are
    counted in nanoseconds. *)
Record t : Type := {
  config_ : Config;
  speech_detected_ : bool;
  should_stop_ : bool;
  audio_buffer_ : list F32.t;
  pre_speech_buffer_ : list F32.t;
  vad_buffer_ : list F32.t;
  vad_detector_ : option VADDetector.t;
  last_speech_time_ : Z;
  recording_start_time_ : Z
}.

(** The states of the capture session. *)
Inductive CaptureState : Type := Idle | Recording | Stopped.

Definition state (r : t) : CaptureState :=
  if should_stop_ r then Stopped
  else if speech_detected_ r then Recording
  else Idle.

Definition useEnergyVAD (cfg : Config) : bool := String.eqb (vad_type cfg) "energy".
Definition useSileroVAD (cfg : Config) : bool := String.eqb (vad_type cfg) "silero".

(** [std::chrono::duration<double>(d).count()] for a difference [d] of
    two time points. *)
Definition seconds (d : Z) : F64.t :=
  F64.div (F64.of_Z d) (F64.of_Z 1000000000).

(** *** [computeEnergyVAD] *)
Definition computeEnergyVAD (input : list F32.t) : F32.t :=
  let energy :=
    fold_left (fun energy x => F32.add energy (F32.mul x x)) input F32.zero in
  let energy := F32.sqrt (F32.div energy (F32.of_Z (Z.of_nat (length input)))) in
  let min_energy := F32.lit 1 10000 in
  let max_energy := F32.lit 1 10 in
  if F32.ltb energy min_energy then F32.zero
  else if F32.gtb energy max_energy then F32.one
  else F32.div (F32.sub energy min_energy) (F32.sub max_energy min_energy).

(** *** [computeSileroVAD] *)
Definition VAD_WINDOW_SIZE : nat := 512.

(** "Simple decimation for 48kHz -> 16kHz": the samples at indices
    [0, 3, 6, ...]. *)
Definition decimate3 (audio_chunk : list F32.t) : list F32.t :=
  omap (fun k => audio_chunk !! (3 * k)%nat)
       (seq 0 (Nat.div (length audio_chunk + 2) 3)).

(** The loop of the other sample rates, entered with index [i]. *)
Fixpoint pick_loop (audio_chunk : list F32.t) (ratio : F64.t) (n : nat) (i : Z)
  : outcome (list F32.t) :=
  match n with
  | O => Ok []
  | S n' =>
      src_idx ← of_option (F64.trunc_size_t (F64.mul (F64.of_Z i) ratio));
      rest ← pick_loop audio_chunk ratio n' (i + 1);
      Ok (match audio_chunk !! Z.to_nat src_idx with
          | Some x => x :: rest
          | None => rest
          end)
  end.

Definition resample (cfg : Config) (audio_chunk : list F32.t)
  : outcome (list F32.t) :=
  if negb (sample_rate cfg =? 16000) then
    if sample_rate cfg =? 48000 then Ok (decimate3 audio_chunk)
    else
      let ratio := F64.div (F64.of_Z (sample_rate cfg)) (F64.of_Z 16000) in
      new_size ← of_option
        (F64.trunc_size_t
           (F64.div (F64.of_Z (Z.of_nat (length audio_chunk))) ratio));
      _ ← check_size 4 new_size;               (* resampled_chunk.reserve *)
      pick_loop audio_chunk ratio (Z.to_nat new_size) 0
  else Ok audio_chunk.

Definition with_vad (r : t) (buf : list F32.t) (d : option VADDetector.t) : t :=
  {| config_ := config_ r;
     speech_detected_ := speech_detected_ r;
     should_stop_ := should_stop_ r;
     audio_buffer_ := audio_buffer_ r;
     pre_speech_buffer_ := pre_speech_buffer_ r;
     vad_buffer_ := buf;
     vad_detector_ := d;
     last_speech_time_ := last_speech_time_ r;
     recording_start_time_ := recording_start_time_ r |}.

(** The last [n] elements of a vector that holds at least [n]. *)
Definition last_n {A} (n : nat) (v : list A) : list A :=
  drop (length v - n) v.

Section Engine.
Variable Run : list F32.t -> list F32.t -> Z -> VADDetector.run_result.

Definition computeSileroVAD (r : t) (audio_chunk : list F32.t)
  : outcome (F32.t * t) :=
  match vad_detector_ r with
  | None => Ok (F32.zero, r)
  | Some d =>
      resampled_chunk ← resample (config_ r) audio_chunk;
      let vad_buffer := vad_buffer_ r ++ resampled_chunk in
      if decide (VAD_WINDOW_SIZE <= length vad_buffer)%nat then
        let vad_input := last_n VAD_WINDOW_SIZE vad_buffer in
        let vad_buffer :=
          if decide (VAD_WINDOW_SIZE * 2 < length vad_buffer)%nat
          then last_n VAD_WINDOW_SIZE vad_buffer
          else vad_buffer in
        pd ← VADDetector.detectVAD Run d vad_input;
        Ok (fst pd, with_vad r vad_buffer (Some (snd pd)))
      else Ok (F32.zero, with_vad r vad_buffer (Some d))
  end.

(** The probability of the configured VAD, and the recorder after
    the VAD has run. *)
Definition vad_probability (r : t) (frame : list F32.t)
  : outcome (F32.t * t) :=
  if useEnergyVAD (config_ r) then Ok (computeEnergyVAD frame, r)
  else if useSileroVAD (config_ r)
          && bool_decide (vad_detector_ r <> None)
  then computeSileroVAD r frame
  else Ok (computeEnergyVAD frame, r).

(** "Add to pre-speech buffer (circular buffer)" *)
Definition push_pre_speech (cfg : Config) (pre : list F32.t)
    (frame : list F32.t) : list F32.t :=
  let pre :=
    if to_size_t (frames_per_buffer cfg * 10) <? Z.of_nat (length pre)
    then drop (Z.to_nat (frames_per_buffer cfg)) pre
    else pre in
  pre ++ frame.

(** [is_speech] of a callback: the probability of the detector, promoted
    to [double], against [trigger_threshold]. *)
Definition is_speech (cfg : Config) (prob : F32.t) : bool :=
  F64.gtb (F64.of_f32 prob) (trigger_threshold cfg).

(** [processAudioFrame], for the samples [frame] of one callback and
    the value [now] that [steady_clock::now()] returns in it.  The
    optional [vad_callback_] only observes the frame and is left out. *)
Definition processAudioFrame (r : t) (frame : list F32.t) (now : Z)
  : outcome t :=
  let cfg := config_ r in
  let pre_speech_buffer := push_pre_speech cfg (pre_speech_buffer_ r) frame in
  pr ← vad_probability r frame;
  let r := snd pr in
  let is_speech := is_speech cfg (fst pr) in
  let last_speech_time := if is_speech then now else last_speech_time_ r in
  let starts := is_speech && negb (speech_detected_ r) in
  let speech_detected := speech_detected_ r || is_speech in
  let audio_buffer :=
    if starts then audio_buffer_ r ++ pre_speech_buffer
    else audio_buffer_ r in
  if speech_detected then
    let audio_buffer := audio_buffer ++ frame in
    let silence := seconds (now - last_speech_time) in
    let total := seconds (now - recording_start_time_ r) in
    let should_stop :=
      if F64.gtb silence (silence_duration cfg) then true
      else if F64.gtb total (max_record_time cfg) then true
      else should_stop_ r in
    Ok {| config_ := cfg;
          speech_detected_ := speech_detected;
          should_stop_ := should_stop;
          audio_buffer_ := audio_buffer;
          pre_speech_buffer_ := pre_speech_buffer;
          vad_buffer_ := vad_buffer_ r;
          vad_detector_ := vad_detector_ r;
          last_speech_time_ := last_speech_time;
          recording_start_time_ := recording_start_time_ r |}
  else
    Ok {| config_ := cfg;
          speech_detected_ := speech_detected;
          should_stop_ := should_stop_ r;
          audio_buffer_ := audio_buffer;
          pre_speech_buffer_ := pre_speech_buffer;
          vad_buffer_ := vad_buffer_ r;
          vad_detector_ := vad_detector_ r;
          last_speech_time_ := last_speech_time;
          recording_start_time_ := recording_start_time_ r |}.

(** The callbacks of a session, one [(frame, now)] pair each. *)
Fixpoint callbacks (r : t) (events : list (list F32.t * Z)) : outcome t :=
  match events with
  | [] => Ok r
  | (frame, now) :: events' =>
      r' ← processAudioFrame r frame now;
      callbacks r' events'
  end.
End Engine.

(** "Reset state" at the top of [recordAudio], [now] being the value of
    [steady_clock::now()] there. *)
Definition recordAudio_reset (r : t) (now : Z) : outcome t :=
  d ← match vad_detector_ r with
      | Some d => d' ← VADDetector.reset d; Ok (Some d')
      | None => Ok None
      end;
  Ok {| config_ := config_ r;
        speech_detected_ := false;
        should_stop_ := false;
        audio_buffer_ := [];
        pre_speech_buffer_ := [];
        vad_buffer_ := [];
        vad_detector_ := d;
        last_speech_time_ := now;
        recording_start_time_ := now |}.

End AudioRecorder.


(** ** Vocabulary of the statements *)

(** The value the preemphasis loop stores at index [S i] of a vector it
    was entered with as [x]. *)
Definition filtered (alpha : F32.t) (x : list F32.t) (i : nat) : option F32.t :=
  xi ← x !! S i; xp ← x !! i; Some (F32.sub xi (F32.mul alpha xp)).
(** A configuration that differs from the default one in the preemphasis
    factor only. *)
Definition config_with_preemphasis (alpha : F32.t) : AudioProcessor.Config :=
  {| AudioProcessor.sample_rate := 16000;
     AudioProcessor.frame_length := 400;
     AudioProcessor.frame_shift := 160;
     AudioProcessor.n_mels := 80;
     AudioProcessor.n_fft := 512;
     AudioProcessor.preemphasis := alpha;
     AudioProcessor.apply_cmvn := true;
     AudioProcessor.cmvn_file := EmptyString |}.

(** The processor right after construction with the default
    configuration. *)
Definition default_processor : AudioProcessor.t :=
  {| AudioProcessor.config_ := AudioProcessor.default_config;
     AudioProcessor.cmvn_loaded_ := false;
     AudioProcessor.cmvn_mean_ := [];
     AudioProcessor.cmvn_var_ := [];
     AudioProcessor.mel_filterbank_ := [];
     AudioProcessor.window_ := [] |}.

(** What [applyCMVN] leaves at dimension [d] of a frame: the normalised
    value where a mean is stored for [d], the input value elsewhere. *)
Definition cmvn_value (mean var : list F32.t) (d : nat) (x : F32.t) : F32.t :=
  match mean !! d, var !! d with
  | Some m, Some v => F32.div (F32.sub x m) (F32.sqrt v)
  | _, _ => x
  end.

(** The weights that the two loops of a mel filter store at bin [k]. *)
Definition rising (start center k : Z) : F32.t :=
  F32.div (F32.of_Z (k - start)) (F32.of_Z (center - start)).

Definition falling (center end_ k : Z) : F32.t :=
  F32.div (F32.of_Z (end_ - k)) (F32.of_Z (end_ - center)).

(** The default processor once [loadCMVN] has run: [n_mels = 80]
    placeholder means and variances. *)
Definition loaded_processor : AudioProcessor.t :=
  {| AudioProcessor.config_ := AudioProcessor.default_config;
     AudioProcessor.cmvn_loaded_ := true;
     AudioProcessor.cmvn_mean_ := replicate 80 F32.zero;
     AudioProcessor.cmvn_var_ := replicate 80 F32.one;
     AudioProcessor.mel_filterbank_ := [];
     AudioProcessor.window_ := [] |}.

(** A small configuration and a linear stand-in for the mel scale, on
    which the filterbank can be evaluated: the statements about the
    filterbank hold for every [log10f] and [powf]. *)
Definition small_config : AudioProcessor.Config :=
  {| AudioProcessor.sample_rate := 16000;
     AudioProcessor.frame_length := 4;
     AudioProcessor.frame_shift := 2;
     AudioProcessor.n_mels := 2;
     AudioProcessor.n_fft := 16;
     AudioProcessor.preemphasis := F32.lit 97 100;
     AudioProcessor.apply_cmvn := true;
     AudioProcessor.cmvn_file := EmptyString |}.

Definition linear_log10f (x : F32.t) : F32.t := x.
Definition linear_powf (b y : F32.t) : F32.t := F32.add y F32.one.

(** [max_token] and [max_prob] of the inner loop of [decodeCTC] once the
    entries of [row] below [v] have been visited. *)
Definition argmax_inv (row : list F32.t) (v : nat) (max_token : Z)
    (max_prob : F32.t) : Prop :=
  0 <= max_token < Z.of_nat v
  /\ row !! Z.to_nat max_token = Some max_prob
  /\ (forall u y, (u < v)%nat -> row !! u = Some y -> F32.gtb y max_prob = false)
  /\ (forall u y, (u < Z.to_nat max_token)%nat -> row !! u = Some y ->
        F32.ltb y max_prob = true).

(** The value of the variable [prev_token] that stands for the previous
    raw argmax: [-1] before the first step. *)
Definition prev_token_of (prev : option Z) : Z :=
  match prev with Some p => p | None => -1 end.

(** A row of [V] logits that is one at index [k] and zero elsewhere, and
    the matrix whose per-step argmaxes are [0,2,2,0,3,3,3,0]. *)
Definition one_hot (V k : nat) : list F32.t :=
  <[k := F32.one]> (replicate V F32.zero).

Definition example_rows : list (list F32.t) :=
  map (one_hot 4) [0; 2; 2; 0; 3; 3; 3; 0]%nat.

(** A detector on which [initialize] has succeeded: the session exists,
    the sizes of the configuration are those of a frame, and [context_]
    has the length that [reset] gives it. *)
Definition detector_ready (d : VADDetector.t) : Prop :=
  VADDetector.session_ d = true
  /\ 0 < VADDetector.window_size (VADDetector.config_ d)
  /\ 0 <= VADDetector.context_size (VADDetector.config_ d)
  /\ VADDetector.context_size (VADDetector.config_ d)
     + VADDetector.window_size (VADDetector.config_ d) < 2 ^ 31
  /\ Z.of_nat (length (VADDetector.context_ d))
     = VADDetector.context_size (VADDetector.config_ d).

(** The frame as [detectVAD] feeds it to the model: cut to the first
    [window_size] samples or padded with zeros. *)
Definition fit_window (cfg : VADDetector.Config) (audio : list F32.t) : list F32.t :=
  let n := Z.to_nat (VADDetector.window_size cfg) in
  if decide (length audio = n) then audio
  else if decide (n < length audio)%nat then take n audio
  else audio ++ replicate (n - length audio)%nat F32.zero.

(** The model input of a call: the rolling context, then the frame. *)
Definition model_input (d : VADDetector.t) (audio : list F32.t) : list F32.t :=
  VADDetector.context_ d ++ fit_window (VADDetector.config_ d) audio.

(** The detector once the context has been rolled over the input [x]. *)
Definition rolled (d : VADDetector.t) (x : list F32.t) : VADDetector.t :=
  VADDetector.with_context d
    (AudioRecorder.last_n
       (Z.to_nat (VADDetector.context_size (VADDetector.config_ d))) x).

(** *** The smoothing of the detector in the words of the specification *)




(** The detector of the application right after [initialize]: default
    sizes, a session, and the state that [reset] leaves. *)
Definition fresh_detector : VADDetector.t :=
  {| VADDetector.config_ := VADDetector.default_config;
     VADDetector.session_ := true;
     VADDetector.state_h_ := replicate 256 F32.zero;
     VADDetector.state_c_ := replicate 256 F32.zero;
     VADDetector.context_ := replicate 64 F32.zero;
     VADDetector.prob_history_ := [] |}.

(** The same detector in the middle of an earlier session. *)
Definition used_detector : VADDetector.t :=
  {| VADDetector.config_ := VADDetector.default_config;
     VADDetector.session_ := true;
     VADDetector.state_h_ := replicate 256 F32.one;
     VADDetector.state_c_ := replicate 256 (F32.of_Z 2);
     VADDetector.context_ := replicate 64 (F32.of_Z 3);
     VADDetector.prob_history_ := [F32.one; F32.zero] |}.

(** Two inference engines to evaluate the detector on: one whose
    inference always fails, and a deterministic one that answers the
    first sample after the context as probability, the hidden state with
    one added to every entry, and the old hidden state as cell state. *)
Definition failing_engine (x h : list F32.t) (sr : Z) : VADDetector.run_result :=
  VADDetector.RunFailed.

Definition sample_engine (x h : list F32.t) (sr : Z) : VADDetector.run_result :=
  VADDetector.RunOutputs
    [[default F32.zero (x !! 64%nat)]; map (F32.add F32.one) h; h].

(** A recorder configured for the neural detector, at the start of a
    session that began at time 0. *)
Definition silero_config : AudioRecorder.Config :=
  {| AudioRecorder.sample_rate := 16000;
     AudioRecorder.channels := 1;
     AudioRecorder.frames_per_buffer := 512;
     AudioRecorder.device_index := -1;
     AudioRecorder.silence_duration := F64.of_Z 1;
     AudioRecorder.max_record_time := F64.of_Z 5;
     AudioRecorder.trigger_threshold := F64.lit 6 10;
     AudioRecorder.stop_threshold := F64.lit 35 100;
     AudioRecorder.vad_type := "silero" |}.

Definition silero_recorder : AudioRecorder.t :=
  {| AudioRecorder.config_ := silero_config;
     AudioRecorder.speech_detected_ := false;
     AudioRecorder.should_stop_ := false;
     AudioRecorder.audio_buffer_ := [];
     AudioRecorder.pre_speech_buffer_ := [];
     AudioRecorder.vad_buffer_ := [];
     AudioRecorder.vad_detector_ := Some fresh_detector;
     AudioRecorder.last_speech_time_ := 0;
     AudioRecorder.recording_start_time_ := 0 |}.



(** The default recorder (energy detector) at the start of a session
    that began at time 0. *)
Definition energy_recorder : AudioRecorder.t :=
  {| AudioRecorder.config_ := AudioRecorder.default_config;
     AudioRecorder.speech_detected_ := false;
     AudioRecorder.should_stop_ := false;
     AudioRecorder.audio_buffer_ := [];
     AudioRecorder.pre_speech_buffer_ := [];
     AudioRecorder.vad_buffer_ := [];
     AudioRecorder.vad_detector_ := None;
     AudioRecorder.last_speech_time_ := 0;
     AudioRecorder.recording_start_time_ := 0 |}.

(** The verdicts of the detector on the callbacks of a session that is
    in the state [r]: for every callback in turn, whether its frame is
    taken for speech, that is, whether the probability that the
    configured detector gives the frame in the state the earlier
    callbacks have left is above [trigger_threshold]. *)
Fixpoint verdicts (Run : list F32.t -> list F32.t -> Z -> VADDetector.run_result)
    (r : AudioRecorder.t) (events : list (list F32.t * Z))
  : outcome (list bool) :=
  match events with
  | [] => Ok []
  | (frame, now) :: events' =>
      pr ← AudioRecorder.vad_probability Run r frame;
      r' ← AudioRecorder.processAudioFrame Run r frame now;
      rest ← verdicts Run r' events';
      Ok (AudioRecorder.is_speech (AudioRecorder.config_ r) (fst pr) :: rest)
  end.

(** A callback buffer of 512 samples of amplitude one half (speech for
    the energy detector), one of silence, and one second in nanoseconds. *)
Definition loud_frame : list F32.t := replicate 512 (F32.lit 1 2).
Definition silent_frame : list F32.t := replicate 512 F32.zero.
Definition second : Z := 1000000000.

(** A processor whose members fit its configuration: the sizes are
    those of an [int], the window and the frames fit the FFT, there is a
    filter for every mel band, and the variance is known wherever the
    mean is. *)
Definition processor_ready (p : AudioProcessor.t) : Prop :=
  let cfg := AudioProcessor.config_ p in
  0 < AudioProcessor.frame_shift cfg < 2 ^ 31
  /\ 0 < AudioProcessor.frame_length cfg < 2 ^ 31
  /\ 0 < AudioProcessor.n_fft cfg < 2 ^ 31
  /\ 0 <= AudioProcessor.n_mels cfg < 2 ^ 31
  /\ Z.min (AudioProcessor.frame_length cfg)
           (Z.of_nat (length (AudioProcessor.window_ p)))
     <= AudioProcessor.n_fft cfg
  /\ AudioProcessor.n_mels cfg
     <= Z.of_nat (length (AudioProcessor.mel_filterbank_ p))
  /\ (length (AudioProcessor.cmvn_mean_ p)
      <= length (AudioProcessor.cmvn_var_ p))%nat.

(** A processor for [small_config] with a flat window and an empty
    filterbank of the right shape. *)
Definition small_processor : AudioProcessor.t :=
  {| AudioProcessor.config_ := small_config;
     AudioProcessor.cmvn_loaded_ := false;
     AudioProcessor.cmvn_mean_ := [];
     AudioProcessor.cmvn_var_ := [];
     AudioProcessor.mel_filterbank_ := replicate 2 (replicate 9 F32.zero);
     AudioProcessor.window_ := replicate 4 F32.one |}.

(** The tokens of a vocabulary file, in the order of their ids: the text
    before the first tab of every non-empty line. *)
Definition vocabulary (lines : list string) : list string :=
  map Tokenizer.before_tab
      (List.filter (fun line => negb (String.eqb line "")) lines).

(** The tokenizer that [loadVocabulary] leaves when it reads [lines]
    into a newly constructed tokenizer. *)
Definition loaded (vocab_file : string) (lines : list string) : Tokenizer.t :=
  snd (Tokenizer.loadVocabulary vocab_file (Some lines) Tokenizer.empty).

(** The lines of a small vocabulary file: two of them carry a score
    after a tab, and one is empty. *)
Definition sample_lines : list string :=
  [String.append "<unk>" (String "009"%char "0"); EmptyString;
   String.append "<blank>" (String "009"%char "0"); "a"]%string.

(** The characters that [splitByDelimiters] drops. *)
Definition is_delimiter (c : Ascii.ascii) : bool :=
  Ascii.eqb c " "%char || Ascii.eqb c "009"%char || Ascii.eqb c "010"%char.

(** The number of columns that [recognize] announces to the engine:
    the width of the first row, 0 for an empty matrix. *)
Definition feature_dim (features : list (list F32.t)) : Z :=
  match features with
  | [] => 0
  | frame :: _ => Z.of_nat (length frame)
  end.

(** A model object whose tables hold the keys that [recognize] looks
    up when the language is not known: asking for an id leaves it
    unchanged. *)
Definition tables_ready (m : ASRModel.t) : Prop :=
  is_Some (ASRModel.language_dict_ m !! "auto")
  /\ is_Some (ASRModel.textnorm_dict_ m !! "withitn")
  /\ is_Some (ASRModel.textnorm_dict_ m !! "woitn").

(** A model object on which [initialize] has succeeded, with the
    processor [ap] and the tokenizer [tk]. *)
Definition initialized (config : ASRModel.Config) (ap : AudioProcessor.t)
    (tk : Tokenizer.t) : ASRModel.t :=
  {| ASRModel.config_ := config;
     ASRModel.session_ := true;
     ASRModel.audio_processor_ := Some ap;
     ASRModel.tokenizer_ := Some tk;
     ASRModel.blank_id_ := 0;
     ASRModel.language_dict_ :=
       ASRModel.language_dict_ (ASRModel.construct config);
     ASRModel.textnorm_dict_ :=
       ASRModel.textnorm_dict_ (ASRModel.construct config) |}.

(** A vocabulary of four tokens, and two models to evaluate
    [recognize] on: one with the default frames, one with those of
    [small_config]. *)
Definition small_tokenizer : Tokenizer.t :=
  loaded "tokens.txt" ["<unk>"; "<blank>"; "a"; "b"].

Definition default_model : ASRModel.t :=
  initialized ASRModel.default_config default_processor small_tokenizer.

Definition small_model : ASRModel.t :=
  initialized ASRModel.default_config small_processor small_tokenizer.

(** Stand-ins for the regular expressions and for the recognition
    engine: no replacement at all; an engine that always fails; and one
    that always answers two steps over four tokens with the argmaxes 2
    and 3. *)
Definition no_replace (subject pattern replacement : string) : string :=
  subject.

Definition failing_recognizer (features : list F32.t) (feature_shape : list Z)
    (feat_length language_id textnorm_id : Z) : ASRModel.run_result :=
  ASRModel.RunFailed.

Definition sample_logits : list F32.t :=
  [F32.zero; F32.zero; F32.one; F32.zero;
   F32.zero; F32.zero; F32.zero; F32.one].

Definition sample_recognizer (features : list F32.t) (feature_shape : list Z)
    (feat_length language_id textnorm_id : Z) : ASRModel.run_result :=
  ASRModel.RunOutputs
    [{| ASRModel.shape := [1; 2; 4]; ASRModel.data := sample_logits |}].

(** An engine that answers the probability and both state tensors, each
    state at least as long as the hidden state it was given. *)
Definition engine_sound
    (Run : list F32.t -> list F32.t -> Z -> VADDetector.run_result) : Prop :=
  forall x h sr output_tensors,
    Run x h sr = VADDetector.RunOutputs output_tensors ->
    exists prob prob_rest new_h new_c rest,
      output_tensors = (prob :: prob_rest) :: new_h :: new_c :: rest
      /\ (length h <= length new_h)%nat
      /\ (length h <= length new_c)%nat.

(** A value that a [float] can hold: zero, infinity, NaN, or a mantissa
    and an exponent in the normalised form of the format. *)
Definition is_float (x : F32.t) : Prop :=
  valid_binary F32.prec F32.emax x = true.

(** A recorder configuration at 48 kHz. *)
Definition config_48k : AudioRecorder.Config :=
  {| AudioRecorder.sample_rate := 48000;
     AudioRecorder.channels := 1;
     AudioRecorder.frames_per_buffer := 512;
     AudioRecorder.device_index := -1;
     AudioRecorder.silence_duration := F64.of_Z 1;
     AudioRecorder.max_record_time := F64.of_Z 5;
     AudioRecorder.trigger_threshold := F64.lit 6 10;
     AudioRecorder.stop_threshold := F64.lit 35 100;
     AudioRecorder.vad_type := "silero" |}.
(** * Properties *)

Arguments F32.add : simpl never.
Arguments F32.sub : simpl never.
Arguments F32.mul : simpl never.
Arguments F32.div : simpl never.
Arguments F32.sqrt : simpl never.
Arguments F32.of_Z : simpl never.
Arguments F32.gtb : simpl never.
Arguments F32.ltb : simpl never.
Arguments F64.div : simpl never.
Arguments F64.of_Z : simpl never.
Arguments F64.gtb : simpl never.
Arguments F64.of_f32 : simpl never.
Arguments to_size_t : simpl never.
Arguments to_int : simpl never.
Arguments vector_max_size : simpl never.

(** ** Vectors *)

Lemma to_size_t_small z : 0 <= z < 2 ^ 64 -> to_size_t z = z.
Proof. intros H. unfold to_size_t. apply Z.mod_small; lia. Qed.

Lemma to_int_small z : - 2 ^ 31 <= z < 2 ^ 31 -> to_int z = z.
Proof. intros H. unfold to_int. rewrite Z.mod_small; lia. Qed.

Lemma check_size_ok elt n :
  0 <= n <= vector_max_size elt -> vector_max_size elt < 2 ^ 64 ->
  check_size elt n = Ok n.
Proof.
  intros Hn Hmax. unfold check_size.
  rewrite to_size_t_small by lia.
  destruct (Z.ltb_spec (vector_max_size elt) n); [lia | reflexivity].
Qed.

Lemma max_size_4 : vector_max_size 4 = 2305843009213693951.
Proof. reflexivity. Qed.

Lemma max_size_24 : vector_max_size 24 = 384307168202282325.
Proof. reflexivity. Qed.

Lemma vget_ok {A} (v : list A) (i : nat) (x : A) :
  v !! i = Some x -> vget v (Z.of_nat i) = Ok x.
Proof.
  intros H. unfold vget.
  pose proof (lookup_lt_Some _ _ _ H).
  destruct (Z.leb_spec 0 (Z.of_nat i)); [|lia].
  destruct (Z.ltb_spec (Z.of_nat i) (Z.of_nat (length v))); [|lia].
  simpl. rewrite Nat2Z.id, H. reflexivity.
Qed.

Lemma vget_inv {A} (v : list A) (i : Z) (x : A) :
  vget v i = Ok x -> 0 <= i /\ v !! Z.to_nat i = Some x.
Proof.
  unfold vget. destruct (Z.leb_spec 0 i); simpl; [|discriminate].
  destruct (Z.ltb_spec i (Z.of_nat (length v))); [|discriminate].
  destruct (v !! Z.to_nat i); simpl; [|discriminate].
  intros [= ->]. auto.
Qed.

Lemma vset_ok {A} (v : list A) (i : nat) (x : A) :
  (i < length v)%nat -> vset v (Z.of_nat i) x = Ok (<[i := x]> v).
Proof.
  intros H. unfold vset.
  destruct (Z.leb_spec 0 (Z.of_nat i)); [|lia].
  destruct (Z.ltb_spec (Z.of_nat i) (Z.of_nat (length v))); [|lia].
  simpl. rewrite Nat2Z.id. reflexivity.
Qed.

Lemma vset_inv {A} (v v' : list A) (i : Z) (x : A) :
  vset v i x = Ok v' ->
  0 <= i /\ (Z.to_nat i < length v)%nat /\ v' = <[Z.to_nat i := x]> v.
Proof.
  unfold vset. destruct (Z.leb_spec 0 i); simpl; [|discriminate].
  destruct (Z.ltb_spec i (Z.of_nat (length v))); [|discriminate].
  intros [= <-]. repeat split; auto; lia.
Qed.

Lemma vrange_ok {A} (v : list A) (a b : nat) :
  (a <= b <= length v)%nat ->
  vrange v (Z.of_nat a) (Z.of_nat b) = Ok (take (b - a) (drop a v)).
Proof.
  intros H. unfold vrange.
  destruct (Z.leb_spec 0 (Z.of_nat a)); [|lia].
  destruct (Z.leb_spec (Z.of_nat a) (Z.of_nat b)); [|lia].
  destruct (Z.leb_spec (Z.of_nat b) (Z.of_nat (length v))); [|lia].
  simpl. rewrite Nat2Z.id. do 3 f_equal. lia.
Qed.

Lemma copy_into_ok {A} (src dst : list A) (pos : nat) :
  (pos + length src <= length dst)%nat ->
  copy_into src (Z.of_nat pos) dst
  = Ok (take pos dst ++ src ++ drop (pos + length src) dst).
Proof.
  intros H. unfold copy_into.
  destruct (Z.leb_spec 0 (Z.of_nat pos)); [|lia].
  destruct (Z.leb_spec (Z.of_nat pos + Z.of_nat (length src))
                       (Z.of_nat (length dst))); [|lia].
  simpl. rewrite Nat2Z.id. reflexivity.
Qed.

(** ** Preemphasis *)

Section Preemphasis.
Variable alpha : F32.t.

(** Running the loop from index [i] down to 1 rewrites exactly the
    indices [1..i], each from the samples of the vector it was entered
    with: index [k-1] is still unfiltered when index [k] is updated. *)
Lemma preemph_loop_spec (i : nat) :
  forall result : list F32.t,
    (i < length result)%nat ->
    exists y, AudioProcessor.preemph_loop alpha i result = Ok y
      /\ length y = length result
      /\ y !! 0%nat = result !! 0%nat
      /\ (forall k, (i < k)%nat -> y !! k = result !! k)
      /\ (forall k, (k < i)%nat -> y !! S k = filtered alpha result k).
Proof.
  induction i as [|i IH]; intros result Hlen.
  - exists result. simpl. repeat split; auto. intros k Hk. lia.
  - destruct (lookup_lt_is_Some_2 result (S i) Hlen) as [xi Hxi].
    destruct (lookup_lt_is_Some_2 result i ltac:(lia)) as [xp Hxp].
    cbn [AudioProcessor.preemph_loop].
    rewrite (vget_ok _ _ _ Hxi). cbn [mbind outcome_bind].
    replace (Z.of_nat (S i) - 1) with (Z.of_nat i) by lia.
    rewrite (vget_ok _ _ _ Hxp). cbn [mbind outcome_bind].
    rewrite vset_ok by lia. cbn [mbind outcome_bind].
    set (result' := <[S i := F32.sub xi (F32.mul alpha xp)]> result).
    destruct (IH result') as (y & Hy & Hl & H0 & Hhi & Hlo).
    { unfold result'. rewrite length_insert. lia. }
    exists y. split; [exact Hy|].
    unfold result' in *. rewrite length_insert in Hl.
    split; [exact Hl|]. split.
    { rewrite H0. apply list_lookup_insert_ne. lia. }
    split.
    { intros k Hk. rewrite Hhi by lia. apply list_lookup_insert_ne. lia. }
    intros k Hk. destruct (decide (k = i)) as [->|Hne].
    + rewrite Hhi by lia. rewrite list_lookup_insert_eq by lia.
      unfold filtered. rewrite Hxi, Hxp. reflexivity.
    + rewrite Hlo by lia. unfold filtered.
      rewrite !list_lookup_insert_ne by lia. reflexivity.
Qed.
End Preemphasis.

Lemma preemph_loop_empty alpha i :
  i <> 0%nat -> AudioProcessor.preemph_loop alpha i [] = Undefined.
Proof. destruct i; [congruence|]. intros _. reflexivity. Qed.

(** Preemphasis with a positive factor on a non-empty signal. *)
Lemma preprocess_positive (cfg : AudioProcessor.Config) (audio : list F32.t) :
  Z.of_nat (length audio) <= vector_max_size 4 ->
  F32.gtb (AudioProcessor.preemphasis cfg) F32.zero = true ->
  audio <> [] ->
  exists y, AudioProcessor.preprocess cfg audio = Ok y
    /\ length y = length audio
    /\ y !! 0%nat = audio !! 0%nat
    /\ (forall i, (S i < length audio)%nat ->
          y !! S i = filtered (AudioProcessor.preemphasis cfg) audio i).
Proof.
  intros Hmax Hpos Hne. unfold AudioProcessor.preprocess. rewrite Hpos.
  assert (Hlen : (0 < length audio)%nat).
  { destruct audio; [congruence | simpl; lia]. }
  rewrite max_size_4 in Hmax.
  rewrite to_size_t_small by lia.
  replace (Z.to_nat (Z.of_nat (length audio) - 1))
    with (length audio - 1)%nat by lia.
  destruct (preemph_loop_spec (AudioProcessor.preemphasis cfg)
              (length audio - 1) audio ltac:(lia))
    as (y & Hy & Hl & H0 & _ & Hlo).
  exists y. repeat split; auto.
  intros i Hi. apply Hlo. lia.
Qed.

(** C7 (as the code has it).  Preemphasis is gated on a positive factor:
    with [preemphasis <= 0] (or NaN) the samples are returned unchanged.
    With a positive factor and a non-empty signal, the first sample is
    untouched and every later sample [i] becomes
    [x[i] - alpha * x[i-1]], computed in single precision from the
    unfiltered [x[i-1]]; on a constant signal [k] every sample but the
    first is therefore [k - alpha * k]. *)
Theorem preprocess_preemphasis (cfg : AudioProcessor.Config) (audio : list F32.t) :
  Z.of_nat (length audio) <= vector_max_size 4 ->
  (F32.gtb (AudioProcessor.preemphasis cfg) F32.zero = false ->
   AudioProcessor.preprocess cfg audio = Ok audio)
  /\ (F32.gtb (AudioProcessor.preemphasis cfg) F32.zero = true ->
      audio <> [] ->
      exists y, AudioProcessor.preprocess cfg audio = Ok y
        /\ length y = length audio
        /\ y !! 0%nat = audio !! 0%nat
        /\ (forall i, (S i < length audio)%nat ->
              y !! S i = filtered (AudioProcessor.preemphasis cfg) audio i)
        /\ (forall k n, audio = replicate (S n) k ->
              y = k :: replicate n
                         (F32.sub k (F32.mul (AudioProcessor.preemphasis cfg) k)))).
Proof.
  intros Hmax. split.
  - intros Hneg. unfold AudioProcessor.preprocess. rewrite Hneg. reflexivity.
  - intros Hpos Hne.
    destruct (preprocess_positive cfg audio Hmax Hpos Hne)
      as (y & Hy & Hl & H0 & Hlo).
    exists y. repeat split; auto.
    intros k n ->. apply list_eq. intros [|i].
    + rewrite H0. reflexivity.
    + rewrite length_replicate in *.
      destruct (decide (i < n)%nat) as [Hi|Hi].
      * rewrite Hlo by (simpl; lia). unfold filtered.
        rewrite !lookup_replicate_2 by lia. simpl.
        rewrite lookup_replicate_2 by lia. reflexivity.
      * rewrite (lookup_ge_None_2 y) by lia. simpl.
        rewrite lookup_ge_None_2; [reflexivity|].
        rewrite length_replicate. lia.
Qed.

Lemma preprocess_preemphasis_witness :
  exists y,
    AudioProcessor.preprocess AudioProcessor.default_config
      [F32.one; F32.one; F32.one] = Ok y
    /\ y = F32.one :: replicate 2
            (F32.sub F32.one
               (F32.mul (AudioProcessor.preemphasis
                           AudioProcessor.default_config) F32.one)).
Proof.
  destruct (preprocess_preemphasis AudioProcessor.default_config
              [F32.one; F32.one; F32.one]) as [_ H].
  - vm_compute. congruence.
  - destruct H as (y & Hy & _ & _ & _ & Hc).
    + vm_compute. reflexivity.
    + congruence.
    + exists y. split; [exact Hy|]. apply (Hc F32.one 2%nat). reflexivity.
Defined.

(** In single precision [k - alpha * k] and [k * (1 - alpha)] can differ:
    with [k = 0.1f] and the default factor [0.97f] they are one apart in
    the sixth significant digit. *)
Lemma preemphasis_not_factored :
  let alpha := AudioProcessor.preemphasis AudioProcessor.default_config in
  let k := F32.lit 1 10 in
  F32.sub k (F32.mul alpha k) = S754_finite false 12884896 (-32)
  /\ F32.mul k (F32.sub F32.one alpha) = S754_finite false 12884890 (-32).
Proof. vm_compute. split; reflexivity. Qed.

(** C7, the claim as stated, fails for a factor that is not positive:
    with [alpha = -0.5] the constant signal [1, 1] is returned as it is,
    while [k * (1 - alpha)] is [1.5]. *)
Lemma preprocess_nonpositive_factor_counterexample :
  let cfg := config_with_preemphasis (F32.opp (F32.lit 1 2)) in
  AudioProcessor.preprocess cfg [F32.one; F32.one] = Ok [F32.one; F32.one]
  /\ F32.mul F32.one (F32.sub F32.one (AudioProcessor.preemphasis cfg))
     = F32.lit 3 2
  /\ [F32.one; F32.one] !! 1%nat
     <> Some (F32.mul F32.one (F32.sub F32.one (AudioProcessor.preemphasis cfg))).
Proof. vm_compute. repeat split; congruence. Qed.

(** On the empty waveform the loop index [result.size() - 1] wraps to
    [SIZE_MAX] and the first iteration indexes past the end. *)
Lemma preprocess_empty (cfg : AudioProcessor.Config) :
  F32.gtb (AudioProcessor.preemphasis cfg) F32.zero = true ->
  AudioProcessor.preprocess cfg [] = Undefined.
Proof.
  intros H. unfold AudioProcessor.preprocess. rewrite H.
  apply preemph_loop_empty. simpl length.
  replace (to_size_t (Z.of_nat 0 - 1)) with 18446744073709551615 by reflexivity.
  lia.
Qed.

(** ** Framing *)

(** With the default frame length and shift, a signal of fewer than 400
    samples makes [signal.size() - frame_length] wrap around in [size_t];
    the quotient, cut to [int], is negative, and [frames.reserve] is asked
    for more than [max_size()] elements. *)
Lemma frameSignal_default_short (signal : list F32.t) :
  (length signal < 400)%nat ->
  AudioProcessor.frameSignal AudioProcessor.default_config signal
  = Throw length_error.
Proof.
  intros Hlen. unfold AudioProcessor.frameSignal, AudioProcessor.num_frames.
  cbn [AudioProcessor.frame_shift AudioProcessor.frame_length
       AudioProcessor.default_config].
  set (L := Z.of_nat (length signal)).
  assert (HL : 0 <= L < 400) by (unfold L; lia).
  clearbody L. clear Hlen.
  change (to_size_t 160) with 160. change (to_size_t 400) with 400.
  change (160 =? 0) with false. cbv iota.
  set (q := to_int (to_size_t (L - 400) / 160)).
  assert (Hq : - 2 ^ 31 <= q < -1).
  { unfold q, to_int, to_size_t. Z.div_mod_to_equations. lia. }
  clearbody q.
  destruct (Z.eqb_spec q (2 ^ 31 - 1)); [lia|].
  cbn [mbind outcome_bind]. unfold check_size.
  assert (Hs : to_size_t (q + 1) = q + 1 + 2 ^ 64).
  { unfold to_size_t. symmetry. apply (Z.mod_unique _ _ (-1)); lia. }
  rewrite Hs, max_size_24.
  destruct (Z.ltb_spec 384307168202282325 (q + 1 + 2 ^ 64)); [|lia].
  reflexivity.
Qed.

Section ExtractFeatures.
Variable fft : list F32.t -> list (F32.t * F32.t).
Variable cabsf : F32.t * F32.t -> F32.t.
Variable logf : F32.t -> F32.t.

(** C1 (the code at the failing inputs).  With the default
    configuration no waveform shorter than one frame yields an empty
    feature matrix: a non-empty one makes [frameSignal] throw
    [std::length_error], which [extractFeatures] lets through, and the
    empty one is indexed out of bounds by [preprocess]. *)
Theorem extractFeatures_short_waveform (p : AudioProcessor.t) (audio : list F32.t) :
  AudioProcessor.config_ p = AudioProcessor.default_config ->
  (length audio < 400)%nat ->
  AudioProcessor.extractFeatures fft cabsf logf p audio
  = match audio with [] => Undefined | _ => Throw length_error end.
Proof.
  intros Hcfg Hlen. unfold AudioProcessor.extractFeatures. rewrite Hcfg.
  destruct audio as [|a audio'] eqn:Ha.
  - rewrite preprocess_empty by reflexivity. reflexivity.
  - rewrite <- Ha in *.
    destruct (preprocess_preemphasis AudioProcessor.default_config audio)
      as [_ H].
    { rewrite max_size_4. lia. }
    destruct H as (y & Hy & Hl & _); [reflexivity | subst; congruence |].
    rewrite Hy. cbn [mbind outcome_bind].
    unfold AudioProcessor.computeFbank. rewrite Hcfg.
    rewrite frameSignal_default_short by lia. reflexivity.
Qed.
End ExtractFeatures.

Lemma extractFeatures_short_waveform_witness :
  AudioProcessor.extractFeatures (fun _ => []) fst (fun x => x)
    default_processor [F32.zero]
  = Throw length_error.
Proof.
  apply (extractFeatures_short_waveform (fun _ => []) fst (fun x => x)
           default_processor [F32.zero]).
  - reflexivity.
  - simpl. lia.
Defined.

(** ** Low frame rate stacking *)

(** Every stacked frame is seven input frames wide. *)
Lemma lfr_loop_width (n : nat) (features : list (list F32.t)) (fuel : nat) :
  Forall (fun frame => length frame = n) features ->
  forall i, Forall (fun frame => length frame = (7 * n)%nat)
                   (AudioProcessor.lfr_loop features fuel i).
Proof.
  intros Hn. induction fuel as [|fuel IH]; intros i.
  - constructor.
  - cbn [AudioProcessor.lfr_loop]. case_decide; [|constructor].
    constructor; [|apply IH].
    unfold AudioProcessor.lfr_frame. cbn [AudioProcessor.lfr_m seq map concat].
    rewrite !length_app.
    assert (Hf : forall k, (k < length features)%nat ->
                           length (default [] (features !! k)) = n).
    { intros k Hk. destruct (lookup_lt_is_Some_2 features k Hk) as [f Hfk].
      rewrite Hfk. simpl. rewrite Forall_forall in Hn. apply Hn.
      apply list_elem_of_lookup. eauto. }
    repeat case_decide; rewrite !Hf by lia; simpl; lia.
Qed.

Lemma applyLFR_width (n : nat) (features : list (list F32.t)) :
  Forall (fun frame => length frame = n) features ->
  Forall (fun frame => length frame = (7 * n)%nat)
         (AudioProcessor.applyLFR features).
Proof.
  intros Hn. unfold AudioProcessor.applyLFR.
  destruct features as [|f0 features']; [constructor|].
  apply lfr_loop_width. exact Hn.
Qed.

(** Six input frames give one stacked frame, the seventh slot filled
    with the last input frame. *)
Lemma applyLFR_six_frames (f0 f1 f2 f3 f4 f5 : list F32.t) :
  AudioProcessor.applyLFR [f0; f1; f2; f3; f4; f5]
  = [f0 ++ f1 ++ f2 ++ f3 ++ f4 ++ f5 ++ f5 ++ []].
Proof. reflexivity. Qed.

(** ** CMVN *)

Lemma cmvn_frame_spec (frame : list F32.t) :
  forall mean var : list F32.t,
    (length mean <= length var)%nat ->
    exists out, AudioProcessor.cmvn_frame frame mean var = Ok out
      /\ length out = length frame
      /\ forall d x, frame !! d = Some x ->
           out !! d = Some (cmvn_value mean var d x).
Proof.
  induction frame as [|x frame IH]; intros mean var Hlen.
  - exists []. simpl. repeat split; auto. intros d x H. discriminate.
  - destruct mean as [|m mean].
    + exists (x :: frame). split; [reflexivity|]. split; [reflexivity|].
      intros d y H. rewrite H. unfold cmvn_value. reflexivity.
    + destruct var as [|v var]; [simpl in Hlen; lia|].
      destruct (IH mean var) as (out & Hout & Hl & Hd).
      { simpl in Hlen. lia. }
      exists (F32.div (F32.sub x m) (F32.sqrt v) :: out).
      cbn [AudioProcessor.cmvn_frame]. rewrite Hout.
      split; [reflexivity|]. split; [simpl; lia|].
      intros [|d] y H; simpl in H.
      * injection H as ->. reflexivity.
      * apply Hd in H. exact H.
Qed.

Lemma cmvn_frames_spec (features : list (list F32.t)) :
  forall mean var : list F32.t,
    (length mean <= length var)%nat ->
    exists out, AudioProcessor.cmvn_frames features mean var = Ok out
      /\ length out = length features
      /\ forall t frame, features !! t = Some frame ->
           exists frame', out !! t = Some frame'
             /\ length frame' = length frame
             /\ forall d x, frame !! d = Some x ->
                  frame' !! d = Some (cmvn_value mean var d x).
Proof.
  induction features as [|frame features IH]; intros mean var Hlen.
  - exists []. simpl. repeat split; auto. intros t frame H. discriminate.
  - destruct (cmvn_frame_spec frame mean var Hlen) as (f' & Hf & Hfl & Hfd).
    destruct (IH mean var Hlen) as (out & Hout & Hl & Ht).
    exists (f' :: out). cbn [AudioProcessor.cmvn_frames].
    rewrite Hf. cbn [mbind outcome_bind]. rewrite Hout.
    split; [reflexivity|]. split; [simpl; lia|].
    intros [|t] fr H; simpl in H.
    + injection H as <-. exists f'. auto.
    + apply Ht in H. exact H.
Qed.

(** [loadCMVN] stores as many means as variances: [n_mels] of each. *)
Lemma loadCMVN_lengths (p p' : AudioProcessor.t) :
  AudioProcessor.loadCMVN p = Ok p' ->
  AudioProcessor.cmvn_loaded_ p' = true
  /\ length (AudioProcessor.cmvn_mean_ p') = length (AudioProcessor.cmvn_var_ p')
  /\ Z.of_nat (length (AudioProcessor.cmvn_mean_ p'))
     = to_size_t (AudioProcessor.n_mels (AudioProcessor.config_ p)).
Proof.
  unfold AudioProcessor.loadCMVN, check_size.
  destruct (Z.ltb_spec (vector_max_size 4)
              (to_size_t (AudioProcessor.n_mels (AudioProcessor.config_ p))));
    [discriminate|].
  cbn [mbind outcome_bind]. intros [= <-]. simpl.
  rewrite !length_replicate. repeat split.
  apply Z2Nat.id. unfold to_size_t. apply Z.mod_pos_bound. lia.
Qed.

(** C4 (as the code has it).  Without loaded statistics the matrix passes
    through unchanged.  With statistics, every frame keeps its length and
    dimension [d] becomes [(x[d] - mean[d]) / sqrt(var[d])] for each [d]
    below the number of stored means; dimensions from that number on are
    left as they are. *)
Theorem applyCMVN_spec (p : AudioProcessor.t) (features : list (list F32.t)) :
  length (AudioProcessor.cmvn_mean_ p) = length (AudioProcessor.cmvn_var_ p) ->
  (AudioProcessor.cmvn_loaded_ p = false ->
   AudioProcessor.applyCMVN p features = Ok features)
  /\ (AudioProcessor.cmvn_loaded_ p = true ->
      exists out, AudioProcessor.applyCMVN p features = Ok out
        /\ length out = length features
        /\ forall t frame, features !! t = Some frame ->
             exists frame', out !! t = Some frame'
               /\ length frame' = length frame
               /\ forall d x, frame !! d = Some x ->
                    (forall m v,
                        AudioProcessor.cmvn_mean_ p !! d = Some m ->
                        AudioProcessor.cmvn_var_ p !! d = Some v ->
                        frame' !! d
                        = Some (F32.div (F32.sub x m) (F32.sqrt v)))
                    /\ ((length (AudioProcessor.cmvn_mean_ p) <= d)%nat ->
                        frame' !! d = Some x)).
Proof.
  intros Hlen. unfold AudioProcessor.applyCMVN. split.
  - intros ->. reflexivity.
  - intros ->. cbn [negb orb].
    destruct (cmvn_frames_spec features (AudioProcessor.cmvn_mean_ p)
                (AudioProcessor.cmvn_var_ p) ltac:(lia))
      as (out & Hout & Hl & Ht).
    case_bool_decide as Hempty.
    + subst features. exists []. repeat split; auto.
      intros t frame H. discriminate.
    + exists out. split; [exact Hout|]. split; [exact Hl|].
      intros t frame Hf. destruct (Ht t frame Hf) as (frame' & H1 & H2 & H3).
      exists frame'. split; [exact H1|]. split; [exact H2|].
      intros d x Hx. rewrite (H3 d x Hx). unfold cmvn_value. split.
      * intros m v -> ->. reflexivity.
      * intros Hd. rewrite (lookup_ge_None_2 _ d Hd). reflexivity.
Qed.

Lemma loadCMVN_default :
  AudioProcessor.loadCMVN default_processor = Ok loaded_processor.
Proof. reflexivity. Qed.

Lemma applyCMVN_spec_witness :
  exists out frame',
    AudioProcessor.applyCMVN loaded_processor [[F32.of_Z 2; F32.of_Z 3]] = Ok out
    /\ out !! 0%nat = Some frame'
    /\ frame' !! 1%nat
       = Some (F32.div (F32.sub (F32.of_Z 3) F32.zero) (F32.sqrt F32.one)).
Proof.
  destruct (applyCMVN_spec loaded_processor [[F32.of_Z 2; F32.of_Z 3]])
    as [_ H]; [reflexivity|].
  destruct (H eq_refl) as (out & Hout & _ & Ht).
  destruct (Ht 0%nat [F32.of_Z 2; F32.of_Z 3] eq_refl) as (frame' & H1 & _ & Hd).
  exists out, frame'. split; [exact Hout|]. split; [exact H1|].
  destruct (Hd 1%nat (F32.of_Z 3) eq_refl) as [Hn _].
  apply Hn; reflexivity.
Defined.

(** C4, the claim as stated, fails on the frames that [extractFeatures]
    hands to [applyCMVN]: they are [7 * n_mels = 560] wide after
    [applyLFR], while [loadCMVN] stores [n_mels = 80] means and variances.
    Dimension 80 of such a frame has no statistic and keeps its value. *)
Lemma applyCMVN_beyond_statistics_counterexample :
  let frame := replicate 560 (F32.of_Z 2) in
  AudioProcessor.applyCMVN loaded_processor [frame] = Ok [frame]
  /\ frame !! 80%nat = Some (F32.of_Z 2)
  /\ ~ (exists m v,
          AudioProcessor.cmvn_mean_ loaded_processor !! 80%nat = Some m
          /\ AudioProcessor.cmvn_var_ loaded_processor !! 80%nat = Some v
          /\ frame !! 80%nat = Some (F32.div (F32.sub (F32.of_Z 2) m) (F32.sqrt v))).
Proof.
  cbv zeta. split; [vm_compute; reflexivity|]. split; [reflexivity|].
  intros (m & v & Hm & _). vm_compute in Hm. discriminate.
Qed.

(** ** Single-precision facts

    The quotient of a finite number by itself is one, and the conversion
    of a positive integer gives a positive finite number. *)

Lemma div_eucl_self_shift (m : positive) :
  Z.div_eucl (Z.shiftl (Z.pos m) 24) (Z.pos m) = (2 ^ 24, 0).
Proof.
  rewrite Z.shiftl_mul_pow2 by lia.
  assert (H : forall a b, Z.div_eucl a b = (a / b, a mod b)).
  { intros a b. unfold Z.div, Z.modulo. destruct (Z.div_eucl a b). reflexivity. }
  rewrite H, Z.mul_comm, Z.div_mul, Z.mod_mul by lia. reflexivity.
Qed.

Lemma F32_div_self (s : bool) (m : positive) (e : Z) :
  F32.div (S754_finite s m e) (S754_finite s m e) = F32.one.
Proof.
  unfold F32.div, SFdiv, SFdiv_core_binary.
  rewrite xorb_nilpotent.
  replace (Z.min (fexp F32.prec F32.emax
                    (Zdigits2 (Z.pos m) + e - (Zdigits2 (Z.pos m) + e)))
                 (e - e)) with (-24).
  2:{ rewrite !Z.sub_diag. reflexivity. }
  replace (e - e - -24) with 24 by lia.
  rewrite div_eucl_self_shift.
  unfold new_location, new_location_even, new_location_odd.
  destruct (Z.even (Z.pos m)); reflexivity.
Qed.

Lemma digits2_pos_iter_xO (p : positive) (k : positive) :
  Z.pos (digits2_pos (Pos.iter xO p k)) = Z.pos (digits2_pos p) + Z.pos k.
Proof.
  revert p. induction k using Pos.peano_ind; intros p.
  - simpl. lia.
  - rewrite Pos.iter_succ. simpl. rewrite Pos2Z.inj_succ, IHk. lia.
Qed.

Lemma F32_of_Z_small (p : positive) :
  Z.pos (digits2_pos p) <= 24 ->
  exists m e, F32.of_Z (Z.pos p) = S754_finite false m e.
Proof.
  intros Hd. unfold F32.of_Z, binary_normalize, binary_round.
  replace (fexp F32.prec F32.emax (Z.pos (digits2_pos p) + 0))
    with (Z.pos (digits2_pos p) - 24).
  2:{ unfold fexp, emin, F32.prec, F32.emax. lia. }
  unfold shl_align.
  destruct (Z.pos (digits2_pos p) - 24 - 0) as [|d|d] eqn:E; try lia.
  - (* exactly 24 digits *)
    unfold binary_round_aux, shr_fexp. cbn [Zdigits2 shr_record_of_loc].
    replace (fexp F32.prec F32.emax (Z.pos (digits2_pos p) + 0) - 0) with 0.
    2:{ unfold fexp, emin, F32.prec, F32.emax. lia. }
    cbn [shr shr_m loc_of_shr_record round_nearest_even Zdigits2 shr_record_of_loc].
    replace (fexp F32.prec F32.emax (Z.pos (digits2_pos p) + 0) - 0) with 0.
    2:{ unfold fexp, emin, F32.prec, F32.emax. lia. }
    cbn. eauto.
  - unfold binary_round_aux, shr_fexp. cbn [Zdigits2 shr_record_of_loc].
    rewrite digits2_pos_iter_xO.
    set (ez := Z.pos (digits2_pos p) - 24).
    replace (fexp F32.prec F32.emax (Z.pos (digits2_pos p) + Z.pos d + ez) - ez) with 0.
    2:{ unfold fexp, emin, F32.prec, F32.emax, ez. lia. }
    cbn [shr shr_m loc_of_shr_record round_nearest_even Zdigits2 shr_record_of_loc].
    rewrite digits2_pos_iter_xO.
    replace (fexp F32.prec F32.emax (Z.pos (digits2_pos p) + Z.pos d + ez) - ez) with 0.
    2:{ unfold fexp, emin, F32.prec, F32.emax, ez. lia. }
    cbn [shr shr_m].
    destruct (Z.leb_spec ez (F32.emax - F32.prec)); eauto.
    unfold F32.emax, F32.prec, ez in *. lia.
Qed.

Lemma digits2_pos_bounds (p : positive) :
  2 ^ (Z.pos (digits2_pos p) - 1) <= Z.pos p < 2 ^ Z.pos (digits2_pos p).
Proof.
  induction p as [p IH|p IH|]; cbn [digits2_pos].
  - rewrite Pos2Z.inj_succ. replace (Z.succ (Z.pos (digits2_pos p)) - 1)
      with (Z.succ (Z.pos (digits2_pos p) - 1)) by lia.
    rewrite !Z.pow_succ_r by lia. lia.
  - rewrite Pos2Z.inj_succ. replace (Z.succ (Z.pos (digits2_pos p)) - 1)
      with (Z.succ (Z.pos (digits2_pos p) - 1)) by lia.
    rewrite !Z.pow_succ_r by lia. lia.
  - simpl. lia.
Qed.

Lemma Zdigits2_unique (x d : Z) :
  0 < d -> 2 ^ (d - 1) <= x < 2 ^ d -> Zdigits2 x = d.
Proof.
  intros Hd Hx. assert (0 < x) by (pose proof (Z.pow_pos_nonneg 2 (d - 1)); lia).
  destruct x as [|p|p]; try lia. cbn [Zdigits2].
  pose proof (digits2_pos_bounds p) as Hp.
  set (d' := Z.pos (digits2_pos p)) in *.
  destruct (Z.lt_trichotomy d' d) as [Hlt|[Heq|Hgt]]; [|exact Heq|].
  - assert (2 ^ d' <= 2 ^ (d - 1)) by (apply Z.pow_le_mono_r; lia). lia.
  - assert (2 ^ d <= 2 ^ (d' - 1)) by (apply Z.pow_le_mono_r; lia). lia.
Qed.

Lemma shr_1_m (r : shr_record) :
  0 <= shr_m r -> shr_m (shr_1 r) = shr_m r / 2.
Proof.
  destruct r as [m r s]. cbn [shr_m]. intros Hm.
  destruct m as [|[p|p|]|p]; cbn [shr_1 shr_m]; try lia; try reflexivity.
  - rewrite Pos2Z.inj_xI. apply (Z.div_unique _ _ _ 1); lia.
  - rewrite Pos2Z.inj_xO. apply (Z.div_unique _ _ _ 0); lia.
Qed.

Lemma pow2_xO (k : positive) : 2 ^ Z.pos k~0 = 2 ^ Z.pos k * 2 ^ Z.pos k.
Proof. rewrite Pos2Z.inj_xO, <- Z.pow_add_r by lia. f_equal. lia. Qed.

Lemma pow2_xI (k : positive) : 2 ^ Z.pos k~1 = 2 * (2 ^ Z.pos k * 2 ^ Z.pos k).
Proof.
  rewrite Pos2Z.inj_xI, <- Z.pow_add_r, <- Z.pow_succ_r by lia. f_equal. lia.
Qed.

Lemma iter_shr_1_m (k : positive) :
  forall r, 0 <= shr_m r ->
    shr_m (SpecFloat.iter_pos shr_1 k r) = shr_m r / 2 ^ Z.pos k.
Proof.
  induction k as [k IH|k IH|]; intros r Hr; cbn [SpecFloat.iter_pos].
  - assert (Hk : 0 < 2 ^ Z.pos k) by (apply Z.pow_pos_nonneg; lia).
    assert (H1 : 0 <= shr_m (shr_1 r)).
    { rewrite shr_1_m by lia. apply Z.div_pos; lia. }
    assert (H2 : 0 <= shr_m (SpecFloat.iter_pos shr_1 k (shr_1 r))).
    { rewrite IH by lia. apply Z.div_pos; lia. }
    rewrite IH, IH, shr_1_m by lia.
    rewrite !Z.div_div by lia.
    rewrite pow2_xI. f_equal; lia.
  - assert (Hk : 0 < 2 ^ Z.pos k) by (apply Z.pow_pos_nonneg; lia).
    assert (H2 : 0 <= shr_m (SpecFloat.iter_pos shr_1 k r)).
    { rewrite IH by lia. apply Z.div_pos; lia. }
    rewrite IH, IH by lia.
    rewrite !Z.div_div by lia.
    rewrite pow2_xO. reflexivity.
  - rewrite shr_1_m by lia. reflexivity.
Qed.

Lemma F32_of_Z_large (p : positive) :
  24 < Z.pos (digits2_pos p) <= 127 ->
  exists m e, F32.of_Z (Z.pos p) = S754_finite false m e.
Proof.
  intros Hd. unfold F32.of_Z, binary_normalize, binary_round.
  set (d := Z.pos (digits2_pos p)) in *.
  replace (fexp F32.prec F32.emax (d + 0)) with (d - 24).
  2:{ unfold fexp, emin, F32.prec, F32.emax. lia. }
  unfold shl_align.
  destruct (d - 24 - 0) as [|k|k] eqn:E; try lia.
  unfold binary_round_aux.
  destruct (shr_fexp F32.prec F32.emax (Z.pos p) 0 loc_Exact) as [mrs1 e1] eqn:E1.
  unfold shr_fexp in E1. cbn [Zdigits2 shr_record_of_loc] in E1. fold d in E1.
  replace (fexp F32.prec F32.emax (d + 0) - 0) with (Z.pos k) in E1.
  2:{ unfold fexp, emin, F32.prec, F32.emax. lia. }
  cbn [shr] in E1. injection E1 as <- <-.
  set (mrs1 := SpecFloat.iter_pos shr_1 k _).
  assert (Hm1 : shr_m mrs1 = Z.pos p / 2 ^ Z.pos k).
  { unfold mrs1. rewrite iter_shr_1_m; [reflexivity | cbn; lia]. }
  pose proof (digits2_pos_bounds p) as Hp. fold d in Hp.
  assert (Hr1 : 2 ^ 23 <= shr_m mrs1 < 2 ^ 24).
  { rewrite Hm1. replace d with (Z.pos k + 24) in Hp by lia.
    replace (Z.pos k + 24 - 1) with (Z.pos k + 23) in Hp by lia.
    rewrite !Z.pow_add_r in Hp by lia.
    assert (0 < 2 ^ Z.pos k) by (apply Z.pow_pos_nonneg; lia).
    split.
    - apply Z.div_le_lower_bound; lia.
    - apply Z.div_lt_upper_bound; lia. }
  set (m2 := round_nearest_even (shr_m mrs1) (loc_of_shr_record mrs1)).
  assert (Hr2 : 2 ^ 23 <= m2 <= 2 ^ 24).
  { unfold m2, round_nearest_even.
    destruct (loc_of_shr_record mrs1) as [|[]]; try lia;
      destruct (Z.even (shr_m mrs1)); lia. }
  clearbody m2. clear Hm1 Hr1 mrs1.
  destruct (shr_fexp F32.prec F32.emax m2 (0 + Z.pos k) loc_Exact) as [mrs2 e2] eqn:E2.
  unfold shr_fexp in E2.
  destruct (Z.eq_dec m2 (2 ^ 24)) as [->|Hne].
  - rewrite (Zdigits2_unique (2 ^ 24) 25) in E2 by lia.
    replace (fexp F32.prec F32.emax (25 + (0 + Z.pos k)) - (0 + Z.pos k))
      with 1 in E2.
    2:{ unfold fexp, emin, F32.prec, F32.emax. lia. }
    cbn [shr shr_record_of_loc SpecFloat.iter_pos] in E2.
    injection E2 as <- <-.
    change (shr_m (shr_1 {| shr_m := 2 ^ 24; shr_r := false; shr_s := false |}))
      with (Z.pos 8388608).
    cbv iota.
    destruct (Z.leb_spec (0 + Z.pos k + 1) (F32.emax - F32.prec)); eauto.
    unfold F32.emax, F32.prec in *. lia.
  - rewrite (Zdigits2_unique m2 24) in E2 by lia.
    replace (fexp F32.prec F32.emax (24 + (0 + Z.pos k)) - (0 + Z.pos k))
      with 0 in E2.
    2:{ unfold fexp, emin, F32.prec, F32.emax. lia. }
    cbn [shr shr_record_of_loc] in E2. injection E2 as <- <-. cbn [shr_m].
    destruct m2 as [|q|q]; try lia.
    destruct (Z.leb_spec (0 + Z.pos k) (F32.emax - F32.prec)); eauto.
    unfold F32.emax, F32.prec in *. lia.
Qed.

Lemma F32_of_Z_finite (n : Z) :
  0 < n < 2 ^ 64 -> exists m e, F32.of_Z n = S754_finite false m e.
Proof.
  intros Hn. destruct n as [|p|p]; try lia.
  pose proof (digits2_pos_bounds p) as Hp.
  assert (Z.pos (digits2_pos p) <= 64).
  { destruct (Z.le_gt_cases (Z.pos (digits2_pos p)) 64) as [H|H]; [exact H|].
    assert (2 ^ 64 <= 2 ^ (Z.pos (digits2_pos p) - 1))
      by (apply Z.pow_le_mono_r; lia). lia. }
  destruct (Z.le_gt_cases (Z.pos (digits2_pos p)) 24).
  - apply F32_of_Z_small. lia.
  - apply F32_of_Z_large. lia.
Qed.

Lemma F32_div_same (n : Z) :
  0 < n < 2 ^ 64 -> F32.div (F32.of_Z n) (F32.of_Z n) = F32.one.
Proof.
  intros Hn. destruct (F32_of_Z_finite n Hn) as (m & e & ->).
  apply F32_div_self.
Qed.

Lemma F32_div_zero (n : Z) :
  0 < n < 2 ^ 64 -> F32.div (F32.of_Z 0) (F32.of_Z n) = F32.zero.
Proof.
  intros Hn. destruct (F32_of_Z_finite n Hn) as (m & e & ->). reflexivity.
Qed.

(** ** The mel filterbank *)

Ltac bind_ok H x E :=
  match type of H with
  | mbind _ ?m = Ok _ =>
      destruct m as [x| |] eqn:E; cbn [mbind outcome_bind] in H;
      [|discriminate H|discriminate H]
  end.

Lemma ramp_up_spec (n : nat) :
  forall j start center filt filt',
    AudioProcessor.ramp_up n j start center filt = Ok filt' ->
    length filt' = length filt
    /\ forall k : nat,
         filt' !! k
         = if decide (center <> start /\ j <= Z.of_nat k < j + Z.of_nat n)
           then Some (rising start center (Z.of_nat k))
           else filt !! k.
Proof.
  induction n as [|n IH]; intros j start center filt filt' H.
  - injection H as <-. split; [reflexivity|]. intros k.
    case_decide; [lia | reflexivity].
  - cbn [AudioProcessor.ramp_up] in H. bind_ok H f1 E1.
    apply IH in H as [Hl Hk].
    destruct (Z.eqb_spec center start) as [Heq|Hne].
    + injection E1 as <-. split; [exact Hl|]. intros k. rewrite Hk.
      repeat case_decide; try reflexivity; lia.
    + apply vset_inv in E1 as (Hj & Hlt & ->).
      rewrite length_insert in Hl. split; [exact Hl|].
      intros k. rewrite Hk.
      destruct (decide (k = Z.to_nat j)) as [->|Hkj].
      * rewrite list_lookup_insert_eq by lia.
        rewrite Z2Nat.id by lia.
        repeat case_decide; try reflexivity; lia.
      * rewrite list_lookup_insert_ne by lia.
        repeat case_decide; try reflexivity; lia.
Qed.

Lemma ramp_down_spec (n : nat) :
  forall j center end_ filt filt',
    AudioProcessor.ramp_down n j center end_ filt = Ok filt' ->
    length filt' = length filt
    /\ forall k : nat,
         filt' !! k
         = if decide (end_ <> center /\ j <= Z.of_nat k < j + Z.of_nat n)
           then Some (falling center end_ (Z.of_nat k))
           else filt !! k.
Proof.
  induction n as [|n IH]; intros j center end_ filt filt' H.
  - injection H as <-. split; [reflexivity|]. intros k.
    case_decide; [lia | reflexivity].
  - cbn [AudioProcessor.ramp_down] in H. bind_ok H f1 E1.
    apply IH in H as [Hl Hk].
    destruct (Z.eqb_spec end_ center) as [Heq|Hne].
    + injection E1 as <-. split; [exact Hl|]. intros k. rewrite Hk.
      repeat case_decide; try reflexivity; lia.
    + apply vset_inv in E1 as (Hj & Hlt & ->).
      rewrite length_insert in Hl. split; [exact Hl|].
      intros k. rewrite Hk.
      destruct (decide (k = Z.to_nat j)) as [->|Hkj].
      * rewrite list_lookup_insert_eq by lia.
        rewrite Z2Nat.id by lia.
        repeat case_decide; try reflexivity; lia.
      * rewrite list_lookup_insert_ne by lia.
        repeat case_decide; try reflexivity; lia.
Qed.

(** The weights of one filter, bin by bin. *)
Lemma triangle_weights (fft_size start center end_ : Z) (filt : list F32.t) :
  AudioProcessor.triangle fft_size start center end_ = Ok filt ->
  start <= center <= end_ ->
  Z.of_nat (length filt) = to_size_t fft_size
  /\ forall k : nat,
       filt !! k
       = if decide (start <= Z.of_nat k < center)
         then Some (rising start center (Z.of_nat k))
         else if decide (center <= Z.of_nat k < end_)
         then Some (falling center end_ (Z.of_nat k))
         else if decide (k < length filt)%nat then Some F32.zero else None.
Proof.
  intros H Hord. unfold AudioProcessor.triangle in H.
  bind_ok H n En. bind_ok H f1 E1.
  apply ramp_up_spec in E1 as [Hl1 Hk1].
  apply ramp_down_spec in H as [Hl2 Hk2].
  rewrite length_replicate in Hl1.
  unfold check_size in En.
  destruct (vector_max_size 4 <? to_size_t fft_size); [discriminate|].
  injection En as <-.
  assert (Hn : 0 <= to_size_t fft_size).
  { unfold to_size_t. apply Z.mod_pos_bound. lia. }
  split; [lia|].
  intros k. rewrite Hk2, Hk1.
  repeat case_decide; try reflexivity; try lia;
    first [apply lookup_replicate_2; lia | apply lookup_replicate_None; lia].
Qed.

Lemma triangles_spec (fft_size : Z) (bin_points : list Z) (n : nat) :
  forall i fb,
    AudioProcessor.triangles fft_size bin_points n i = Ok fb ->
    forall (k : nat) filt, fb !! k = Some filt ->
      exists start center end_,
        vget bin_points (i + Z.of_nat k) = Ok start
        /\ vget bin_points (i + Z.of_nat k + 1) = Ok center
        /\ vget bin_points (i + Z.of_nat k + 2) = Ok end_
        /\ AudioProcessor.triangle fft_size start center end_ = Ok filt.
Proof.
  induction n as [|n IH]; intros i fb H k filt Hk.
  - injection H as <-. discriminate.
  - cbn [AudioProcessor.triangles] in H.
    bind_ok H start Es. bind_ok H center Ec. bind_ok H end_ Ee.
    bind_ok H f Ef. bind_ok H rest Er. injection H as <-.
    destruct k as [|k]; simpl in Hk.
    + injection Hk as <-. exists start, center, end_.
      rewrite Z.add_0_r. auto.
    + destruct (IH _ _ Er k filt Hk) as (s & c & e & H1 & H2 & H3 & H4).
      exists s, c, e.
      replace (i + Z.of_nat (S k)) with (i + 1 + Z.of_nat k) by lia. auto.
Qed.

Section Bins.
Variable log10f : F32.t -> F32.t.
Variable powf : F32.t -> F32.t -> F32.t.

Lemma bin_points_from_spec (cfg : AudioProcessor.Config) (n : nat) :
  forall i bins,
    AudioProcessor.bin_points_from log10f powf cfg n i = Ok bins ->
    forall (k : nat) b, bins !! k = Some b ->
      AudioProcessor.bin_point log10f powf cfg (i + Z.of_nat k) = Ok b.
Proof.
  induction n as [|n IH]; intros i bins H k b Hk.
  - injection H as <-. discriminate.
  - cbn [AudioProcessor.bin_points_from] in H.
    bind_ok H b0 E0. bind_ok H rest Er. injection H as <-.
    destruct k as [|k]; simpl in Hk.
    + injection Hk as <-. rewrite Z.add_0_r. exact E0.
    + replace (i + Z.of_nat (S k)) with (i + 1 + Z.of_nat k) by lia.
      eapply IH; eauto.
Qed.

(** Every bin is below [INT_MAX]. *)
Lemma bin_point_range (cfg : AudioProcessor.Config) (i b : Z) :
  AudioProcessor.bin_point log10f powf cfg i = Ok b -> b < 2 ^ 31.
Proof.
  unfold AudioProcessor.bin_point. intros H. bind_ok H b0 E0.
  destruct (Z.leb_spec (- 2 ^ 31) b0); [|discriminate].
  destruct (Z.ltb_spec b0 (2 ^ 31)); [|discriminate].
  simpl in H. injection H as <-. lia.
Qed.
End Bins.

Section MelFilterbank.
Variable log10f : F32.t -> F32.t.
Variable powf : F32.t -> F32.t -> F32.t.

(** C5 (as the code has it).  Filter [i] of the filterbank is built
    from the bins [start = bin_i], [center = bin_(i+1)] and
    [end_ = bin_(i+2)].  When these are in order, its weight is zero at
    every bin below [start] and from [end_] on, [(k - start) / (center -
    start)] on [start, center), which starts at zero, and [(end_ - k) /
    (end_ - center)] on [center, end_), which is exactly one at
    [center].  When [center = end_] the second loop has no iteration
    and the weight at [center] stays zero. *)
Theorem mel_filter_triangle (cfg : AudioProcessor.Config)
    (fb : list (list F32.t)) (i : nat) (filt : list F32.t) :
  AudioProcessor.initializeMelFilterbank log10f powf cfg = Ok fb ->
  fb !! i = Some filt ->
  exists start center end_,
    AudioProcessor.bin_point log10f powf cfg (Z.of_nat i) = Ok start
    /\ AudioProcessor.bin_point log10f powf cfg (Z.of_nat i + 1) = Ok center
    /\ AudioProcessor.bin_point log10f powf cfg (Z.of_nat i + 2) = Ok end_
    /\ (start <= center <= end_ ->
        (forall k : nat, (k < length filt)%nat ->
           Z.of_nat k < start \/ end_ <= Z.of_nat k ->
           filt !! k = Some F32.zero)
        /\ (forall k : nat, start <= Z.of_nat k < center ->
              filt !! k = Some (rising start center (Z.of_nat k)))
        /\ (forall k : nat, center <= Z.of_nat k < end_ ->
              filt !! k = Some (falling center end_ (Z.of_nat k)))
        /\ (0 <= start < center -> filt !! Z.to_nat start = Some F32.zero)
        /\ (0 <= center < end_ -> filt !! Z.to_nat center = Some F32.one)
        /\ (center = end_ -> (Z.to_nat center < length filt)%nat ->
            filt !! Z.to_nat center = Some F32.zero)).
Proof.
  intros H Hi. unfold AudioProcessor.initializeMelFilterbank in H.
  bind_ok H u Eu. bind_ok H n En. bind_ok H bins Eb.
  destruct (triangles_spec _ _ _ _ _ H i filt Hi)
    as (start & center & end_ & Hs & Hc & He & Ht).
  apply vget_inv in Hs as [_ Hs]. apply vget_inv in Hc as [_ Hc].
  apply vget_inv in He as [_ He].
  pose proof (bin_points_from_spec log10f powf cfg _ _ _ Eb _ _ Hs) as Bs.
  pose proof (bin_points_from_spec log10f powf cfg _ _ _ Eb _ _ Hc) as Bc.
  pose proof (bin_points_from_spec log10f powf cfg _ _ _ Eb _ _ He) as Be.
  rewrite Z.add_0_l, Z2Nat.id in Bs, Bc, Be by lia.
  exists start, center, end_.
  split; [exact Bs|]. split; [exact Bc|]. split; [exact Be|].
  intros Hord. destruct (triangle_weights _ _ _ _ _ Ht Hord) as [_ Hk].
  pose proof (bin_point_range _ _ _ _ _ Bc) as Hrc.
  pose proof (bin_point_range _ _ _ _ _ Be) as Hre.
  repeat split.
  - intros k Hlt Hout. rewrite Hk. repeat case_decide; try reflexivity; lia.
  - intros k Hin. rewrite Hk. case_decide; [reflexivity | lia].
  - intros k Hin. rewrite Hk. repeat case_decide; try reflexivity; lia.
  - intros Hsc. rewrite Hk. rewrite Z2Nat.id by lia.
    case_decide; [|lia]. f_equal. unfold rising.
    rewrite Z.sub_diag. apply F32_div_zero. lia.
  - intros Hce. rewrite Hk. rewrite Z2Nat.id by lia.
    repeat case_decide; try lia. f_equal. unfold falling.
    apply F32_div_same. lia.
  - intros Heq Hlt. rewrite Hk. repeat case_decide; try reflexivity; lia.
Qed.
End MelFilterbank.

Lemma mel_filter_triangle_witness :
  exists fb filt,
    AudioProcessor.initializeMelFilterbank linear_log10f linear_powf small_config
    = Ok fb
    /\ fb !! 0%nat = Some filt
    /\ filt !! 0%nat = Some F32.zero
    /\ filt !! 3%nat = Some F32.one
    /\ filt !! 7%nat = Some F32.zero.
Proof.
  destruct (AudioProcessor.initializeMelFilterbank linear_log10f linear_powf
              small_config) as [fb| |] eqn:E; [|vm_compute in E; discriminate..].
  destruct (fb !! 0%nat) as [filt|] eqn:E0;
    [|vm_compute in E; injection E as <-; discriminate].
  destruct (mel_filter_triangle linear_log10f linear_powf small_config fb 0 filt
              E E0) as (start & center & end_ & Bs & Bc & Be & H).
  vm_compute in Bs, Bc, Be.
  injection Bs as <-. injection Bc as <-. injection Be as <-.
  destruct H as (Hout & _ & _ & Hs & Hc & _); [lia|].
  exists fb, filt. split; [reflexivity|]. split; [exact E0|].
  split; [apply Hs; lia|]. split; [apply Hc; lia|].
  apply Hout; [|lia].
  vm_compute in E. injection E as <-. injection E0 as <-. simpl. lia.
Defined.

(** C5, the claim as stated, fails when [bin_(i+1) = bin_(i+2)].  The
    default configuration (16 kHz, [n_fft = 512], 80 filters) gives the
    bins 0, 0, 1, 2, 2, 3, ...; filter 2 is built from [1, 2, 2], its
    second loop has no iteration, and its weight at the centre bin 2 is
    zero instead of one (the filter is zero everywhere). *)
Lemma mel_filter_flat_counterexample :
  AudioProcessor.triangle 257 1 2 2 = Ok (replicate 257 F32.zero)
  /\ replicate 257 F32.zero !! 2%nat = Some F32.zero
  /\ F32.zero <> F32.one.
Proof. split; [vm_compute; reflexivity|]. split; [reflexivity|]. discriminate. Qed.

(** ** CTC decoding *)

(** *** The order of [SFcompare] *)

Ltac float_order :=
  unfold F32.is_nan, F32.ltb, F32.gtb, SFltb, SFcompare in *;
  repeat match goal with
         | x : F32.t |- _ => destruct x as [[]|[]| |[] ? ?]
         end;
  cbn in *; try congruence;
  change (Pos.compare_cont Eq) with Pos.compare in *;
  repeat match goal with
         | |- context [Z.compare ?a ?b] =>
             destruct (Z.compare_spec a b); subst; cbn; try congruence; try lia
         | H : context [Z.compare ?a ?b] |- _ =>
             destruct (Z.compare_spec a b); subst; cbn in H; try congruence; try lia
         | |- context [Pos.compare ?a ?b] =>
             destruct (Pos.compare_spec a b); subst; cbn; try congruence; try lia
         | H : context [Pos.compare ?a ?b] |- _ =>
             destruct (Pos.compare_spec a b); subst; cbn in H; try congruence; try lia
         end.

Lemma F32_ltb_irrefl (x : F32.t) : F32.ltb x x = false.
Proof. intros; float_order. Qed.

Lemma F32_ltb_trans (a b c : F32.t) :
  F32.ltb a b = true -> F32.ltb b c = true -> F32.ltb a c = true.
Proof. intros; float_order. Qed.

(** Among numbers, [not (a < b)] and [a < c] give [b < c]. *)
Lemma F32_ltb_total (a b c : F32.t) :
  F32.is_nan b = false ->
  F32.ltb a b = false -> F32.ltb a c = true -> F32.ltb b c = true.
Proof. intros; float_order. Qed.

(** *** The argmax of one row *)

Section Argmax.
Variable logits : list F32.t.
Variable base : nat.
Variable row : list F32.t.
Hypothesis Hrow : forall v, (v < length row)%nat -> logits !! (base + v)%nat = row !! v.
Hypothesis Hnan : Forall (fun y => F32.is_nan y = false) row.

Lemma argmax_loop_spec (n : nat) :
  forall (v : nat) max_token max_prob,
    (v + n = length row)%nat ->
    argmax_inv row v max_token max_prob ->
    exists m x,
      ASRModel.argmax_loop logits (Z.of_nat base) n (Z.of_nat v) max_token max_prob
      = Ok (m, x)
      /\ argmax_inv row (length row) m x.
Proof using Hrow Hnan.
  induction n as [|n IH]; intros v mt mp Hv Hinv.
  - exists mt, mp. split; [reflexivity|].
    replace (length row) with v by lia. exact Hinv.
  - destruct (lookup_lt_is_Some_2 row v ltac:(lia)) as [x Hx].
    cbn [ASRModel.argmax_loop].
    replace (Z.of_nat base + Z.of_nat v) with (Z.of_nat (base + v)) by lia.
    rewrite (vget_ok logits (base + v) x) by (rewrite Hrow by lia; exact Hx).
    cbn [mbind outcome_bind].
    replace (Z.of_nat v + 1) with (Z.of_nat (S v)) by lia.
    destruct Hinv as (Hmt & Hmp & Hle & Hlt).
    destruct (F32.gtb x mp) eqn:Hgt.
    + apply IH; [lia|]. repeat split; try lia.
      * rewrite Nat2Z.id. exact Hx.
      * intros u y Hu Hy. destruct (decide (u = v)) as [->|Hne].
        -- rewrite Hx in Hy. injection Hy as <-. apply F32_ltb_irrefl.
        -- specialize (Hle u y ltac:(lia) Hy). unfold F32.gtb in *.
           destruct (SFltb x y) eqn:Hxy; [|reflexivity].
           pose proof (F32_ltb_trans mp x y Hgt Hxy) as Ht.
           unfold F32.ltb in Ht. congruence.
      * rewrite Nat2Z.id. intros u y Hu Hy.
        specialize (Hle u y ltac:(lia) Hy). unfold F32.gtb in *.
        apply (F32_ltb_total mp y x); auto.
        rewrite Forall_forall in Hnan. apply Hnan.
        apply list_elem_of_lookup. eauto.
    + apply IH; [lia|]. repeat split; try lia; auto.
      intros u y Hu Hy. destruct (decide (u = v)) as [->|Hne].
      * rewrite Hx in Hy. injection Hy as <-. exact Hgt.
      * apply (Hle u y); [lia | exact Hy].
Qed.
End Argmax.

Lemma length_concat_uniform (V : nat) (rows : list (list F32.t)) :
  Forall (fun row => length row = V) rows ->
  length (concat rows) = (length rows * V)%nat.
Proof.
  induction 1 as [|row rows Hr _ IH]; [reflexivity|].
  simpl. rewrite length_app, IH, Hr. reflexivity.
Qed.

Lemma lookup_concat_uniform (V : nat) (rows : list (list F32.t)) :
  Forall (fun row => length row = V) rows ->
  forall t row v, rows !! t = Some row -> (v < V)%nat ->
    concat rows !! (t * V + v)%nat = row !! v.
Proof.
  induction 1 as [|r rows Hr _ IH]; intros t row v Ht Hv; [discriminate|].
  destruct t as [|t]; simpl in Ht |- *.
  - injection Ht as <-. apply lookup_app_l. lia.
  - rewrite lookup_app_r by lia.
    replace (V + t * V + v - length r)%nat with (t * V + v)%nat by lia.
    apply IH; assumption.
Qed.

Lemma max_token_at_spec (logits : list F32.t) (V t : nat) (row : list F32.t) :
  (0 < V)%nat -> length row = V ->
  (forall v, (v < V)%nat -> logits !! (t * V + v)%nat = row !! v) ->
  Forall (fun y => F32.is_nan y = false) row ->
  exists m,
    ASRModel.max_token_at logits (Z.of_nat V) (Z.of_nat t) = Ok m
    /\ ASRModel.lowest_argmax row m.
Proof.
  intros HV Hlen Hrow Hnan. unfold ASRModel.max_token_at.
  destruct (lookup_lt_is_Some_2 row 0 ltac:(lia)) as [x0 Hx0].
  replace (Z.of_nat t * Z.of_nat V) with (Z.of_nat (t * V + 0)) by lia.
  rewrite (vget_ok logits (t * V + 0) x0) by (rewrite Hrow by lia; exact Hx0).
  cbn [mbind outcome_bind].
  destruct (argmax_loop_spec logits (t * V + 0) row) with
    (n := (V - 1)%nat) (v := 1%nat) (max_token := 0) (max_prob := x0)
    as (m & x & Hm & Hinv).
  - intros v Hv. rewrite <- Hrow by lia. f_equal. lia.
  - exact Hnan.
  - lia.
  - split; [lia|]. split; [exact Hx0|]. split.
    + intros u y Hu Hy. assert (u = 0%nat) as -> by lia.
      rewrite Hx0 in Hy. injection Hy as <-. apply F32_ltb_irrefl.
    + intros u y Hu. simpl in Hu. lia.
  - replace (Z.to_nat (Z.of_nat V - 1)) with (V - 1)%nat by lia.
    change 1 with (Z.of_nat 1). rewrite Hm. cbn [mbind outcome_bind fst].
    exists m. split; [reflexivity|].
    destruct Hinv as (H1 & H2 & H3 & H4).
    exists x. repeat split; auto; try lia.
    intros v y Hy. apply (H3 v y); [|exact Hy].
    apply lookup_lt_Some in Hy. exact Hy.
Qed.

Lemma decode_loop_spec (blank_id : Z) (V : nat) (rows : list (list F32.t)) :
  (0 < V)%nat ->
  Forall (fun row => length row = V) rows ->
  Forall (Forall (fun y => F32.is_nan y = false)) rows ->
  forall rest t prev tokens,
    drop t rows = rest ->
    exists raw,
      Forall2 ASRModel.lowest_argmax rest raw
      /\ ASRModel.decode_loop blank_id (concat rows) (Z.of_nat V)
           (length rest) (Z.of_nat t) (prev_token_of prev) tokens
         = Ok (tokens ++ ASRModel.ctc_collapse blank_id prev raw).
Proof.
  intros HV Hlen Hnan rest.
  induction rest as [|row rest IH]; intros t prev tokens Hdrop.
  - exists []. split; [constructor|]. simpl. rewrite app_nil_r. reflexivity.
  - assert (Ht : rows !! t = Some row).
    { rewrite <- (Nat.add_0_r t), <- lookup_drop, Hdrop. reflexivity. }
    assert (Hdrop' : drop (S t) rows = rest).
    { rewrite (drop_S _ _ _ Ht) in Hdrop. injection Hdrop as <-. reflexivity. }
    destruct (max_token_at_spec (concat rows) V t row HV) as (m & Hm & Harg).
    + rewrite Forall_forall in Hlen. apply Hlen.
      apply list_elem_of_lookup. eauto.
    + intros v Hv. apply lookup_concat_uniform; assumption.
    + rewrite Forall_forall in Hnan. apply Hnan.
      apply list_elem_of_lookup. eauto.
    + destruct (IH (S t) (Some m)
                  (if negb (m =? blank_id) && negb (m =? prev_token_of prev)
                   then tokens ++ [m] else tokens) Hdrop')
        as (raw & Hraw & Hloop).
      exists (m :: raw). split; [constructor; assumption|].
      cbn [length ASRModel.decode_loop]. rewrite Hm.
      cbn [mbind outcome_bind].
      replace (Z.of_nat t + 1) with (Z.of_nat (S t)) by lia.
      cbn [prev_token_of] in Hloop. rewrite Hloop. f_equal.
      cbn [ASRModel.ctc_collapse].
      assert (Hm0 : 0 <= m) by (destruct Harg as (x & H0 & _); exact H0).
      assert (Hprev : negb (m =? prev_token_of prev)
                      = match prev with Some p => negb (m =? p) | None => true end).
      { destruct prev as [p|]; [reflexivity|]. simpl.
        destruct (Z.eqb_spec m (-1)); [lia | reflexivity]. }
      rewrite Hprev.
      destruct (negb (m =? blank_id)
                && match prev with Some p => negb (m =? p) | None => true end).
      * rewrite <- app_assoc. reflexivity.
      * reflexivity.
Qed.

(** With [sequence_length = 0] the quotient [logits.size() /
    sequence_length] is a division by zero. *)
Lemma decodeCTC_zero_length (blank_id : Z) (logits : list F32.t) :
  ASRModel.decodeCTC blank_id logits 0 = Undefined.
Proof. reflexivity. Qed.

(** The argmax with ties toward the lowest index is unique. *)
Lemma lowest_argmax_unique (row : list F32.t) (m1 m2 : Z) :
  ASRModel.lowest_argmax row m1 -> ASRModel.lowest_argmax row m2 -> m1 = m2.
Proof.
  intros (x1 & H1 & Hx1 & Hle1 & Hlt1) (x2 & H2 & Hx2 & Hle2 & Hlt2).
  destruct (Z.lt_trichotomy m1 m2) as [Hlt|[Heq|Hgt]]; [|exact Heq|].
  - pose proof (Hlt2 (Z.to_nat m1) x1 ltac:(lia) Hx1) as Ha.
    pose proof (Hle1 _ _ Hx2) as Hb. unfold F32.gtb, F32.ltb in *. congruence.
  - pose proof (Hlt1 (Z.to_nat m2) x2 ltac:(lia) Hx2) as Ha.
    pose proof (Hle2 _ _ Hx1) as Hb. unfold F32.gtb, F32.ltb in *. congruence.
Qed.

Lemma lowest_argmax_stream_unique (rows : list (list F32.t)) (raw1 raw2 : list Z) :
  Forall2 ASRModel.lowest_argmax rows raw1 ->
  Forall2 ASRModel.lowest_argmax rows raw2 -> raw1 = raw2.
Proof.
  intros H1. revert raw2.
  induction H1 as [|row m1 rows raw1 Hm1 _ IH]; intros raw2 H2.
  - inversion H2. reflexivity.
  - inversion H2 as [|? m2 ? raw2' Hm2 Hrest]; subst.
    f_equal; [eapply lowest_argmax_unique; eauto | apply IH; assumption].
Qed.

(** C2.  On a [T x V] matrix of numbers ([T, V >= 1], no NaN, the size
    an [int]), [decodeCTC] returns the blank-removed, duplicate-collapsed
    stream [raw] of the per-step argmaxes, where the argmax takes the
    lowest index among equal maxima (which determines [raw]) and a token
    is compared with the previous raw argmax; the stream
    [0,2,2,0,3,3,3,0] with blank 0 gives [2,3]. *)
Theorem decodeCTC_greedy (blank_id : Z) (rows : list (list F32.t)) (V : nat) :
  rows <> [] ->
  (0 < V)%nat ->
  Forall (fun row => length row = V) rows ->
  Forall (Forall (fun y => F32.is_nan y = false)) rows ->
  Z.of_nat (length rows * V) < 2 ^ 31 ->
  exists raw,
    Forall2 ASRModel.lowest_argmax rows raw
    /\ (forall raw', Forall2 ASRModel.lowest_argmax rows raw' -> raw' = raw)
    /\ ASRModel.decodeCTC blank_id (concat rows) (Z.of_nat (length rows))
       = Ok (ASRModel.ctc_collapse blank_id None raw)
    /\ (blank_id = 0 -> raw = [0; 2; 2; 0; 3; 3; 3; 0] ->
        ASRModel.decodeCTC blank_id (concat rows) (Z.of_nat (length rows))
        = Ok [2; 3]).
Proof.
  intros Hne HV Hlen Hnan Hsize.
  assert (HT : (0 < length rows)%nat).
  { destruct rows; [congruence | simpl; lia]. }
  destruct (decode_loop_spec blank_id V rows HV Hlen Hnan rows 0 None [] eq_refl)
    as (raw & Hraw & Hloop).
  assert (Hdec : ASRModel.decodeCTC blank_id (concat rows) (Z.of_nat (length rows))
                 = Ok (ASRModel.ctc_collapse blank_id None raw)).
  { unfold ASRModel.decodeCTC.
    rewrite to_size_t_small by nia.
    destruct (Z.eqb_spec (Z.of_nat (length rows)) 0); [lia|].
    rewrite (length_concat_uniform V) by assumption.
    rewrite Nat2Z.inj_mul, Z.mul_comm, Z.div_mul by lia.
    rewrite to_int_small by nia.
    rewrite Nat2Z.id. exact Hloop. }
  exists raw. split; [exact Hraw|].
  split; [intros raw' Hraw'; exact (lowest_argmax_stream_unique _ _ _ Hraw' Hraw)|].
  split; [exact Hdec|].
  intros -> ->. exact Hdec.
Qed.

Lemma decodeCTC_greedy_witness :
  exists raw,
    Forall2 ASRModel.lowest_argmax example_rows raw
    /\ ASRModel.decodeCTC 0 (concat example_rows) 8
       = Ok (ASRModel.ctc_collapse 0 None raw).
Proof.
  destruct (decodeCTC_greedy 0 example_rows 4) as (raw & Hraw & _ & Hdec & _).
  - discriminate.
  - lia.
  - repeat constructor.
  - repeat constructor.
  - vm_compute. reflexivity.
  - exists raw. split; [exact Hraw|]. exact Hdec.
Defined.

(** The example of the specification, on one-hot rows. *)
Lemma decodeCTC_example :
  ASRModel.decodeCTC 0 (concat example_rows) 8 = Ok [2; 3].
Proof. vm_compute. reflexivity. Qed.

(** Equal maxima: the first one wins. *)
Lemma max_token_at_tie :
  ASRModel.max_token_at [F32.one; F32.of_Z 2; F32.of_Z 2; F32.zero] 4 0 = Ok 1.
Proof. vm_compute. reflexivity. Qed.

(** The comparison is with the previous raw argmax: in [5, 0, 5] the
    second 5 follows a blank and is emitted again. *)
Lemma ctc_collapse_raw_stream :
  ASRModel.ctc_collapse 0 None [5; 0; 5] = [5; 5]
  /\ ASRModel.ctc_collapse 0 None [5; 5; 0] = [5].
Proof. split; reflexivity. Qed.

(** ** The neural detector *)

Ltac list_len :=
  repeat rewrite ?length_app, ?length_take, ?length_drop, ?length_replicate,
    ?length_insert.


Lemma prepare_input_ready (cfg : VADDetector.Config) (audio : list F32.t) :
  0 < VADDetector.window_size cfg < 2 ^ 31 ->
  VADDetector.prepare_input cfg audio = Ok (fit_window cfg audio)
  /\ Z.of_nat (length (fit_window cfg audio)) = VADDetector.window_size cfg.
Proof.
  intros Hw. unfold VADDetector.prepare_input, fit_window.
  rewrite to_size_t_small by lia.
  rewrite check_size_ok by (rewrite ?max_size_4; lia).
  cbn [mbind outcome_bind].
  destruct (Z.eqb_spec (Z.of_nat (length audio)) (VADDetector.window_size cfg));
    cbn [negb].
  - rewrite decide_True by lia. split; [reflexivity | lia].
  - rewrite decide_False by lia.
    destruct (Z.ltb_spec (VADDetector.window_size cfg) (Z.of_nat (length audio))).
    + rewrite decide_True by lia. split; [reflexivity|].
      rewrite length_take. lia.
    + rewrite decide_False by lia. split; [reflexivity|].
      rewrite length_app, length_replicate. lia.
Qed.

Lemma concat_input_ready (d : VADDetector.t) (input_audio : list F32.t) :
  detector_ready d ->
  Z.of_nat (length input_audio) = VADDetector.window_size (VADDetector.config_ d) ->
  VADDetector.concat_input d input_audio = Ok (VADDetector.context_ d ++ input_audio).
Proof.
  intros (_ & Hw & Hc & Hs & Hl) Hin. unfold VADDetector.concat_input.
  rewrite check_size_ok by (rewrite ?max_size_4; lia).
  cbn [mbind outcome_bind].
  change 0 with (Z.of_nat 0).
  rewrite copy_into_ok by (list_len; simpl; lia).
  cbn [mbind outcome_bind]. rewrite take_0. cbn [app Nat.add].
  rewrite <- Hl.
  rewrite copy_into_ok by (list_len; lia).
  f_equal. rewrite take_app_length.
  rewrite drop_ge; [rewrite app_nil_r; reflexivity|].
  list_len. lia.
Qed.

Lemma update_context_ready (d : VADDetector.t) (x : list F32.t) :
  detector_ready d ->
  (length (VADDetector.context_ d) <= length x)%nat ->
  VADDetector.update_context d x = Ok (rolled d x).
Proof.
  intros (_ & Hw & Hc & Hs & Hl) Hx. unfold VADDetector.update_context, rolled.
  rewrite to_size_t_small by lia.
  destruct (Z.leb_spec (VADDetector.context_size (VADDetector.config_ d))
              (Z.of_nat (length x))); [|lia].
  rewrite <- Hl.
  replace (Z.of_nat (length x) - Z.of_nat (length (VADDetector.context_ d)))
    with (Z.of_nat (length x - length (VADDetector.context_ d))) by lia.
  rewrite vrange_ok by lia. cbn [mbind outcome_bind].
  change 0 with (Z.of_nat 0).
  rewrite copy_into_ok by (list_len; simpl; lia).
  cbn [mbind outcome_bind]. rewrite take_0. cbn [app Nat.add]. do 2 f_equal.
  rewrite (drop_ge (VADDetector.context_ d)) by (list_len; lia).
  rewrite app_nil_r. unfold AudioRecorder.last_n. rewrite Nat2Z.id.
  apply take_ge. rewrite length_drop. lia.
Qed.

Section Detector.
Variable Run : list F32.t -> list F32.t -> Z -> VADDetector.run_result.

(** On a ready detector [detectVAD] reaches the inference with the input
    [model_input d audio] and the context already rolled over it. *)
Lemma detectVAD_ready (d : VADDetector.t) (audio : list F32.t) :
  detector_ready d ->
  VADDetector.detectVAD Run d audio
  = VADDetector.infer Run (rolled d (model_input d audio)) (model_input d audio).
Proof.
  intros Hr. pose proof Hr as (Hs & Hw & Hc & Hsum & Hl).
  unfold VADDetector.detectVAD. rewrite Hs. cbn [negb].
  destruct (prepare_input_ready (VADDetector.config_ d) audio ltac:(lia))
    as [-> Hfit].
  cbn [mbind outcome_bind].
  rewrite concat_input_ready by assumption.
  rewrite update_context_ready by (auto; rewrite length_app; lia).
  reflexivity.
Qed.

Lemma rolled_ready (d : VADDetector.t) (x : list F32.t) :
  detector_ready d ->
  (length (VADDetector.context_ d) <= length x)%nat ->
  detector_ready (rolled d x).
Proof.
  intros (Hs & Hw & Hc & Hsum & Hl) Hx. unfold detector_ready, rolled.
  cbn. repeat split; auto; try lia.
  unfold AudioRecorder.last_n. rewrite length_drop. lia.
Qed.
End Detector.

Section DetectorClaims.
Variable Run : list F32.t -> list F32.t -> Z -> VADDetector.run_result.

(** C8.  When the inference on a frame raises an error, [detectVAD]
    returns the probability [0.0f]: nothing is thrown to the caller.  The
    context has been rolled over the input by then; the hidden state, the
    cell state and the history are those of before the call. *)
Theorem detectVAD_inference_error (d : VADDetector.t) (audio : list F32.t) :
  detector_ready d ->
  Run (model_input d audio) (VADDetector.state_h_ d)
      (VADDetector.sample_rate (VADDetector.config_ d))
  = VADDetector.RunFailed ->
  VADDetector.detectVAD Run d audio
  = Ok (F32.zero, rolled d (model_input d audio)).
Proof.
  intros Hr Hfail. rewrite detectVAD_ready by assumption.
  unfold VADDetector.infer. cbn [rolled VADDetector.with_context
    VADDetector.state_h_ VADDetector.config_].
  rewrite Hfail. reflexivity.
Qed.

(** A successful inference that returns the probability and both state
    tensors. *)
Lemma infer_success (d : VADDetector.t) (x : list F32.t) (prob : F32.t)
    (prob_rest new_h new_c : list F32.t) (rest : list (list F32.t)) :
  Run x (VADDetector.state_h_ d) (VADDetector.sample_rate (VADDetector.config_ d))
  = VADDetector.RunOutputs ((prob :: prob_rest) :: new_h :: new_c :: rest) ->
  (length (VADDetector.state_h_ d) <= length new_h)%nat ->
  (length (VADDetector.state_c_ d) <= length new_c)%nat ->
  VADDetector.infer Run d x
  = Ok (VADDetector.smooth
          (VADDetector.with_state_c
             (VADDetector.with_state_h d
                (take (length (VADDetector.state_h_ d)) new_h))
             (take (length (VADDetector.state_c_ d)) new_c))
          prob).
Proof.
  intros HRun Hh Hc. unfold VADDetector.infer. rewrite HRun.
  change 0 with (Z.of_nat 0).
  rewrite (vget_ok _ 0 (prob :: prob_rest)) by reflexivity.
  cbn [mbind outcome_bind].
  rewrite (vget_ok _ 0 prob) by reflexivity.
  cbn [mbind outcome_bind].
  unfold VADDetector.update_states.
  rewrite decide_True by (simpl; lia).
  change 1 with (Z.of_nat 1). change 2 with (Z.of_nat 2).
  rewrite (vget_ok _ 1 new_h) by reflexivity.
  cbn [mbind outcome_bind]. unfold VADDetector.copy_state.
  change 0 with (Z.of_nat 0).
  rewrite vrange_ok by lia. cbn [mbind outcome_bind].
  rewrite copy_into_ok by (list_len; simpl; lia).
  cbn [mbind outcome_bind]. rewrite take_0. cbn [app Nat.add].
  rewrite (vget_ok _ 2 new_c) by reflexivity.
  cbn [mbind outcome_bind].
  rewrite vrange_ok by lia. cbn [mbind outcome_bind].
  rewrite copy_into_ok by (list_len; simpl; lia).
  cbn [mbind outcome_bind]. rewrite take_0. cbn [app Nat.add].
  rewrite !Nat.sub_0_r, !drop_0.
  rewrite (drop_ge (VADDetector.state_h_ d)) by (list_len; lia).
  rewrite (drop_ge (VADDetector.state_c_ d)) by (list_len; lia).
  rewrite !app_nil_r. reflexivity.
Qed.

(** C9.  [reset] depends on the configuration only: it zeroes the hidden
    and the cell state and the context, and empties the history.  Two
    sessions of the same detector, from whatever states earlier sessions
    left, therefore return the same probabilities on the same frames. *)
Theorem reset_determinism (d1 d2 : VADDetector.t) (frames : list (list F32.t)) :
  VADDetector.config_ d1 = VADDetector.config_ d2 ->
  VADDetector.session_ d1 = VADDetector.session_ d2 ->
  (forall d0, VADDetector.reset d1 = Ok d0 ->
     VADDetector.state_h_ d0 = replicate 256 F32.zero
     /\ VADDetector.state_c_ d0 = replicate 256 F32.zero
     /\ VADDetector.context_ d0
        = replicate
            (Z.to_nat (to_size_t (VADDetector.context_size (VADDetector.config_ d1))))
            F32.zero
     /\ VADDetector.prob_history_ d0 = [])
  /\ (0 <= VADDetector.context_size (VADDetector.config_ d1) < 2 ^ 31 ->
      exists d0, VADDetector.reset d1 = Ok d0)
  /\ VADDetector.reset d1 = VADDetector.reset d2
  /\ VADDetector.session Run d1 frames = VADDetector.session Run d2 frames.
Proof.
  intros Hcfg Hs.
  assert (Hreset : VADDetector.reset d1 = VADDetector.reset d2).
  { unfold VADDetector.reset. rewrite Hcfg, Hs. reflexivity. }
  split.
  { intros d0 H0. unfold VADDetector.reset, check_size in H0.
    rewrite Z.mul_1_l in H0.
    destruct (Z.ltb_spec (vector_max_size 4)
                (to_size_t (VADDetector.context_size (VADDetector.config_ d1))));
      [discriminate|].
    cbn [mbind outcome_bind] in H0. injection H0 as <-. cbn.
    repeat split. }
  split.
  { intros Hc. unfold VADDetector.reset.
    rewrite check_size_ok by (rewrite ?max_size_4; lia).
    cbn [mbind outcome_bind]. eauto. }
  split; [exact Hreset|].
  unfold VADDetector.session. rewrite Hreset. reflexivity.
Qed.
End DetectorClaims.

Lemma resample_native (cfg : AudioRecorder.Config) (audio_chunk : list F32.t) :
  AudioRecorder.sample_rate cfg = 16000 ->
  AudioRecorder.resample cfg audio_chunk = Ok audio_chunk.
Proof. intros H. unfold AudioRecorder.resample. rewrite H. reflexivity. Qed.

Lemma push_history_bound (cfg : VADDetector.Config) (history : list F32.t)
    (prob : F32.t) :
  Z.of_nat (length history) <= to_size_t (VADDetector.history_size cfg) ->
  Z.of_nat (length (VADDetector.push_history cfg history prob))
  <= to_size_t (VADDetector.history_size cfg).
Proof.
  intros H. unfold VADDetector.push_history.
  destruct (Z.ltb_spec (to_size_t (VADDetector.history_size cfg))
              (Z.of_nat (length (history ++ [prob])))) as [Hlt|Hge].
  - rewrite length_drop, length_app. simpl. lia.
  - exact Hge.
Qed.





Section NeuralVAD.
Variable Run : list F32.t -> list F32.t -> Z -> VADDetector.run_result.


End NeuralVAD.

Lemma fresh_detector_ready : detector_ready fresh_detector.
Proof. unfold detector_ready. cbn. repeat split; lia. Qed.

Lemma detectVAD_inference_error_witness :
  VADDetector.detectVAD failing_engine fresh_detector loud_frame
  = Ok (F32.zero, rolled fresh_detector (model_input fresh_detector loud_frame)).
Proof.
  apply detectVAD_inference_error.
  - exact fresh_detector_ready.
  - reflexivity.
Defined.

Lemma reset_determinism_witness :
  VADDetector.session sample_engine used_detector [loud_frame; silent_frame]
  = VADDetector.session sample_engine fresh_detector [loud_frame; silent_frame].
Proof.
  destruct (reset_determinism sample_engine used_detector fresh_detector
              [loud_frame; silent_frame]) as (_ & _ & _ & H).
  - reflexivity.
  - reflexivity.
  - exact H.
Defined.

(** The two sessions of the witness, evaluated: the first frame gives
    one half and the second brings the mean down to one quarter. *)
Lemma session_example :
  VADDetector.session sample_engine used_detector [loud_frame; silent_frame]
  = Ok [F32.lit 1 2; F32.lit 1 4].
Proof. vm_compute. reflexivity. Qed.


(** ** The capture state machine *)

Section Capture.
Variable Run : list F32.t -> list F32.t -> Z -> VADDetector.run_result.

(** The voice activity detector touches [vad_buffer_] and the detector
    only. *)
Lemma vad_probability_frame (r r1 : AudioRecorder.t) (frame : list F32.t)
    (p : F32.t) :
  AudioRecorder.vad_probability Run r frame = Ok (p, r1) ->
  AudioRecorder.config_ r1 = AudioRecorder.config_ r
  /\ AudioRecorder.speech_detected_ r1 = AudioRecorder.speech_detected_ r
  /\ AudioRecorder.should_stop_ r1 = AudioRecorder.should_stop_ r
  /\ AudioRecorder.audio_buffer_ r1 = AudioRecorder.audio_buffer_ r
  /\ AudioRecorder.pre_speech_buffer_ r1 = AudioRecorder.pre_speech_buffer_ r
  /\ AudioRecorder.last_speech_time_ r1 = AudioRecorder.last_speech_time_ r
  /\ AudioRecorder.recording_start_time_ r1 = AudioRecorder.recording_start_time_ r.
Proof.
  unfold AudioRecorder.vad_probability.
  destruct (AudioRecorder.useEnergyVAD (AudioRecorder.config_ r)).
  { intros [= _ <-]. repeat split. }
  destruct (AudioRecorder.useSileroVAD (AudioRecorder.config_ r)
            && bool_decide (AudioRecorder.vad_detector_ r <> None)).
  2:{ intros [= _ <-]. repeat split. }
  unfold AudioRecorder.computeSileroVAD.
  destruct (AudioRecorder.vad_detector_ r) as [d|].
  2:{ intros [= _ <-]. repeat split. }
  destruct (AudioRecorder.resample (AudioRecorder.config_ r) frame)
    as [resampled| |]; cbn [mbind outcome_bind]; try discriminate.
  case_decide.
  - destruct (VADDetector.detectVAD Run d _) as [pd| |];
      cbn [mbind outcome_bind]; try discriminate.
    intros [= _ <-]. repeat split.
  - intros [= _ <-]. repeat split.
Qed.

(** One callback, field by field. *)
Lemma processAudioFrame_step (r r' : AudioRecorder.t) (frame : list F32.t)
    (now : Z) :
  AudioRecorder.processAudioFrame Run r frame now = Ok r' ->
  exists p r1,
    AudioRecorder.vad_probability Run r frame = Ok (p, r1)
    /\ AudioRecorder.config_ r' = AudioRecorder.config_ r
    /\ AudioRecorder.recording_start_time_ r' = AudioRecorder.recording_start_time_ r
    /\ AudioRecorder.pre_speech_buffer_ r'
       = AudioRecorder.push_pre_speech (AudioRecorder.config_ r)
           (AudioRecorder.pre_speech_buffer_ r) frame
    /\ AudioRecorder.speech_detected_ r'
       = AudioRecorder.speech_detected_ r
         || AudioRecorder.is_speech (AudioRecorder.config_ r) p
    /\ AudioRecorder.last_speech_time_ r'
       = (if AudioRecorder.is_speech (AudioRecorder.config_ r) p then now
          else AudioRecorder.last_speech_time_ r)
    /\ AudioRecorder.audio_buffer_ r'
       = (if AudioRecorder.speech_detected_ r'
          then (if AudioRecorder.is_speech (AudioRecorder.config_ r) p
                   && negb (AudioRecorder.speech_detected_ r)
                then AudioRecorder.audio_buffer_ r
                     ++ AudioRecorder.pre_speech_buffer_ r'
                else AudioRecorder.audio_buffer_ r) ++ frame
          else AudioRecorder.audio_buffer_ r)
    /\ AudioRecorder.should_stop_ r'
       = (if AudioRecorder.speech_detected_ r'
          then if F64.gtb (AudioRecorder.seconds
                             (now - AudioRecorder.last_speech_time_ r'))
                          (AudioRecorder.silence_duration (AudioRecorder.config_ r))
               then true
               else if F64.gtb (AudioRecorder.seconds
                                  (now - AudioRecorder.recording_start_time_ r))
                               (AudioRecorder.max_record_time (AudioRecorder.config_ r))
               then true
               else AudioRecorder.should_stop_ r
          else AudioRecorder.should_stop_ r).
Proof.
  unfold AudioRecorder.processAudioFrame. intros H.
  destruct (AudioRecorder.vad_probability Run r frame) as [[p r1]| |] eqn:Ev;
    cbn [mbind outcome_bind fst snd] in H; try discriminate.
  destruct (vad_probability_frame _ _ _ _ Ev)
    as (Hcfg & Hsd & Hss & Hab & Hps & Hls & Hrs).
  exists p, r1. split; [reflexivity|].
  rewrite Hsd, Hss, Hab, Hls, Hrs in H. unfold AudioRecorder.is_speech in *.
  destruct (F64.gtb (F64.of_f32 p)
              (AudioRecorder.trigger_threshold (AudioRecorder.config_ r)));
    destruct (AudioRecorder.speech_detected_ r);
    cbn [orb andb negb] in H |- *; injection H as <-; cbn;
    repeat split.
Qed.

Lemma callbacks_app (r : AudioRecorder.t) (events1 events2 : list (list F32.t * Z)) :
  AudioRecorder.callbacks Run r (events1 ++ events2)
  = r1 ← AudioRecorder.callbacks Run r events1;
    AudioRecorder.callbacks Run r1 events2.
Proof.
  revert r. induction events1 as [|[frame now] events1 IH]; intros r.
  - reflexivity.
  - cbn [app AudioRecorder.callbacks].
    destruct (AudioRecorder.processAudioFrame Run r frame now) as [r1| |];
      cbn [mbind outcome_bind]; [apply IH | reflexivity | reflexivity].
Qed.

(** The configuration and the start time of the session never change;
    [speech_detected_] never goes back, and [audio_buffer_] only grows at
    its end. *)
Lemma callbacks_invariant (events : list (list F32.t * Z)) :
  forall r r', AudioRecorder.callbacks Run r events = Ok r' ->
    AudioRecorder.config_ r' = AudioRecorder.config_ r
    /\ AudioRecorder.recording_start_time_ r'
       = AudioRecorder.recording_start_time_ r
    /\ (AudioRecorder.speech_detected_ r = true ->
        AudioRecorder.speech_detected_ r' = true)
    /\ (exists rest, AudioRecorder.audio_buffer_ r'
                     = AudioRecorder.audio_buffer_ r ++ rest)
    /\ (AudioRecorder.speech_detected_ r' = false ->
        AudioRecorder.audio_buffer_ r' = AudioRecorder.audio_buffer_ r).
Proof.
  induction events as [|[frame now] events IH]; intros r r' H.
  - injection H as <-. repeat split; auto. exists []. rewrite app_nil_r. reflexivity.
  - cbn [AudioRecorder.callbacks] in H.
    destruct (AudioRecorder.processAudioFrame Run r frame now) as [r1| |] eqn:E;
      cbn [mbind outcome_bind] in H; try discriminate.
    destruct (IH _ _ H) as (Hc & Ht & Hs & (rest & Hrest) & Hidle).
    destruct (processAudioFrame_step _ _ _ _ E)
      as (p & r0 & _ & Hc1 & Ht1 & _ & Hs1 & _ & Ha1 & _).
    split; [congruence|]. split; [congruence|]. split.
    { intros Hr. apply Hs. rewrite Hs1, Hr. reflexivity. }
    split.
    { rewrite Hrest, Ha1.
      destruct (AudioRecorder.speech_detected_ r1); [|eauto].
      destruct (AudioRecorder.is_speech (AudioRecorder.config_ r) p
                && negb (AudioRecorder.speech_detected_ r));
        rewrite <- ?app_assoc; eauto. }
    intros Hfalse. rewrite (Hidle Hfalse), Ha1.
    destruct (AudioRecorder.speech_detected_ r1) eqn:E1; [|reflexivity].
    specialize (Hs eq_refl). congruence.
Qed.


(** C10.  In a session that starts with an empty [audio_buffer_], let
    [frame] be the first one on which speech is detected.  It has been
    appended to the pre-speech ring before the detector ran; the ring
    seeds [audio_buffer_], and the frame is appended once more.  From
    then on the accumulated buffer begins with the ring, which ends with
    the frame, followed by the frame again. *)
Theorem trigger_frame_twice (r0 r1 r2 r3 : AudioRecorder.t)
    (events1 events2 : list (list F32.t * Z)) (frame : list F32.t) (now : Z) :
  AudioRecorder.audio_buffer_ r0 = [] ->
  AudioRecorder.callbacks Run r0 events1 = Ok r1 ->
  AudioRecorder.speech_detected_ r1 = false ->
  AudioRecorder.processAudioFrame Run r1 frame now = Ok r2 ->
  AudioRecorder.speech_detected_ r2 = true ->
  AudioRecorder.callbacks Run r2 events2 = Ok r3 ->
  exists ring,
    AudioRecorder.pre_speech_buffer_ r2 = ring ++ frame
    /\ AudioRecorder.audio_buffer_ r2 = (ring ++ frame) ++ frame
    /\ exists rest, AudioRecorder.audio_buffer_ r3
                    = (ring ++ frame) ++ frame ++ rest.
Proof.
  intros Hempty E1 Hidle E2 Htrig E3.
  destruct (callbacks_invariant _ _ _ E1) as (_ & _ & _ & _ & Hbuf).
  specialize (Hbuf Hidle). rewrite Hempty in Hbuf.
  destruct (processAudioFrame_step _ _ _ _ E2)
    as (p & r & _ & _ & _ & Hpre & Hsd & _ & Hab & _).
  rewrite Htrig in Hab. rewrite Htrig, Hidle in Hsd. cbn [orb] in Hsd.
  rewrite <- Hsd, Hidle, Hbuf in Hab. cbn [andb negb app] in Hab.
  unfold AudioRecorder.push_pre_speech in Hpre.
  eexists. split; [exact Hpre|]. rewrite <- Hpre. split; [exact Hab|].
  destruct (callbacks_invariant _ _ _ E3) as (_ & _ & _ & (rest & Hrest) & _).
  exists rest. rewrite Hrest, Hab, <- app_assoc. reflexivity.
Qed.
End Capture.

(** [recordAudio] starts every session from the same state: what an
    earlier session left in the buffers, the flags and the detector does
    not reach the next one. *)
Lemma recordAudio_reset_determinism (r1 r2 : AudioRecorder.t)
    (d1 d2 : VADDetector.t) (now : Z) :
  AudioRecorder.config_ r1 = AudioRecorder.config_ r2 ->
  AudioRecorder.vad_detector_ r1 = Some d1 ->
  AudioRecorder.vad_detector_ r2 = Some d2 ->
  VADDetector.config_ d1 = VADDetector.config_ d2 ->
  VADDetector.session_ d1 = VADDetector.session_ d2 ->
  AudioRecorder.recordAudio_reset r1 now = AudioRecorder.recordAudio_reset r2 now.
Proof.
  intros Hc H1 H2 Hdc Hds. unfold AudioRecorder.recordAudio_reset.
  rewrite H1, H2, Hc. unfold VADDetector.reset. rewrite Hdc, Hds. reflexivity.
Qed.

(** The energy detector on the two sample buffers. *)
Lemma computeEnergyVAD_samples :
  AudioRecorder.computeEnergyVAD loud_frame = F32.one
  /\ AudioRecorder.computeEnergyVAD silent_frame = F32.zero
  /\ AudioRecorder.is_speech AudioRecorder.default_config F32.one = true
  /\ AudioRecorder.is_speech AudioRecorder.default_config F32.zero = false.
Proof. vm_compute. repeat split; reflexivity. Qed.


(** A silent buffer, then a loud one, then a silent one. *)
Lemma trigger_frame_twice_witness :
  exists r1 r2 r3 ring rest,
    AudioRecorder.callbacks failing_engine energy_recorder
      [(silent_frame, 100000000)] = Ok r1
    /\ AudioRecorder.processAudioFrame failing_engine r1 loud_frame 200000000
       = Ok r2
    /\ AudioRecorder.callbacks failing_engine r2 [(silent_frame, 300000000)]
       = Ok r3
    /\ AudioRecorder.audio_buffer_ r3 = (ring ++ loud_frame) ++ loud_frame ++ rest.
Proof.
  destruct (AudioRecorder.callbacks failing_engine energy_recorder
              [(silent_frame, 100000000)]) as [r1| |] eqn:E1;
    [|vm_compute in E1; discriminate..].
  assert (Hidle : AudioRecorder.speech_detected_ r1 = false).
  { vm_compute in E1. injection E1 as <-. reflexivity. }
  destruct (AudioRecorder.processAudioFrame failing_engine r1 loud_frame 200000000)
    as [r2| |] eqn:E2;
    [|vm_compute in E1; injection E1 as <-; vm_compute in E2; discriminate..].
  assert (Htrig : AudioRecorder.speech_detected_ r2 = true).
  { vm_compute in E1. injection E1 as <-.
    vm_compute in E2. injection E2 as <-. reflexivity. }
  destruct (AudioRecorder.callbacks failing_engine r2 [(silent_frame, 300000000)])
    as [r3| |] eqn:E3;
    [|vm_compute in E1; injection E1 as <-; vm_compute in E2; injection E2 as <-;
      vm_compute in E3; discriminate..].
  destruct (trigger_frame_twice failing_engine energy_recorder r1 r2 r3
              [(silent_frame, 100000000)] [(silent_frame, 300000000)]
              loud_frame 200000000 eq_refl E1 Hidle E2 Htrig E3)
    as (ring & _ & _ & rest & Hrest).
  exists r1, r2, r3, ring, rest. auto.
Defined.

(** The same session evaluated: the loud buffer is in the result twice. *)
Lemma trigger_frame_twice_example :
  exists r3,
    AudioRecorder.callbacks failing_engine energy_recorder
      [(silent_frame, 100000000); (loud_frame, 200000000);
       (silent_frame, 300000000)] = Ok r3
    /\ AudioRecorder.audio_buffer_ r3
       = silent_frame ++ loud_frame ++ loud_frame ++ silent_frame.
Proof.
  destruct (AudioRecorder.callbacks failing_engine energy_recorder
              [(silent_frame, 100000000); (loud_frame, 200000000);
               (silent_frame, 300000000)]) as [r3| |] eqn:E;
    [|vm_compute in E; discriminate..].
  exists r3. split; [reflexivity|].
  vm_compute in E. injection E as <-. vm_compute. reflexivity.
Qed.
(** ** Framing of a signal that holds at least one frame *)

Lemma frame_loop_full (cfg : AudioProcessor.Config) (signal : list F32.t) (n : nat) :
  0 <= AudioProcessor.frame_shift cfg ->
  0 <= AudioProcessor.frame_length cfg ->
  Z.of_nat (length signal) < 2 ^ 31 ->
  forall (i : nat) frames,
    (forall k, (i <= k < i + n)%nat ->
       Z.of_nat k * AudioProcessor.frame_shift cfg + AudioProcessor.frame_length cfg
       <= Z.of_nat (length signal)) ->
    AudioProcessor.frame_loop cfg signal n (Z.of_nat i) frames
    = Ok (frames
          ++ map (fun k => take (Z.to_nat (AudioProcessor.frame_length cfg))
                             (drop (k * Z.to_nat (AudioProcessor.frame_shift cfg)) signal))
                 (seq i n)).
Proof.
  intros Hfs Hfl Hlen.
  set (fs := Z.to_nat (AudioProcessor.frame_shift cfg)).
  set (fl := Z.to_nat (AudioProcessor.frame_length cfg)).
  assert (Efs : AudioProcessor.frame_shift cfg = Z.of_nat fs) by (unfold fs; lia).
  assert (Efl : AudioProcessor.frame_length cfg = Z.of_nat fl) by (unfold fl; lia).
  clearbody fs fl.
  induction n as [|n IH]; intros i frames Hk.
  - simpl. rewrite app_nil_r. reflexivity.
  - cbn [AudioProcessor.frame_loop seq map].
    pose proof (Hk i ltac:(lia)) as Hi.
    rewrite to_int_small by lia.
    rewrite Efs, Efl in *.
    destruct (Z.leb_spec (Z.of_nat i * Z.of_nat fs + Z.of_nat fl)
                         (Z.of_nat (length signal))); [|lia].
    replace (Z.of_nat i * Z.of_nat fs) with (Z.of_nat (i * fs)) by lia.
    replace (Z.of_nat (i * fs) + Z.of_nat fl) with (Z.of_nat (i * fs + fl)) by lia.
    rewrite vrange_ok by lia. cbn [mbind outcome_bind].
    replace (Z.of_nat i + 1) with (Z.of_nat (S i)) by lia.
    rewrite IH by (intros k Hk'; apply Hk; lia).
    rewrite <- app_assoc. cbn [app].
    replace (i * fs + fl - i * fs)%nat with fl by lia. reflexivity.
Qed.

Lemma frameSignal_full (cfg : AudioProcessor.Config) (signal : list F32.t) :
  0 < AudioProcessor.frame_shift cfg < 2 ^ 31 ->
  0 <= AudioProcessor.frame_length cfg <= Z.of_nat (length signal) ->
  Z.of_nat (length signal) < 2 ^ 31 - 1 ->
  AudioProcessor.frameSignal cfg signal
  = Ok (map (fun k => take (Z.to_nat (AudioProcessor.frame_length cfg))
                        (drop (k * Z.to_nat (AudioProcessor.frame_shift cfg)) signal))
            (seq 0 (Z.to_nat ((Z.of_nat (length signal)
                               - AudioProcessor.frame_length cfg)
                              / AudioProcessor.frame_shift cfg + 1)))).
Proof.
  intros Hfs Hfl Hlen.
  unfold AudioProcessor.frameSignal, AudioProcessor.num_frames.
  set (L := Z.of_nat (length signal)) in *.
  set (fl := AudioProcessor.frame_length cfg) in *.
  set (fs := AudioProcessor.frame_shift cfg) in *.
  assert (Hq : 0 <= (L - fl) / fs <= L - fl).
  { split; [apply Z.div_pos; lia|].
    apply Z.div_le_upper_bound; [lia|]. nia. }
  rewrite (to_size_t_small fs), (to_size_t_small fl), (to_size_t_small (L - fl))
    by lia.
  destruct (Z.eqb_spec fs 0); [lia|].
  rewrite to_int_small by lia.
  destruct (Z.eqb_spec ((L - fl) / fs) (2 ^ 31 - 1)); [lia|].
  cbn [mbind outcome_bind].
  rewrite check_size_ok by (rewrite ?max_size_24; lia).
  cbn [mbind outcome_bind].
  apply (frame_loop_full cfg signal _ ltac:(fold fs; lia) ltac:(fold fl; lia)
           ltac:(fold L; lia) 0%nat []).
  intros k Hk. fold fs fl L.
  assert (Z.of_nat k <= (L - fl) / fs) by lia.
  assert (fs * ((L - fl) / fs) <= L - fl) by (apply Z.mul_div_le; lia).
  nia.
Qed.

(** X1.  A signal that holds at least one frame is cut into whole frames
    only: [(len - frame_length) / frame_shift + 1] of them, frame [i]
    being the [frame_length] samples from [i * frame_shift] on.  No
    frame is padded, and the samples after the last whole frame are
    dropped. *)
Theorem frameSignal_whole_frames (cfg : AudioProcessor.Config)
    (signal : list F32.t) :
  0 < AudioProcessor.frame_shift cfg < 2 ^ 31 ->
  0 <= AudioProcessor.frame_length cfg <= Z.of_nat (length signal) ->
  Z.of_nat (length signal) < 2 ^ 31 - 1 ->
  exists frames,
    AudioProcessor.frameSignal cfg signal = Ok frames
    /\ Z.of_nat (length frames)
       = (Z.of_nat (length signal) - AudioProcessor.frame_length cfg)
         / AudioProcessor.frame_shift cfg + 1
    /\ forall (i : nat) frame, frames !! i = Some frame ->
         Z.of_nat (length frame) = AudioProcessor.frame_length cfg
         /\ forall (j : nat) x, frame !! j = Some x ->
              signal !! (i * Z.to_nat (AudioProcessor.frame_shift cfg) + j)%nat
              = Some x.
Proof.
  intros Hfs Hfl Hlen. eexists. split; [apply frameSignal_full; assumption|].
  set (L := Z.of_nat (length signal)) in *.
  set (fl := AudioProcessor.frame_length cfg) in *.
  set (fs := AudioProcessor.frame_shift cfg) in *.
  assert (Hq : 0 <= (L - fl) / fs).
  { apply Z.div_pos; lia. }
  split.
  - rewrite length_map, length_seq. lia.
  - intros i frame Hi. rewrite list_lookup_fmap in Hi.
    destruct (seq 0 (Z.to_nat ((L - fl) / fs + 1)) !! i) as [k|] eqn:Ek;
      [|discriminate].
    apply lookup_seq in Ek as [-> Hk]. simpl in Hi. injection Hi as <-.
    assert (Z.of_nat i <= (L - fl) / fs) by lia.
    assert (fs * ((L - fl) / fs) <= L - fl) by (apply Z.mul_div_le; lia).
    assert (Hfit : Z.of_nat i * fs + fl <= L) by nia.
    assert (Hfit' : (i * Z.to_nat fs + Z.to_nat fl <= length signal)%nat).
    { apply Nat2Z.inj_le. rewrite Nat2Z.inj_add, Nat2Z.inj_mul, !Z2Nat.id by lia.
      exact Hfit. }
    split.
    + rewrite length_take, length_drop. lia.
    + intros j x Hj. apply lookup_take_Some in Hj as [Hj _].
      rewrite lookup_drop in Hj. exact Hj.
Qed.

Lemma frameSignal_whole_frames_witness :
  exists frames,
    AudioProcessor.frameSignal AudioProcessor.default_config
      (replicate 1000 F32.one) = Ok frames
    /\ Z.of_nat (length frames) = 4.
Proof.
  destruct (frameSignal_whole_frames AudioProcessor.default_config
              (replicate 1000 F32.one)) as (frames & H & Hl & _).
  - simpl. lia.
  - rewrite length_replicate. simpl. lia.
  - rewrite length_replicate. lia.
  - exists frames. split; [exact H|]. rewrite Hl, length_replicate. reflexivity.
Defined.

(** ** Low frame rate stacking: count and content *)

Lemma lfr_loop_spec (features : list (list F32.t)) (fuel : nat) :
  forall i : nat,
    (length features <= i + 6 * fuel)%nat ->
    length (AudioProcessor.lfr_loop features fuel i)
    = Nat.div (length features - i + 5) 6
    /\ forall k : nat, (i + 6 * k < length features)%nat ->
         AudioProcessor.lfr_loop features fuel i !! k
         = Some (AudioProcessor.lfr_frame features (i + 6 * k)).
Proof.
  induction fuel as [|fuel IH]; intros i Hfuel.
  - cbn [AudioProcessor.lfr_loop]. split.
    + replace (length features - i + 5)%nat with 5%nat by lia. reflexivity.
    + intros k Hk. lia.
  - cbn [AudioProcessor.lfr_loop]. case_decide as Hi.
    + destruct (IH (i + AudioProcessor.lfr_n)%nat) as [Hl Hk].
      { unfold AudioProcessor.lfr_n. lia. }
      unfold AudioProcessor.lfr_n in *. split.
      * cbn [length]. rewrite Hl.
        destruct (le_lt_dec (i + 6) (length features)) as [Hge|Hlt].
        -- replace (length features - i + 5)%nat
             with (length features - (i + 6) + 5 + 1 * 6)%nat by lia.
           rewrite Nat.div_add by lia. lia.
        -- replace (length features - (i + 6) + 5)%nat with 5%nat by lia.
           change (S (5 / 6)) with 1%nat.
           apply (Nat.div_unique _ 6 1 (length features - i - 1)); lia.
      * intros [|k] Hlt.
        -- rewrite Nat.mul_0_r, Nat.add_0_r. reflexivity.
        -- cbn [lookup list_lookup]. rewrite Hk by lia. do 2 f_equal. lia.
    + split.
      * replace (length features - i + 5)%nat with 5%nat by lia. reflexivity.
      * intros k Hk. lia.
Qed.

Lemma applyLFR_length (features : list (list F32.t)) :
  length (AudioProcessor.applyLFR features) = Nat.div (length features + 5) 6.
Proof.
  unfold AudioProcessor.applyLFR.
  destruct features as [|f0 features'] eqn:E; [reflexivity|].
  rewrite <- E. clear E.
  destruct (lfr_loop_spec features (length features) 0 ltac:(lia)) as [Hl _].
  rewrite Hl. f_equal. lia.
Qed.

(** X2.  The stacked matrix has one row for every six input frames,
    rounded up, and row [k] is the concatenation of the seven frames from
    [6k] on, the last input frame repeated past the end. *)
Theorem applyLFR_rows (features : list (list F32.t)) :
  length (AudioProcessor.applyLFR features) = Nat.div (length features + 5) 6
  /\ forall k : nat, (6 * k < length features)%nat ->
       AudioProcessor.applyLFR features !! k
       = Some (concat (map (fun j => default []
                              (features !! Nat.min (6 * k + j)
                                                   (length features - 1)))
                           (seq 0 7))).
Proof.
  unfold AudioProcessor.applyLFR.
  destruct features as [|f0 features'] eqn:E.
  - split; [reflexivity|]. simpl. intros k Hk. lia.
  - rewrite <- E. clear E.
    destruct (lfr_loop_spec features (length features) 0 ltac:(lia)) as [Hl Hk].
    split.
    + rewrite Hl. f_equal. lia.
    + intros k Hlt. rewrite (Hk k) by lia. f_equal.
      unfold AudioProcessor.lfr_frame, AudioProcessor.lfr_m. f_equal.
      apply map_ext_in. intros j Hj. apply in_seq in Hj.
      case_decide; do 2 f_equal; lia.
Qed.

(** ** The shape of the feature matrix *)

Lemma mel_loop_length (p : AudioProcessor.t) (power_spectrum : list F32.t)
    (n : nat) :
  forall i : nat,
    (i + n <= length (AudioProcessor.mel_filterbank_ p))%nat ->
    exists out,
      AudioProcessor.mel_loop p power_spectrum n (Z.of_nat i) = Ok out
      /\ length out = n.
Proof.
  induction n as [|n IH]; intros i Hi.
  - exists []. split; reflexivity.
  - cbn [AudioProcessor.mel_loop].
    destruct (lookup_lt_is_Some_2 (AudioProcessor.mel_filterbank_ p) i
                ltac:(lia)) as [filt Hf].
    rewrite (vget_ok _ _ _ Hf). cbn [mbind outcome_bind].
    replace (Z.of_nat i + 1) with (Z.of_nat (S i)) by lia.
    destruct (IH (S i) ltac:(lia)) as (rest & Hr & Hl).
    rewrite Hr. cbn [mbind outcome_bind].
    eexists. split; [reflexivity|]. simpl. lia.
Qed.

Section FeatureShape.
Variable fft : list F32.t -> list (F32.t * F32.t).
Variable cabsf : F32.t * F32.t -> F32.t.
Variable logf : F32.t -> F32.t.

Lemma fbank_frame_length (p : AudioProcessor.t) (frame : list F32.t) :
  processor_ready p ->
  Z.of_nat (length frame)
  = AudioProcessor.frame_length (AudioProcessor.config_ p) ->
  exists f,
    AudioProcessor.fbank_frame fft cabsf logf p frame = Ok f
    /\ Z.of_nat (length f) = AudioProcessor.n_mels (AudioProcessor.config_ p).
Proof.
  intros (Hfs & Hfl & Hfft & Hmel & Hwin & Hfb & Hcmvn) Hframe.
  unfold AudioProcessor.fbank_frame, AudioProcessor.windowed_frame.
  rewrite check_size_ok by (rewrite ?max_size_4; lia).
  cbn [mbind outcome_bind].
  case_decide as Hc; [|lia].
  cbn [mbind outcome_bind].
  unfold AudioProcessor.applyMelFilterbank.
  rewrite check_size_ok by (rewrite ?max_size_4; lia).
  cbn [mbind outcome_bind].
  destruct (mel_loop_length p
              (AudioProcessor.computePowerSpectrum cabsf
                 (fft (zip_with F32.mul frame (AudioProcessor.window_ p)
                       ++ replicate
                            (Z.to_nat (AudioProcessor.n_fft (AudioProcessor.config_ p))
                             - Nat.min (length frame)
                                       (length (AudioProcessor.window_ p)))
                            F32.zero)))
              (Z.to_nat (AudioProcessor.n_mels (AudioProcessor.config_ p)))
              0%nat ltac:(lia)) as (out & Ho & Hl).
  change (Z.of_nat 0) with 0 in Ho. rewrite Ho. cbn [mbind outcome_bind].
  eexists. split; [reflexivity|]. rewrite length_map. lia.
Qed.

Lemma fbank_frames_shape (p : AudioProcessor.t) (frames : list (list F32.t)) :
  processor_ready p ->
  Forall (fun frame => Z.of_nat (length frame)
                       = AudioProcessor.frame_length (AudioProcessor.config_ p))
         frames ->
  exists fbank,
    AudioProcessor.fbank_frames fft cabsf logf p frames = Ok fbank
    /\ length fbank = length frames
    /\ Forall (fun f => length f
                        = Z.to_nat (AudioProcessor.n_mels (AudioProcessor.config_ p)))
              fbank.
Proof.
  intros Hp Hall. induction Hall as [|frame frames Hf Hall IH].
  - exists []. repeat split; constructor.
  - destruct (fbank_frame_length p frame Hp Hf) as (f & Ef & Hl).
    destruct IH as (rest & Er & Hn & Hw).
    exists (f :: rest). cbn [AudioProcessor.fbank_frames].
    rewrite Ef. cbn [mbind outcome_bind]. rewrite Er.
    split; [reflexivity|]. split; [simpl; lia|].
    constructor; [lia | exact Hw].
Qed.

(** X3.  On a ready processor, a waveform that holds at least one frame
    is turned into a feature matrix with one row for every six frames,
    rounded up, each row seven mel vectors wide ([7 * n_mels] values). *)
Theorem extractFeatures_shape (p : AudioProcessor.t) (audio : list F32.t) :
  processor_ready p ->
  AudioProcessor.frame_length (AudioProcessor.config_ p)
  <= Z.of_nat (length audio) < 2 ^ 31 - 1 ->
  exists features,
    AudioProcessor.extractFeatures fft cabsf logf p audio = Ok features
    /\ Z.of_nat (length features)
       = ((Z.of_nat (length audio)
           - AudioProcessor.frame_length (AudioProcessor.config_ p))
          / AudioProcessor.frame_shift (AudioProcessor.config_ p) + 1 + 5) / 6
    /\ Forall (fun row => Z.of_nat (length row)
                          = 7 * AudioProcessor.n_mels (AudioProcessor.config_ p))
              features.
Proof.
  intros Hp Hlen.
  pose proof Hp as (Hfs & Hfl & Hfft & Hmel & Hwin & Hfb & Hcmvn).
  set (cfg := AudioProcessor.config_ p) in *.
  unfold AudioProcessor.extractFeatures. fold cfg.
  assert (Hpre : exists y, AudioProcessor.preprocess cfg audio = Ok y
                           /\ length y = length audio).
  { destruct (F32.gtb (AudioProcessor.preemphasis cfg) F32.zero) eqn:Hg.
    - destruct (preprocess_positive cfg audio) as (y & Hy & Hl & _);
        [rewrite max_size_4; lia | exact Hg | | eauto].
      intros ->. simpl in Hlen. lia.
    - exists audio. unfold AudioProcessor.preprocess. rewrite Hg. auto. }
  destruct Hpre as (y & Hy & Hly). rewrite Hy. cbn [mbind outcome_bind].
  unfold AudioProcessor.computeFbank. fold cfg.
  rewrite frameSignal_full by (rewrite ?Hly; lia).
  cbn [mbind outcome_bind].
  set (frames := map _ _).
  assert (Hq : 0 <= (Z.of_nat (length y) - AudioProcessor.frame_length cfg)
                    / AudioProcessor.frame_shift cfg).
  { apply Z.div_pos; lia. }
  assert (Hnf : Z.of_nat (length frames)
                = (Z.of_nat (length y) - AudioProcessor.frame_length cfg)
                  / AudioProcessor.frame_shift cfg + 1).
  { unfold frames. rewrite length_map, length_seq. lia. }
  destruct (fbank_frames_shape p frames Hp) as (fbank & Hfbank & Hn & Hw).
  { apply Forall_forall. intros frame Hin. unfold frames in Hin.
    apply list_elem_of_fmap in Hin as (k & -> & Hk).
    apply elem_of_seq in Hk. fold cfg.
    set (L := Z.of_nat (length y)) in *.
    set (fl := AudioProcessor.frame_length cfg) in *.
    set (fs := AudioProcessor.frame_shift cfg) in *.
    assert (Z.of_nat k <= (L - fl) / fs) by lia.
    assert (fs * ((L - fl) / fs) <= L - fl) by (apply Z.mul_div_le; lia).
    assert (Hfit : Z.of_nat k * fs + fl <= L) by nia.
    assert (Hfit' : (k * Z.to_nat fs + Z.to_nat fl <= length y)%nat).
    { apply Nat2Z.inj_le. rewrite Nat2Z.inj_add, Nat2Z.inj_mul, !Z2Nat.id by lia.
      exact Hfit. }
    rewrite length_take, length_drop. lia. }
  rewrite Hfbank. cbn [mbind outcome_bind].
  pose proof (applyLFR_length fbank) as Hrows.
  pose proof (applyLFR_width _ _ Hw) as Hwide.
  assert (Hcount : Z.of_nat (length (AudioProcessor.applyLFR fbank))
                   = ((Z.of_nat (length audio) - AudioProcessor.frame_length cfg)
                      / AudioProcessor.frame_shift cfg + 1 + 5) / 6).
  { rewrite Hrows, Hn, Nat2Z.inj_div, Nat2Z.inj_add, Hnf, Hly. reflexivity. }
  assert (Hwide' : Forall (fun row => Z.of_nat (length row)
                                      = 7 * AudioProcessor.n_mels cfg)
                          (AudioProcessor.applyLFR fbank)).
  { eapply Forall_impl; [exact Hwide|]. intros row Hr. simpl in Hr. fold cfg in Hr. lia. }
  destruct (AudioProcessor.cmvn_loaded_ p) eqn:Hloaded.
  - unfold AudioProcessor.applyCMVN. rewrite Hloaded. cbn [negb orb].
    case_bool_decide as He.
    + eexists. split; [reflexivity|]. split; assumption.
    + destruct (cmvn_frames_spec (AudioProcessor.applyLFR fbank)
                  _ _ Hcmvn) as (out & Ho & Hlo & Hrow).
      exists out. split; [exact Ho|]. split; [lia|].
      apply Forall_forall. intros row Hin.
      apply list_elem_of_lookup in Hin as [t Ht].
      destruct (lookup_lt_is_Some_2 (AudioProcessor.applyLFR fbank) t)
        as [row0 Hrow0].
      { apply lookup_lt_Some in Ht. lia. }
      destruct (Hrow t row0 Hrow0) as (row' & Hr' & Hlr & _).
      rewrite Ht in Hr'. injection Hr' as <-.
      rewrite Forall_forall in Hwide'.
      rewrite Hlr. apply Hwide'. apply list_elem_of_lookup. eauto.
  - eexists. split; [reflexivity|]. split; assumption.
Qed.
End FeatureShape.

Lemma extractFeatures_shape_witness :
  exists features,
    AudioProcessor.extractFeatures (fun _ => []) fst (fun x => x)
      small_processor (replicate 10 F32.one) = Ok features
    /\ Z.of_nat (length features) = 1.
Proof.
  destruct (extractFeatures_shape (fun _ => []) fst (fun x => x)
              small_processor (replicate 10 F32.one))
    as (features & H & Hl & _).
  - unfold processor_ready. cbn. lia.
  - rewrite length_replicate. cbn. lia.
  - exists features. split; [exact H|].
    rewrite Hl, length_replicate. reflexivity.
Defined.

(** ** Initialisation *)

Lemma vset_in_range {A} (v : list A) (i : Z) (x : A) :
  0 <= i < Z.of_nat (length v) -> vset v i x = Ok (<[Z.to_nat i := x]> v).
Proof.
  intros H. rewrite <- (Z2Nat.id i) at 1 by lia. apply vset_ok. lia.
Qed.

Lemma ramp_up_ok (n : nat) :
  forall j start center filt,
    0 <= j -> j + Z.of_nat n <= Z.of_nat (length filt) ->
    exists filt', AudioProcessor.ramp_up n j start center filt = Ok filt'
                  /\ length filt' = length filt.
Proof.
  induction n as [|n IH]; intros j start center filt Hj Hn.
  - exists filt. split; reflexivity.
  - cbn [AudioProcessor.ramp_up].
    destruct (Z.eqb_spec center start).
    + cbn [mbind outcome_bind]. apply IH; lia.
    + rewrite vset_in_range by lia. cbn [mbind outcome_bind].
      destruct (IH (j + 1) start center
                  (<[Z.to_nat j := F32.div (F32.of_Z (j - start))
                                           (F32.of_Z (center - start))]> filt))
        as (filt' & H & Hl).
      * lia.
      * rewrite length_insert. lia.
      * exists filt'. split; [exact H|]. rewrite Hl, length_insert. reflexivity.
Qed.

Lemma ramp_down_ok (n : nat) :
  forall j center end_ filt,
    0 <= j -> j + Z.of_nat n <= Z.of_nat (length filt) ->
    exists filt', AudioProcessor.ramp_down n j center end_ filt = Ok filt'
                  /\ length filt' = length filt.
Proof.
  induction n as [|n IH]; intros j center end_ filt Hj Hn.
  - exists filt. split; reflexivity.
  - cbn [AudioProcessor.ramp_down].
    destruct (Z.eqb_spec end_ center).
    + cbn [mbind outcome_bind]. apply IH; lia.
    + rewrite vset_in_range by lia. cbn [mbind outcome_bind].
      destruct (IH (j + 1) center end_
                  (<[Z.to_nat j := F32.div (F32.of_Z (end_ - j))
                                           (F32.of_Z (end_ - center))]> filt))
        as (filt' & H & Hl).
      * lia.
      * rewrite length_insert. lia.
      * exists filt'. split; [exact H|]. rewrite Hl, length_insert. reflexivity.
Qed.

Lemma triangle_ok (fft_size start center end_ : Z) :
  0 < fft_size < 2 ^ 31 ->
  0 <= start < fft_size -> 0 <= center < fft_size -> 0 <= end_ < fft_size ->
  exists filt, AudioProcessor.triangle fft_size start center end_ = Ok filt
               /\ Z.of_nat (length filt) = fft_size.
Proof.
  intros Hn Hs Hc He. unfold AudioProcessor.triangle.
  rewrite check_size_ok by (rewrite ?max_size_4; lia).
  cbn [mbind outcome_bind].
  destruct (ramp_up_ok (Z.to_nat (center - start)) start start center
              (replicate (Z.to_nat fft_size) F32.zero))
    as (f1 & H1 & Hl1); [lia | rewrite length_replicate; lia |].
  rewrite H1. cbn [mbind outcome_bind].
  rewrite length_replicate in Hl1.
  destruct (ramp_down_ok (Z.to_nat (end_ - center)) center center end_ f1)
    as (f2 & H2 & Hl2); [lia | lia |].
  exists f2. split; [exact H2 | lia].
Qed.

Lemma triangles_ok (fft_size : Z) (bin_points : list Z) (n : nat) :
  0 < fft_size < 2 ^ 31 ->
  Forall (fun b => 0 <= b < fft_size) bin_points ->
  forall i : nat,
    (i + n + 2 <= length bin_points)%nat ->
    exists fb,
      AudioProcessor.triangles fft_size bin_points n (Z.of_nat i) = Ok fb
      /\ length fb = n
      /\ Forall (fun filt => Z.of_nat (length filt) = fft_size) fb.
Proof.
  intros Hn Hbins. rewrite Forall_lookup in Hbins.
  induction n as [|n IH]; intros i Hi.
  - exists []. repeat split; constructor.
  - cbn [AudioProcessor.triangles].
    destruct (lookup_lt_is_Some_2 bin_points i ltac:(lia)) as [s Hs].
    destruct (lookup_lt_is_Some_2 bin_points (i + 1) ltac:(lia)) as [c Hc].
    destruct (lookup_lt_is_Some_2 bin_points (i + 2) ltac:(lia)) as [e He].
    rewrite (vget_ok _ _ _ Hs). cbn [mbind outcome_bind].
    replace (Z.of_nat i + 1) with (Z.of_nat (i + 1)) by lia.
    rewrite (vget_ok _ _ _ Hc). cbn [mbind outcome_bind].
    replace (Z.of_nat i + 2) with (Z.of_nat (i + 2)) by lia.
    rewrite (vget_ok _ _ _ He). cbn [mbind outcome_bind].
    destruct (triangle_ok fft_size s c e Hn (Hbins _ _ Hs) (Hbins _ _ Hc)
                (Hbins _ _ He)) as (filt & Hf & Hl).
    rewrite Hf. cbn [mbind outcome_bind].
    destruct (IH (i + 1)%nat ltac:(lia)) as (rest & Hr & Hlr & Hw).
    rewrite Hr. cbn [mbind outcome_bind].
    exists (filt :: rest). split; [reflexivity|]. split; [simpl; lia|].
    constructor; assumption.
Qed.

Section InitializeReady.
Variable log10f : F32.t -> F32.t.
Variable powf : F32.t -> F32.t -> F32.t.
Variable cos : F64.t -> F64.t.

Lemma bin_points_from_ok (cfg : AudioProcessor.Config) (n : nat) :
  0 <= AudioProcessor.n_fft cfg ->
  forall i : nat,
    (forall k : nat, (i <= k < i + n)%nat ->
       exists b, AudioProcessor.bin_point log10f powf cfg (Z.of_nat k) = Ok b
                 /\ 0 <= b) ->
    exists bins,
      AudioProcessor.bin_points_from log10f powf cfg n (Z.of_nat i) = Ok bins
      /\ length bins = n
      /\ Forall (fun b => 0 <= b < Z.quot (AudioProcessor.n_fft cfg) 2 + 1) bins.
Proof.
  intros Hfft. induction n as [|n IH]; intros i Hk.
  - exists []. repeat split; constructor.
  - cbn [AudioProcessor.bin_points_from].
    destruct (Hk i ltac:(lia)) as (b & Hb & Hb0).
    rewrite Hb. cbn [mbind outcome_bind].
    replace (Z.of_nat i + 1) with (Z.of_nat (S i)) by lia.
    destruct (IH (S i)) as (rest & Hr & Hl & Hall).
    { intros k Hik. apply Hk. lia. }
    rewrite Hr. cbn [mbind outcome_bind].
    exists (b :: rest). split; [reflexivity|]. split; [simpl; lia|].
    constructor; [|exact Hall].
    split; [exact Hb0|].
    unfold AudioProcessor.bin_point in Hb. bind_ok Hb b0 E0.
    destruct ((- 2 ^ 31 <=? b0) && (b0 <? 2 ^ 31)); [|discriminate].
    injection Hb as <-. lia.
Qed.

Lemma initializeMelFilterbank_ok (cfg : AudioProcessor.Config) :
  0 <= AudioProcessor.n_mels cfg < 2 ^ 31 - 2 ->
  0 <= AudioProcessor.n_fft cfg < 2 ^ 31 ->
  (forall k : nat, Z.of_nat k < AudioProcessor.n_mels cfg + 2 ->
     exists b, AudioProcessor.bin_point log10f powf cfg (Z.of_nat k) = Ok b
               /\ 0 <= b) ->
  exists fb,
    AudioProcessor.initializeMelFilterbank log10f powf cfg = Ok fb
    /\ Z.of_nat (length fb) = AudioProcessor.n_mels cfg
    /\ Forall (fun filt => Z.of_nat (length filt)
                           = Z.quot (AudioProcessor.n_fft cfg) 2 + 1) fb.
Proof.
  intros Hmel Hfft Hbins. unfold AudioProcessor.initializeMelFilterbank.
  cbv zeta.
  rewrite (check_size_ok 24) by (rewrite ?max_size_24; lia).
  cbn [mbind outcome_bind].
  rewrite check_size_ok by (rewrite ?max_size_4; lia).
  cbn [mbind outcome_bind].
  destruct (bin_points_from_ok cfg (Z.to_nat (AudioProcessor.n_mels cfg + 2))
              ltac:(lia) 0%nat) as (bins & Hb & Hl & Hall).
  { intros k Hk. apply Hbins. lia. }
  change (Z.of_nat 0) with 0 in Hb. rewrite Hb. cbn [mbind outcome_bind].
  assert (Hq : 0 <= Z.quot (AudioProcessor.n_fft cfg) 2 < 2 ^ 31 - 1).
  { rewrite Z.quot_div_nonneg by lia. Z.div_mod_to_equations. lia. }
  destruct (triangles_ok (Z.quot (AudioProcessor.n_fft cfg) 2 + 1) bins
              (Z.to_nat (AudioProcessor.n_mels cfg)) ltac:(lia) Hall 0%nat
              ltac:(lia)) as (fb & Hfb & Hlf & Hw).
  exists fb. split; [exact Hfb|]. split; [lia | exact Hw].
Qed.

Lemma window_loop_length (size : Z) (n : nat) :
  forall i, length (AudioProcessor.window_loop cos size n i) = n.
Proof.
  induction n as [|n IH]; intros i; [reflexivity|].
  cbn [AudioProcessor.window_loop length]. rewrite IH. reflexivity.
Qed.

(** X4.  When the sizes of the configuration are those of a frame that
    fits the FFT and every bin index of the mel scale is computed and not
    negative, [initialize] returns a ready processor: a window of one
    weight per sample of a frame, [n_mels] filters of [n_fft / 2 + 1]
    weights, and the placeholder statistics exactly when a CMVN file is
    named. *)
Theorem initialize_ready (cfg : AudioProcessor.Config) :
  0 < AudioProcessor.frame_shift cfg < 2 ^ 31 ->
  0 < AudioProcessor.frame_length cfg <= AudioProcessor.n_fft cfg ->
  AudioProcessor.n_fft cfg < 2 ^ 31 ->
  0 <= AudioProcessor.n_mels cfg < 2 ^ 31 - 2 ->
  (forall k : nat, Z.of_nat k < AudioProcessor.n_mels cfg + 2 ->
     exists b, AudioProcessor.bin_point log10f powf cfg (Z.of_nat k) = Ok b
               /\ 0 <= b) ->
  exists p,
    AudioProcessor.initialize log10f powf cos cfg = Ok p
    /\ AudioProcessor.config_ p = cfg
    /\ AudioProcessor.cmvn_loaded_ p
       = negb (String.eqb (AudioProcessor.cmvn_file cfg) "")
    /\ Z.of_nat (length (AudioProcessor.window_ p))
       = AudioProcessor.frame_length cfg
    /\ Z.of_nat (length (AudioProcessor.mel_filterbank_ p))
       = AudioProcessor.n_mels cfg
    /\ Forall (fun filt => Z.of_nat (length filt)
                           = Z.quot (AudioProcessor.n_fft cfg) 2 + 1)
              (AudioProcessor.mel_filterbank_ p)
    /\ processor_ready p.
Proof.
  intros Hfs Hfl Hfft Hmel Hbins. unfold AudioProcessor.initialize.
  destruct (initializeMelFilterbank_ok cfg Hmel ltac:(lia) Hbins)
    as (fb & Hfb & Hlf & Hwf).
  rewrite Hfb. cbn [mbind outcome_bind].
  unfold AudioProcessor.createHammingWindow.
  rewrite check_size_ok by (rewrite ?max_size_4; lia).
  cbn [mbind outcome_bind].
  destruct (String.eqb (AudioProcessor.cmvn_file cfg) "").
  - eexists. split; [reflexivity|]. unfold processor_ready.
    cbn [AudioProcessor.config_ AudioProcessor.cmvn_loaded_
         AudioProcessor.cmvn_mean_ AudioProcessor.cmvn_var_
         AudioProcessor.mel_filterbank_ AudioProcessor.window_ negb].
    rewrite window_loop_length.
    repeat split; try reflexivity; try lia; exact Hwf.
  - unfold AudioProcessor.loadCMVN.
    cbn [AudioProcessor.config_ AudioProcessor.mel_filterbank_
         AudioProcessor.window_].
    rewrite check_size_ok by (rewrite ?max_size_4; lia).
    cbn [mbind outcome_bind].
    eexists. split; [reflexivity|]. unfold processor_ready.
    cbn [AudioProcessor.config_ AudioProcessor.cmvn_loaded_
         AudioProcessor.cmvn_mean_ AudioProcessor.cmvn_var_
         AudioProcessor.mel_filterbank_ AudioProcessor.window_ negb].
    rewrite window_loop_length, !length_replicate.
    repeat split; try reflexivity; try lia; exact Hwf.
Qed.
End InitializeReady.

Lemma initialize_ready_witness :
  exists p,
    AudioProcessor.initialize linear_log10f linear_powf (fun x => x)
      small_config = Ok p
    /\ Z.of_nat (length (AudioProcessor.window_ p)) = 4
    /\ Z.of_nat (length (AudioProcessor.mel_filterbank_ p)) = 2.
Proof.
  destruct (initialize_ready linear_log10f linear_powf (fun x => x)
              small_config) as (p & H & _ & _ & Hw & Hf & _).
  - cbn. lia.
  - cbn. lia.
  - cbn. lia.
  - cbn. lia.
  - intros k Hk. cbn in Hk.
    assert (Hcase : k = 0%nat \/ k = 1%nat \/ k = 2%nat \/ k = 3%nat) by lia.
    destruct Hcase as [-> | [-> | [-> | ->]]];
      eexists; (split; [vm_compute; reflexivity | lia]).
  - exists p. split; [exact H|]. split; [exact Hw | exact Hf].
Defined.
(** ** Division by one *)

Lemma round_exact (s : bool) (m : positive) (e : Z) :
  bounded F32.prec F32.emax m e = true ->
  binary_round_aux F32.prec F32.emax s (Z.pos m) e loc_Exact
  = S754_finite s m e.
Proof.
  intros Hb. apply andb_prop in Hb as [Hc He].
  unfold canonical_mantissa in Hc. apply Z.eqb_eq in Hc.
  unfold binary_round_aux, shr_fexp.
  change (Zdigits2 (Z.pos m)) with (Z.pos (digits2_pos m)).
  rewrite Hc, Z.sub_diag. cbn [shr shr_record_of_loc shr_m loc_of_shr_record
                               round_nearest_even].
  change (Zdigits2 (Z.pos m)) with (Z.pos (digits2_pos m)).
  rewrite Hc, Z.sub_diag. cbn [shr shr_m]. rewrite He. reflexivity.
Qed.

Lemma round_exact_double (s : bool) (m : positive) (e : Z) :
  bounded F32.prec F32.emax m e = true ->
  binary_round_aux F32.prec F32.emax s (Z.pos m~0) (e - 1) loc_Exact
  = S754_finite s m e.
Proof.
  intros Hb. pose proof Hb as Hb'. apply andb_prop in Hb as [Hc He].
  unfold canonical_mantissa in Hc. apply Z.eqb_eq in Hc.
  unfold binary_round_aux, shr_fexp.
  change (Zdigits2 (Z.pos m~0)) with (Z.pos (Pos.succ (digits2_pos m))).
  replace (Z.pos (Pos.succ (digits2_pos m)) + (e - 1))
    with (Z.pos (digits2_pos m) + e) by lia.
  rewrite Hc. replace (e - (e - 1)) with 1 by lia.
  cbn [shr shr_record_of_loc SpecFloat.iter_pos shr_1 shr_m shr_r shr_s
       loc_of_shr_record round_nearest_even orb].
  replace (e - 1 + 1) with e by lia.
  change (Zdigits2 (Z.pos m)) with (Z.pos (digits2_pos m)).
  rewrite Hc, Z.sub_diag. cbn [shr shr_m]. rewrite He. reflexivity.
Qed.

Lemma F32_div_one (x : F32.t) :
  valid_binary F32.prec F32.emax x = true -> F32.div x F32.one = x.
Proof.
  destruct x as [s|s| |s m e]; intros Hv.
  - destruct s; reflexivity.
  - destruct s; reflexivity.
  - reflexivity.
  - cbn [valid_binary] in Hv. pose proof Hv as Hb.
    apply andb_prop in Hv as [Hc He].
    unfold canonical_mantissa, fexp, emin in Hc. apply Z.eqb_eq in Hc.
    change F32.one with (S754_finite false 8388608 (-23)).
    unfold F32.div, SFdiv. rewrite xorb_false_r.
    unfold SFdiv_core_binary.
    change (Zdigits2 (Z.pos m)) with (Z.pos (digits2_pos m)).
    change (Zdigits2 8388608) with 24.
    unfold fexp, emin, F32.prec, F32.emax in *.
    set (d := Z.pos (digits2_pos m)) in *.
    assert (Hd : 0 < d) by (unfold d; lia).
    destruct (Z.eq_dec e (-149)) as [->|Hne].
    + replace (Z.min (Z.max (d + -149 - (24 + -23) - 24) (3 - 128 - 24))
                     (-149 - -23)) with (-149) by lia.
      change (-149 - -23 - -149) with 23.
      cbv beta iota zeta.
      rewrite Z.shiftl_mul_pow2 by lia.
      change (IntDef.Z.div_eucl (Z.pos m * 2 ^ 23) 8388608)
        with (Z.div_eucl (Z.pos m * 8388608) 8388608).
      assert (Hdiv : Z.div_eucl (Z.pos m * 8388608) 8388608 = (Z.pos m, 0)).
      { pose proof (Z.div_eucl_eq (Z.pos m * 8388608) 8388608 ltac:(lia)) as Heq.
        pose proof (Z.mod_pos_bound (Z.pos m * 8388608) 8388608 ltac:(lia)) as Hm.
        unfold Z.modulo in Hm.
        destruct (Z.div_eucl (Z.pos m * 8388608) 8388608) as [q r].
        f_equal; lia. }
      rewrite Hdiv. change (new_location 8388608 0) with loc_Exact.
      apply round_exact. exact Hb.
    + assert (He' : e = d + e - 24 /\ -149 < e) by lia.
      replace (Z.min (Z.max (d + e - (24 + -23) - 24) (3 - 128 - 24))
                     (e - -23)) with (e - 1) by lia.
      replace (e - -23 - (e - 1)) with 24 by lia.
      cbv beta iota zeta.
      rewrite Z.shiftl_mul_pow2 by lia.
      change (IntDef.Z.div_eucl (Z.pos m * 2 ^ 24) 8388608)
        with (Z.div_eucl (Z.pos m * 16777216) 8388608).
      assert (Hdiv : Z.div_eucl (Z.pos m * 16777216) 8388608 = (Z.pos m~0, 0)).
      { pose proof (Z.div_eucl_eq (Z.pos m * 16777216) 8388608 ltac:(lia)) as Heq.
        pose proof (Z.mod_pos_bound (Z.pos m * 16777216) 8388608 ltac:(lia)) as Hm.
        unfold Z.modulo in Hm.
        destruct (Z.div_eucl (Z.pos m * 16777216) 8388608) as [q r].
        f_equal; lia. }
      rewrite Hdiv. change (new_location 8388608 0) with loc_Exact.
      apply round_exact_double. exact Hb.
Qed.

Lemma F32_sub_zero (x : F32.t) : F32.sub x F32.zero = x.
Proof. destruct x as [[]|[]| |s m e]; reflexivity. Qed.

(** ** CMVN with the placeholder statistics *)

Lemma cmvn_value_placeholder (n d : nat) (x : F32.t) :
  is_float x ->
  cmvn_value (replicate n F32.zero) (replicate n F32.one) d x = x.
Proof.
  intros Hx. unfold cmvn_value.
  destruct (decide (d < n)%nat) as [Hd|Hd].
  - rewrite !lookup_replicate_2 by exact Hd.
    rewrite F32_sub_zero.
    change (F32.sqrt F32.one) with F32.one.
    apply F32_div_one. exact Hx.
  - assert (E : replicate n F32.zero !! d = None)
      by (apply lookup_replicate_None; lia).
    rewrite E. reflexivity.
Qed.

(** X5.  The statistics that [loadCMVN] stores are a mean of zero and a
    variance of one in every dimension: normalising with them changes no
    feature value. *)
Theorem applyCMVN_placeholder (p p' : AudioProcessor.t)
    (features : list (list F32.t)) :
  AudioProcessor.loadCMVN p = Ok p' ->
  Forall (Forall is_float) features ->
  AudioProcessor.applyCMVN p' features = Ok features.
Proof.
  intros Hload Hfloat. unfold AudioProcessor.loadCMVN in Hload.
  destruct (check_size 4 _) as [n| |]; cbn [mbind outcome_bind] in Hload;
    try discriminate.
  injection Hload as <-. unfold AudioProcessor.applyCMVN.
  cbn [AudioProcessor.cmvn_loaded_ AudioProcessor.cmvn_mean_
       AudioProcessor.cmvn_var_ negb orb].
  case_bool_decide; [reflexivity|].
  destruct (cmvn_frames_spec features (replicate (Z.to_nat n) F32.zero)
              (replicate (Z.to_nat n) F32.one))
    as (out & Hout & Hlen & Hrows).
  { rewrite !length_replicate. lia. }
  rewrite Hout. f_equal. apply list_eq. intros t.
  destruct (features !! t) as [frame|] eqn:Ht.
  - destruct (Hrows t frame Ht) as (frame' & Hf' & Hl' & Hd).
    rewrite Hf'. f_equal. apply list_eq. intros d.
    destruct (frame !! d) as [x|] eqn:Hx.
    + rewrite (Hd d x Hx). f_equal. apply cmvn_value_placeholder.
      rewrite Forall_lookup in Hfloat. specialize (Hfloat t frame Ht).
      rewrite Forall_lookup in Hfloat. exact (Hfloat d x Hx).
    + apply lookup_ge_None_2. apply lookup_ge_None_1 in Hx. lia.
  - apply lookup_ge_None_2. apply lookup_ge_None_1 in Ht. lia.
Qed.

Lemma applyCMVN_placeholder_witness :
  AudioProcessor.applyCMVN loaded_processor
    [[F32.lit 1 3; F32.nan]; [F32.of_Z (-7)]]
  = Ok [[F32.lit 1 3; F32.nan]; [F32.of_Z (-7)]].
Proof.
  apply (applyCMVN_placeholder default_processor loaded_processor
           [[F32.lit 1 3; F32.nan]; [F32.of_Z (-7)]]).
  - reflexivity.
  - repeat constructor.
Defined.
(** ** The vocabulary *)

Lemma vocabulary_cons (line : string) (lines : list string) :
  vocabulary (line :: lines)
  = if String.eqb line "" then vocabulary lines
    else Tokenizer.before_tab line :: vocabulary lines.
Proof.
  unfold vocabulary. cbn [List.filter].
  destruct (String.eqb line ""); reflexivity.
Qed.

Lemma load_lines_ids (lines : list string) :
  forall id tk k,
    Tokenizer.id_to_token_ (snd (Tokenizer.load_lines lines id tk)) !! k
    = if decide (id <= k < id + Z.of_nat (length (vocabulary lines)))
      then vocabulary lines !! Z.to_nat (k - id)
      else Tokenizer.id_to_token_ tk !! k.
Proof.
  induction lines as [|line lines IH]; intros id tk k.
  - cbn. case_decide; [lia | reflexivity].
  - cbn [Tokenizer.load_lines]. rewrite vocabulary_cons.
    destruct (String.eqb line "") eqn:E.
    + apply IH.
    + cbn [length]. rewrite IH.
      cbn [Tokenizer.id_to_token_].
      destruct (decide (k = id)) as [->|Hne].
      * rewrite decide_False by lia. rewrite decide_True by lia.
        rewrite lookup_insert_eq, Z.sub_diag. reflexivity.
      * rewrite lookup_insert_ne by congruence.
        repeat case_decide; try lia; try reflexivity.
        replace (Z.to_nat (k - id)) with (S (Z.to_nat (k - (id + 1)))) by lia.
        reflexivity.
Qed.

Lemma load_lines_size (lines : list string) :
  forall id tk,
    (forall k, id <= k -> Tokenizer.id_to_token_ tk !! k = None) ->
    size (Tokenizer.id_to_token_ (snd (Tokenizer.load_lines lines id tk)))
    = (size (Tokenizer.id_to_token_ tk) + length (vocabulary lines))%nat.
Proof.
  induction lines as [|line lines IH]; intros id tk Hfree.
  - cbn. lia.
  - cbn [Tokenizer.load_lines]. rewrite vocabulary_cons.
    destruct (String.eqb line "") eqn:E.
    + apply IH. exact Hfree.
    + cbn [length]. rewrite IH.
      * cbn [Tokenizer.id_to_token_].
        rewrite map_size_insert_None by (apply Hfree; lia). lia.
      * intros k Hk. cbn [Tokenizer.id_to_token_].
        rewrite lookup_insert_ne by lia. apply Hfree. lia.
Qed.

Lemma load_lines_absent (lines : list string) :
  forall id tk token,
    token ∉ vocabulary lines ->
    Tokenizer.token_to_id_ (snd (Tokenizer.load_lines lines id tk)) !! token
    = Tokenizer.token_to_id_ tk !! token.
Proof.
  induction lines as [|line lines IH]; intros id tk token Hout.
  - reflexivity.
  - cbn [Tokenizer.load_lines]. rewrite vocabulary_cons in Hout.
    destruct (String.eqb line "") eqn:E.
    + apply IH. exact Hout.
    + apply not_elem_of_cons in Hout as [Hne Hout].
      rewrite IH by exact Hout. cbn [Tokenizer.token_to_id_].
      apply lookup_insert_ne. congruence.
Qed.

Lemma load_lines_tokens (lines : list string) :
  forall id tk token,
    token ∈ vocabulary lines ->
    exists i : nat,
      Tokenizer.token_to_id_ (snd (Tokenizer.load_lines lines id tk)) !! token
      = Some (id + Z.of_nat i)
      /\ vocabulary lines !! i = Some token
      /\ forall j : nat, (i < j)%nat -> vocabulary lines !! j <> Some token.
Proof.
  induction lines as [|line lines IH]; intros id tk token Hin.
  - cbn in Hin. apply elem_of_nil in Hin. contradiction.
  - cbn [Tokenizer.load_lines]. rewrite vocabulary_cons in Hin |- *.
    destruct (String.eqb line "") eqn:E.
    + apply IH. exact Hin.
    + destruct (decide (token ∈ vocabulary lines)) as [Hlater|Hnot].
      * destruct (IH (id + 1)
                    {| Tokenizer.id_to_token_ :=
                         <[id := Tokenizer.before_tab line]>
                           (Tokenizer.id_to_token_ tk);
                       Tokenizer.token_to_id_ :=
                         <[Tokenizer.before_tab line := id]>
                           (Tokenizer.token_to_id_ tk);
                       Tokenizer.vocab_size_ := Tokenizer.vocab_size_ tk |}
                    token Hlater) as (i & Hi & Hv & Hlast).
        exists (S i). split; [rewrite Hi; f_equal; lia|].
        split; [exact Hv|].
        intros [|j] Hj; [lia|]. cbn. apply Hlast. lia.
      * apply elem_of_cons in Hin as [->|Hin]; [|contradiction].
        exists 0%nat. rewrite load_lines_absent by exact Hnot.
        cbn [Tokenizer.token_to_id_]. rewrite lookup_insert_eq.
        split; [f_equal; lia|]. split; [reflexivity|].
        intros [|j] Hj; [lia|]. cbn. intros Hj'.
        apply Hnot. apply list_elem_of_lookup. eauto.
Qed.

(** X6.  [loadVocabulary] on a new tokenizer numbers the non-empty
    lines of the file 0, 1, 2, ... (fewer than [2^31] of them, the
    counter being an [int]); the token of a line is its text before the
    first tab.  [vocab_size_] is the number of such lines, and an id
    outside of them is answered with [<unk>]. *)
Theorem loadVocabulary_ids (vocab_file : string) (lines : list string) :
  vocab_file <> EmptyString ->
  Z.of_nat (length (vocabulary lines)) < 2 ^ 31 ->
  fst (Tokenizer.loadVocabulary vocab_file (Some lines) Tokenizer.empty) = true
  /\ Tokenizer.vocab_size_ (loaded vocab_file lines)
     = Z.of_nat (length (vocabulary lines))
  /\ (forall i token, vocabulary lines !! i = Some token ->
        Tokenizer.idToToken (loaded vocab_file lines) (Z.of_nat i) = token)
  /\ (forall id, id < 0 \/ Z.of_nat (length (vocabulary lines)) <= id ->
        Tokenizer.idToToken (loaded vocab_file lines) id = "<unk>").
Proof.
  intros Hfile _. unfold loaded, Tokenizer.loadVocabulary.
  apply String.eqb_neq in Hfile. rewrite Hfile. cbn [fst snd].
  split; [reflexivity|]. split.
  - cbn [Tokenizer.vocab_size_]. rewrite load_lines_size.
    + cbn [Tokenizer.empty Tokenizer.id_to_token_].
      rewrite map_size_empty. reflexivity.
    + intros k _. apply lookup_empty.
  - unfold Tokenizer.idToToken. cbn [Tokenizer.id_to_token_]. split.
    + intros i token Hi. rewrite load_lines_ids.
      pose proof (lookup_lt_Some _ _ _ Hi).
      case_decide; [|lia].
      rewrite Z.sub_0_r, Nat2Z.id, Hi. reflexivity.
    + intros id Hid. rewrite load_lines_ids.
      case_decide; [lia|]. cbn. rewrite lookup_empty. reflexivity.
Qed.

Lemma loadVocabulary_ids_witness :
  Tokenizer.idToToken (loaded "tokens.txt" sample_lines) 2
  = "a".
Proof.
  apply (loadVocabulary_ids "tokens.txt" sample_lines)
    with (i := 2%nat).
  - discriminate.
  - vm_compute. reflexivity.
  - reflexivity.
Defined.

(** X7.  Every token of a loaded vocabulary (of fewer than [2^31]
    tokens) is found again under the id it is given, also when it occurs
    on several lines; a string that is no token has the id of [<unk>];
    and when no token occurs twice, every id is found again under its
    token. *)
Theorem tokenToId_idToToken (vocab_file : string) (lines : list string) :
  vocab_file <> EmptyString ->
  Z.of_nat (length (vocabulary lines)) < 2 ^ 31 ->
  (forall token, token ∈ vocabulary lines ->
     Tokenizer.idToToken (loaded vocab_file lines)
       (Tokenizer.tokenToId (loaded vocab_file lines) token) = token)
  /\ (forall token, token ∉ vocabulary lines ->
        Tokenizer.tokenToId (loaded vocab_file lines) token = 1)
  /\ (NoDup (vocabulary lines) ->
      forall i : nat, (i < length (vocabulary lines))%nat ->
        Tokenizer.tokenToId (loaded vocab_file lines)
          (Tokenizer.idToToken (loaded vocab_file lines) (Z.of_nat i))
        = Z.of_nat i).
Proof.
  intros Hfile _. unfold loaded, Tokenizer.loadVocabulary.
  apply String.eqb_neq in Hfile. rewrite Hfile. cbn [snd].
  unfold Tokenizer.idToToken, Tokenizer.tokenToId.
  cbn [Tokenizer.id_to_token_ Tokenizer.token_to_id_].
  split; [|split].
  - intros token Hin.
    destruct (load_lines_tokens lines 0 Tokenizer.empty token Hin)
      as (i & Hi & Hv & _).
    rewrite Hi, load_lines_ids. pose proof (lookup_lt_Some _ _ _ Hv).
    case_decide; [|lia].
    replace (Z.to_nat (0 + Z.of_nat i - 0)) with i by lia.
    rewrite Hv. reflexivity.
  - intros token Hout. rewrite load_lines_absent by exact Hout.
    cbn. rewrite lookup_empty. reflexivity.
  - intros Hnodup i Hi. rewrite load_lines_ids.
    case_decide; [|lia].
    rewrite Z.sub_0_r, Nat2Z.id.
    destruct (lookup_lt_is_Some_2 _ _ Hi) as [token Ht]. rewrite Ht.
    destruct (load_lines_tokens lines 0 Tokenizer.empty token)
      as (i' & Hi' & Hv' & _).
    { apply list_elem_of_lookup. eauto. }
    rewrite Hi'. rewrite (NoDup_lookup _ _ _ _ Hnodup Ht Hv'). lia.
Qed.

Lemma tokenToId_idToToken_witness :
  Tokenizer.idToToken (loaded "tokens.txt" ["a"; "b"; "a"])
    (Tokenizer.tokenToId (loaded "tokens.txt" ["a"; "b"; "a"]) "a") = "a".
Proof.
  apply (tokenToId_idToToken "tokens.txt" ["a"; "b"; "a"]).
  - discriminate.
  - vm_compute. reflexivity.
  - vm_compute. apply list_elem_of_here.
Defined.

(** ** Character splitting *)

Lemma split_loop_shift (c : Ascii.ascii) (text : string) (fuel : nat) :
  forall i,
    Tokenizer.split_loop (String c text) fuel (S i)
    = Tokenizer.split_loop text fuel i.
Proof.
  induction fuel as [|fuel IH]; intros i; [reflexivity|].
  cbn [Tokenizer.split_loop String.get String.substring String.length].
  destruct (String.get i text) as [d|]; [|reflexivity].
  replace (S i + Tokenizer.char_len d)%nat with (S (i + Tokenizer.char_len d))
    by lia.
  rewrite IH. reflexivity.
Qed.

Lemma substring_0_0 (s : string) : String.substring 0 0 s = EmptyString.
Proof. destruct s; reflexivity. Qed.

Lemma single_eqb (c d : Ascii.ascii) :
  String.eqb (String c EmptyString) (String d EmptyString) = Ascii.eqb c d.
Proof. cbn. destruct (Ascii.eqb c d); reflexivity. Qed.

Lemma splitByDelimiters_single_bytes (text : string) :
  Forall (fun c => (Ascii.nat_of_ascii c < 192)%nat) (list_ascii_of_string text) ->
  Tokenizer.splitByDelimiters text
  = map (fun c => String c EmptyString)
        (List.filter (fun c => negb (is_delimiter c)) (list_ascii_of_string text)).
Proof.
  induction text as [|c text IH]; intros Hall; [reflexivity|].
  cbn [list_ascii_of_string] in Hall |- *.
  apply Forall_cons in Hall as [Hc Hall].
  unfold Tokenizer.splitByDelimiters.
  cbn [String.length Tokenizer.split_loop String.get].
  assert (Hlen : Tokenizer.char_len c = 1%nat).
  { unfold Tokenizer.char_len.
    destruct (Nat.leb_spec 192 (Ascii.nat_of_ascii c)); [lia | reflexivity]. }
  rewrite Hlen. cbn [String.substring Nat.add]. rewrite substring_0_0.
  rewrite split_loop_shift.
  fold (Tokenizer.splitByDelimiters text). rewrite (IH Hall).
  cbn [List.filter]. unfold is_delimiter.
  change " "%string with (String " "%char EmptyString).
  rewrite !single_eqb.
  replace (1 <=? S (String.length text))%nat with true
    by (symmetry; apply Nat.leb_le; lia).
  cbn [andb String.eqb].
  destruct (Ascii.eqb c " "%char), (Ascii.eqb c "009"%char),
    (Ascii.eqb c "010"%char); reflexivity.
Qed.

(** X8.  On text whose bytes are all below [0xC0] (ASCII text, for
    one), [encode] gives one id per character other than blank, tab and
    newline, in the order of the text. *)
Theorem encode_single_bytes (tk : Tokenizer.t) (text : string) :
  Forall (fun c => (Ascii.nat_of_ascii c < 192)%nat) (list_ascii_of_string text) ->
  Tokenizer.encode tk text
  = map (fun c => Tokenizer.tokenToId tk (String c EmptyString))
        (List.filter (fun c => negb (is_delimiter c)) (list_ascii_of_string text)).
Proof.
  intros Hall. unfold Tokenizer.encode.
  rewrite splitByDelimiters_single_bytes by exact Hall.
  rewrite map_map. reflexivity.
Qed.

Lemma encode_single_bytes_witness :
  Tokenizer.encode (loaded "tokens.txt" ["<unk>"; "<blank>"; "a"; "b"]) "a b?"
  = [2; 3; 1].
Proof.
  rewrite (encode_single_bytes
             (loaded "tokens.txt" ["<unk>"; "<blank>"; "a"; "b"]) "a b?").
  - vm_compute. reflexivity.
  - cbn [list_ascii_of_string]. repeat constructor; vm_compute; lia.
Defined.

(** ** Decoding *)

Lemma trim_left_head (s : string) (c : Ascii.ascii) (rest : string) :
  Tokenizer.trim_left s = String c rest -> Tokenizer.is_space c = false.
Proof.
  induction s as [|a s IH]; cbn [Tokenizer.trim_left]; [discriminate|].
  destruct (Tokenizer.is_space a) eqn:E; [exact IH|].
  intros [= <- _]. exact E.
Qed.

Lemma trim_right_head (s : string) (c : Ascii.ascii) (rest : string) :
  Tokenizer.trim_right s = String c rest ->
  exists rest', s = String c rest'.
Proof.
  destruct s as [|a s]; cbn [Tokenizer.trim_right]; [discriminate|].
  destruct (Tokenizer.trim_right s).
  - destruct (Tokenizer.is_space a); [discriminate|].
    intros [= <- _]. eauto.
  - intros [= <- _]. eauto.
Qed.

Lemma trim_right_last (s : string) (c : Ascii.ascii) :
  String.get (String.length (Tokenizer.trim_right s) - 1) (Tokenizer.trim_right s)
  = Some c ->
  Tokenizer.is_space c = false.
Proof.
  induction s as [|a s IH]; cbn [Tokenizer.trim_right]; [discriminate|].
  destruct (Tokenizer.trim_right s) as [|b r] eqn:E.
  - destruct (Tokenizer.is_space a) eqn:Ea; [discriminate|].
    cbn. intros [= <-]. exact Ea.
  - cbn [String.length String.get Nat.sub] in IH |- *.
    rewrite Nat.sub_0_r in *. 
    destruct (String.length r) as [|n] eqn:El.
    + cbn in IH |- *. exact IH.
    + cbn [String.get]. cbn [String.get] in IH. exact IH.
Qed.

Section Decode.
Variable regex_replace : string -> string -> string -> string.

(** X9.  The decoded text never begins or ends with a blank, a tab, a
    newline or a carriage return, and an id whose token is empty or
    [<blank>] contributes nothing to it. *)
Theorem decode_text (tk : Tokenizer.t) (token_ids : list Z) :
  let text := Tokenizer.decode regex_replace tk token_ids in
  (forall c, String.get 0 text = Some c -> Tokenizer.is_space c = false)
  /\ (forall c, String.get (String.length text - 1) text = Some c ->
        Tokenizer.is_space c = false)
  /\ (forall before after id,
        token_ids = before ++ id :: after ->
        Tokenizer.idToToken tk id = EmptyString
        \/ Tokenizer.idToToken tk id = "<blank>" ->
        text = Tokenizer.decode regex_replace tk (before ++ after)).
Proof.
  cbv zeta. unfold Tokenizer.decode, Tokenizer.postProcessText. split; [|split].
  - intros c Hc.
    match type of Hc with
    | String.get 0 (Tokenizer.trim_right ?s) = _ =>
        destruct (Tokenizer.trim_right s) as [|a r] eqn:E; [discriminate|]
    end.
    cbn in Hc. injection Hc as ->.
    apply trim_right_head in E as [rest' E].
    exact (trim_left_head _ _ _ E).
  - intros c. apply trim_right_last.
  - intros before after id -> Hid.
    rewrite !map_app, !filter_app. cbn [map].
    rewrite filter_cons.
    destruct Hid as [-> | ->]; reflexivity.
Qed.
End Decode.
(** ** Greedy decoding of arbitrary logits *)

Lemma vget_in_range {A} (v : list A) (i : Z) :
  0 <= i < Z.of_nat (length v) -> exists x, vget v i = Ok x.
Proof.
  intros H. destruct (lookup_lt_is_Some_2 v (Z.to_nat i) ltac:(lia)) as [x Hx].
  exists x. rewrite <- (Z2Nat.id i) by lia. apply vget_ok. exact Hx.
Qed.

Lemma argmax_loop_range (logits : list F32.t) (base : Z) (n : nat) :
  forall v max_token max_prob,
    0 <= base -> 0 <= v ->
    base + v + Z.of_nat n <= Z.of_nat (length logits) ->
    0 <= max_token < v ->
    exists m x,
      ASRModel.argmax_loop logits base n v max_token max_prob = Ok (m, x)
      /\ 0 <= m < v + Z.of_nat n.
Proof.
  induction n as [|n IH]; intros v mt mp Hb Hv Hlen Hmt.
  - exists mt, mp. split; [reflexivity | lia].
  - cbn [ASRModel.argmax_loop].
    destruct (vget_in_range logits (base + v) ltac:(lia)) as [x Hx].
    rewrite Hx. cbn [mbind outcome_bind].
    destruct (F32.gtb x mp).
    + destruct (IH (v + 1) v x) as (m & y & H & Hm); try lia.
      exists m, y. split; [exact H | lia].
    + destruct (IH (v + 1) mt mp) as (m & y & H & Hm); try lia.
      exists m, y. split; [exact H | lia].
Qed.

Lemma max_token_at_range (logits : list F32.t) (V t : Z) :
  0 < V -> 0 <= t -> (t + 1) * V <= Z.of_nat (length logits) ->
  exists m, ASRModel.max_token_at logits V t = Ok m /\ 0 <= m < V.
Proof.
  intros HV Ht Hlen. unfold ASRModel.max_token_at.
  destruct (vget_in_range logits (t * V) ltac:(nia)) as [x Hx].
  rewrite Hx. cbn [mbind outcome_bind].
  destruct (argmax_loop_range logits (t * V) (Z.to_nat (V - 1)) 1 0 x)
    as (m & y & H & Hm); try nia.
  rewrite H. cbn [mbind outcome_bind fst]. exists m. split; [reflexivity | lia].
Qed.

Lemma decode_loop_range (blank_id : Z) (logits : list F32.t) (V : Z) (n : nat) :
  0 < V ->
  forall t prev tokens,
    0 <= t -> (t + Z.of_nat n) * V <= Z.of_nat (length logits) ->
    exists emitted,
      ASRModel.decode_loop blank_id logits V n t prev tokens
      = Ok (tokens ++ emitted)
      /\ (length emitted <= n)%nat
      /\ Forall (fun token => 0 <= token < V /\ token <> blank_id) emitted.
Proof.
  intros HV. induction n as [|n IH]; intros t prev tokens Ht Hlen.
  - exists []. rewrite app_nil_r. repeat split; [reflexivity | constructor].
  - cbn [ASRModel.decode_loop].
    destruct (max_token_at_range logits V t HV Ht ltac:(nia)) as (m & Hm & Hr).
    rewrite Hm. cbn [mbind outcome_bind].
    destruct (IH (t + 1) m
                (if negb (m =? blank_id) && negb (m =? prev)
                 then tokens ++ [m] else tokens))
      as (emitted & H & Hl & Hall); [lia | nia |].
    rewrite H.
    destruct (Z.eqb_spec m blank_id) as [Hb|Hb]; cbn [negb andb].
    + exists emitted. split; [reflexivity|]. split; [lia | exact Hall].
    + destruct (Z.eqb_spec m prev); cbn [negb].
      * exists emitted. split; [reflexivity|]. split; [lia | exact Hall].
      * exists (m :: emitted). rewrite <- app_assoc.
        split; [reflexivity|]. split; [simpl; lia|].
        constructor; [split; [lia | exact Hb] | exact Hall].
Qed.

(** The quotient [logits.size() / sequence_length] and its conversion
    to [int]. *)
Lemma decodeCTC_unfold (blank_id : Z) (logits : list F32.t) (T : nat) :
  (0 < T <= length logits)%nat ->
  Z.of_nat (length logits) < 2 ^ 31 ->
  ASRModel.decodeCTC blank_id logits (Z.of_nat T)
  = ASRModel.decode_loop blank_id logits
      (Z.of_nat (length logits) / Z.of_nat T) T 0 (-1) []
  /\ 0 < Z.of_nat (length logits) / Z.of_nat T
  /\ Z.of_nat T * (Z.of_nat (length logits) / Z.of_nat T)
     <= Z.of_nat (length logits).
Proof.
  intros HT Hlen. unfold ASRModel.decodeCTC.
  rewrite to_size_t_small by lia.
  destruct (Z.eqb_spec (Z.of_nat T) 0); [lia|].
  assert (HV : 0 < Z.of_nat (length logits) / Z.of_nat T
               <= Z.of_nat (length logits)).
  { split.
    - apply Z.div_str_pos. lia.
    - apply Z.div_le_upper_bound; [lia|]. nia. }
  rewrite to_int_small by lia.
  rewrite Nat2Z.id. split; [reflexivity|]. split; [lia|].
  apply Z.mul_div_le. lia.
Qed.

(** X10.  Whatever the logits are (NaN included), decoding [T >= 1] steps
    of a vector of at least [T] logits returns; it emits at most [T]
    tokens, each of them a vocabulary index and none of them the
    blank. *)
Theorem decodeCTC_tokens (blank_id : Z) (logits : list F32.t) (T : nat) :
  (0 < T <= length logits)%nat ->
  Z.of_nat (length logits) < 2 ^ 31 ->
  exists tokens,
    ASRModel.decodeCTC blank_id logits (Z.of_nat T) = Ok tokens
    /\ (length tokens <= T)%nat
    /\ Forall (fun token =>
                 0 <= token < Z.of_nat (length logits) / Z.of_nat T
                 /\ token <> blank_id) tokens.
Proof.
  intros HT Hlen.
  destruct (decodeCTC_unfold blank_id logits T HT Hlen) as (-> & HV & Hfit).
  destruct (decode_loop_range blank_id logits
              (Z.of_nat (length logits) / Z.of_nat T) T HV 0 (-1) [])
    as (emitted & H & Hl & Hall); [lia | rewrite Z.add_0_l; exact Hfit |].
  exists emitted. split; [exact H|]. split; assumption.
Qed.

Lemma decodeCTC_tokens_witness :
  exists tokens,
    ASRModel.decodeCTC 0 [F32.nan; F32.one; F32.nan; F32.nan] 2 = Ok tokens
    /\ (length tokens <= 2)%nat.
Proof.
  destruct (decodeCTC_tokens 0 [F32.nan; F32.one; F32.nan; F32.nan] 2)
    as (tokens & H & Hl & _).
  - simpl. lia.
  - simpl. lia.
  - exists tokens. split; [exact H | exact Hl].
Defined.

(** ** Language and text normalisation ids *)

(** X11.  A model object that the constructor has built answers the id of
    [auto], 0, for every language it does not know, and does not change
    its tables when asked. *)
Theorem getLanguageId_unknown (config : ASRModel.Config) (language : string) :
  language ∉ ["auto"; "zh"; "en"; "yue"; "ja"; "ko"; "nospeech"] ->
  ASRModel.getLanguageId (ASRModel.construct config) language
  = (0, ASRModel.construct config).
Proof.
  intros Hout. unfold ASRModel.getLanguageId, ASRModel.construct,
    ASRModel.initializeLanguageMaps.
  cbn [ASRModel.language_dict_ ASRModel.with_textnorm_dict
       ASRModel.with_language_dict ASRModel.textnorm_dict_].
  rewrite !lookup_insert_ne, lookup_empty.
  2-8: intros <-; apply Hout; set_solver.
  unfold ASRModel.map_index.
  rewrite !(lookup_insert_ne _ _ "auto") by discriminate.
  rewrite lookup_insert_eq. reflexivity.
Qed.

Lemma getLanguageId_unknown_witness :
  ASRModel.getLanguageId (ASRModel.construct ASRModel.default_config) "fr"
  = (0, ASRModel.construct ASRModel.default_config).
Proof.
  apply (getLanguageId_unknown ASRModel.default_config "fr").
  intros H. repeat (apply elem_of_cons in H as [H|H]; [discriminate H|]).
  apply elem_of_nil in H. exact H.
Defined.

(** ** Recognition *)

(** Framing reads the frame length and the frame shift of the
    configuration only. *)
Lemma frame_loop_ext (cfg1 cfg2 : AudioProcessor.Config) (signal : list F32.t) :
  AudioProcessor.frame_length cfg1 = AudioProcessor.frame_length cfg2 ->
  AudioProcessor.frame_shift cfg1 = AudioProcessor.frame_shift cfg2 ->
  forall n i frames,
    AudioProcessor.frame_loop cfg1 signal n i frames
    = AudioProcessor.frame_loop cfg2 signal n i frames.
Proof.
  intros Hfl Hfs. induction n as [|n IH]; intros i frames; [reflexivity|].
  cbn [AudioProcessor.frame_loop]. rewrite Hfl, Hfs.
  destruct (_ <=? _).
  - destruct (vrange signal _ _); cbn [mbind outcome_bind]; try reflexivity.
    apply IH.
  - destruct (vrange signal _ _); cbn [mbind outcome_bind]; try reflexivity.
    destruct (AudioProcessor.resize_zero _ _); cbn [mbind outcome_bind]; try reflexivity.
    apply IH.
Qed.

Lemma frameSignal_short (cfg : AudioProcessor.Config) (signal : list F32.t) :
  AudioProcessor.frame_length cfg = 400 ->
  AudioProcessor.frame_shift cfg = 160 ->
  (length signal < 400)%nat ->
  AudioProcessor.frameSignal cfg signal = Throw length_error.
Proof.
  intros Hfl Hfs Hlen.
  rewrite <- (frameSignal_default_short signal Hlen).
  unfold AudioProcessor.frameSignal, AudioProcessor.num_frames.
  rewrite Hfl, Hfs.
  change (AudioProcessor.frame_shift AudioProcessor.default_config) with 160.
  change (AudioProcessor.frame_length AudioProcessor.default_config) with 400.
  destruct (to_size_t 160 =? 0); [reflexivity|].
  destruct (_ =? 2 ^ 31 - 1); [reflexivity|].
  cbn [mbind outcome_bind].
  destruct (check_size 24 _); cbn [mbind outcome_bind]; try reflexivity.
  apply frame_loop_ext; assumption.
Qed.

(** Features of a waveform shorter than one frame of 400 samples. *)
Lemma extractFeatures_short (fft : list F32.t -> list (F32.t * F32.t))
    (cabsf : F32.t * F32.t -> F32.t) (logf : F32.t -> F32.t)
    (p : AudioProcessor.t) (audio : list F32.t) :
  AudioProcessor.frame_length (AudioProcessor.config_ p) = 400 ->
  AudioProcessor.frame_shift (AudioProcessor.config_ p) = 160 ->
  (0 < length audio < 400)%nat ->
  AudioProcessor.extractFeatures fft cabsf logf p audio = Throw length_error.
Proof.
  intros Hfl Hfs Hlen. unfold AudioProcessor.extractFeatures.
  assert (Hpre : exists y, AudioProcessor.preprocess (AudioProcessor.config_ p) audio
                           = Ok y /\ length y = length audio).
  { destruct (F32.gtb (AudioProcessor.preemphasis (AudioProcessor.config_ p))
                      F32.zero) eqn:Hg.
    - destruct (preprocess_positive (AudioProcessor.config_ p) audio)
        as (y & Hy & Hl & _);
        [rewrite max_size_4; lia | exact Hg | | eauto].
      intros ->. simpl in Hlen. lia.
    - exists audio. unfold AudioProcessor.preprocess. rewrite Hg. auto. }
  destruct Hpre as (y & Hy & Hl). rewrite Hy. cbn [mbind outcome_bind].
  unfold AudioProcessor.computeFbank.
  rewrite frameSignal_short by (auto; lia). reflexivity.
Qed.

Lemma with_language_dict_id (m : ASRModel.t) :
  ASRModel.with_language_dict m (ASRModel.language_dict_ m) = m.
Proof. destruct m. reflexivity. Qed.

Lemma with_textnorm_dict_id (m : ASRModel.t) :
  ASRModel.with_textnorm_dict m (ASRModel.textnorm_dict_ m) = m.
Proof. destruct m. reflexivity. Qed.

Lemma map_index_present (dict : gmap string Z) (key : string) (v : Z) :
  dict !! key = Some v -> ASRModel.map_index dict key = (v, dict).
Proof. intros H. unfold ASRModel.map_index. rewrite H. reflexivity. Qed.

Lemma getLanguageId_ready (m : ASRModel.t) (language : string) :
  tables_ready m -> snd (ASRModel.getLanguageId m language) = m.
Proof.
  intros ([a Ha] & _). unfold ASRModel.getLanguageId.
  destruct (ASRModel.language_dict_ m !! language); [reflexivity|].
  rewrite (map_index_present _ _ _ Ha). cbn [fst snd].
  apply with_language_dict_id.
Qed.

Lemma getTextnormId_ready (m : ASRModel.t) (use_itn : bool) :
  tables_ready m -> snd (ASRModel.getTextnormId m use_itn) = m.
Proof.
  intros (_ & [w Hw] & [o Ho]). unfold ASRModel.getTextnormId.
  destruct use_itn.
  - rewrite (map_index_present _ _ _ Hw). apply with_textnorm_dict_id.
  - rewrite (map_index_present _ _ _ Ho). apply with_textnorm_dict_id.
Qed.

Section Recognition.
Variable fft : list F32.t -> list (F32.t * F32.t).
Variable cabsf : F32.t * F32.t -> F32.t.
Variable logf : F32.t -> F32.t.
Variable regex_replace : string -> string -> string -> string.
Variable Run : list F32.t -> list Z -> Z -> Z -> Z -> ASRModel.run_result.

(** X12.  An initialised model whose frames are 400 samples long and 160
    apart answers the empty string to a waveform of 1 to 399 samples:
    the [std::length_error] of the framing is caught, the engine is not
    run and the model object is unchanged. *)
Theorem recognize_short_waveform (m : ASRModel.t) (ap : AudioProcessor.t)
    (tk : Tokenizer.t) (audio : list F32.t) :
  ASRModel.session_ m = true ->
  ASRModel.audio_processor_ m = Some ap ->
  ASRModel.tokenizer_ m = Some tk ->
  AudioProcessor.frame_length (AudioProcessor.config_ ap) = 400 ->
  AudioProcessor.frame_shift (AudioProcessor.config_ ap) = 160 ->
  (0 < length audio < 400)%nat ->
  ASRModel.recognize fft cabsf logf regex_replace Run m audio
  = Ok (EmptyString, m).
Proof.
  intros Hs Hap Htk Hfl Hfs Hlen. unfold ASRModel.recognize.
  rewrite Hs, Hap, Htk.
  rewrite (extractFeatures_short fft cabsf logf ap audio Hfl Hfs Hlen).
  reflexivity.
Qed.

(** X13.  Once the features of a waveform are extracted, [recognize]
    runs the engine on the flattened matrix with the shape [batch_size,
    rows, columns].  A failing engine gives the empty string.  When the
    engine answers logits of the shape [b, T, V], the text is the
    decoding of the greedy CTC tokens of the first [T * V] logits, each
    of them below [V].  The model object is unchanged either way. *)
Theorem recognize_transcript (m : ASRModel.t) (ap : AudioProcessor.t)
    (tk : Tokenizer.t) (audio : list F32.t) (features : list (list F32.t)) :
  ASRModel.session_ m = true ->
  ASRModel.audio_processor_ m = Some ap ->
  ASRModel.tokenizer_ m = Some tk ->
  tables_ready m ->
  AudioProcessor.extractFeatures fft cabsf logf ap audio = Ok features ->
  Z.of_nat (length features) < 2 ^ 31 ->
  Z.of_nat (length features) * feature_dim features <= vector_max_size 4 ->
  let result :=
    Run (concat features)
        [ASRModel.batch_size (ASRModel.config_ m);
         Z.of_nat (length features);
         feature_dim features]
        (Z.of_nat (length features))
        (fst (ASRModel.getLanguageId m (ASRModel.language (ASRModel.config_ m))))
        (fst (ASRModel.getTextnormId m (ASRModel.use_itn (ASRModel.config_ m))))
  in
  (result = ASRModel.RunFailed ->
   ASRModel.recognize fft cabsf logf regex_replace Run m audio
   = Ok (EmptyString, m))
  /\ (forall (b : Z) (T V : nat) logits rest,
        result = ASRModel.RunOutputs
                   ({| ASRModel.shape := [b; Z.of_nat T; Z.of_nat V];
                       ASRModel.data := logits |} :: rest) ->
        (0 < T)%nat -> (0 < V)%nat ->
        (T * V <= length logits)%nat -> Z.of_nat (T * V) < 2 ^ 31 ->
        exists tokens,
          ASRModel.decodeCTC (ASRModel.blank_id_ m) (take (T * V) logits)
            (Z.of_nat T) = Ok tokens
          /\ Forall (fun token => 0 <= token < Z.of_nat V) tokens
          /\ ASRModel.recognize fft cabsf logf regex_replace Run m audio
             = Ok (Tokenizer.decode regex_replace tk tokens, m)).
Proof.
  intros Hs Hap Htk Htab Hf Hrows Hfit. cbv zeta.
  assert (Hdim : 0 <= feature_dim features).
  { unfold feature_dim. destruct features; lia. }
  assert (Hrec : ASRModel.recognize fft cabsf logf regex_replace Run m audio
                 = match Run (concat features)
                             [ASRModel.batch_size (ASRModel.config_ m);
                              Z.of_nat (length features);
                              feature_dim features]
                             (Z.of_nat (length features))
                             (fst (ASRModel.getLanguageId m
                                     (ASRModel.language (ASRModel.config_ m))))
                             (fst (ASRModel.getTextnormId m
                                     (ASRModel.use_itn (ASRModel.config_ m))))
                   with
                   | ASRModel.RunFailed => Ok (EmptyString, m)
                   | ASRModel.RunOutputs output_tensors =>
                       match ASRModel.decode_outputs regex_replace m tk
                               output_tensors with
                       | Ok result => Ok (result, m)
                       | Throw _ => Ok (EmptyString, m)
                       | Undefined => Undefined
                       end
                   end).
  { unfold ASRModel.recognize. rewrite Hs, Hap, Htk, Hf. cbv zeta.
    fold (feature_dim features).
    rewrite check_size_ok; [|split; [nia | exact Hfit]|rewrite max_size_4; lia].
    rewrite (getLanguageId_ready m _ Htab), (getTextnormId_ready m _ Htab).
    rewrite to_int_small by lia. reflexivity. }
  split.
  - intros Hfail. rewrite Hrec, Hfail. reflexivity.
  - intros b T V logits rest Hout HT HV Hdata Hsize.
    rewrite Hrec, Hout. unfold ASRModel.decode_outputs.
    rewrite (vget_ok (_ :: rest) 0 _ eq_refl : vget (_ :: rest) 0 = Ok _).
    cbn [mbind outcome_bind ASRModel.shape ASRModel.data].
    rewrite (vget_ok [b; Z.of_nat T; Z.of_nat V] 1 _ eq_refl
             : vget _ 1 = Ok _).
    cbn [mbind outcome_bind].
    rewrite (vget_ok [b; Z.of_nat T; Z.of_nat V] 2 _ eq_refl
             : vget _ 2 = Ok _).
    cbn [mbind outcome_bind].
    rewrite !to_int_small by nia.
    replace (Z.of_nat T * Z.of_nat V) with (Z.of_nat (T * V)) by lia.
    destruct (Z.leb_spec (- 2 ^ 31) (Z.of_nat (T * V))); [|lia].
    destruct (Z.ltb_spec (Z.of_nat (T * V)) (2 ^ 31)); [|lia].
    cbn [andb].
    rewrite (vrange_ok logits 0 (T * V) ltac:(lia)
             : vrange logits 0 (Z.of_nat (T * V)) = Ok _).
    cbn [mbind outcome_bind].
    rewrite Nat.sub_0_r, drop_0.
    assert (Hlen : length (take (T * V) logits) = (V * T)%nat).
    { rewrite length_take. lia. }
    destruct (decodeCTC_unfold (ASRModel.blank_id_ m) (take (T * V) logits) T)
      as (Hdec & HV' & Hfit'); [rewrite Hlen; nia | rewrite Hlen; lia |].
    rewrite Hlen, Nat2Z.inj_mul, Z.div_mul in Hdec, HV', Hfit' by lia.
    destruct (decode_loop_range (ASRModel.blank_id_ m) (take (T * V) logits)
                (Z.of_nat V) T HV' 0 (-1) [])
      as (tokens & Hloop & _ & Hall);
      [lia | rewrite Hlen; lia |].
    rewrite Hloop in Hdec. cbn [app] in Hdec.
    exists tokens. split; [exact Hdec|]. split.
    + eapply Forall_impl; [exact Hall|]. intros token [Hr _]. exact Hr.
    + rewrite Hdec. cbn [mbind outcome_bind]. reflexivity.
Qed.
End Recognition.

Lemma recognize_short_waveform_witness :
  ASRModel.recognize (fun _ => []) fst (fun x => x) no_replace
    failing_recognizer default_model [F32.zero]
  = Ok (EmptyString, default_model).
Proof.
  apply (recognize_short_waveform (fun _ => []) fst (fun x => x) no_replace
           failing_recognizer default_model default_processor small_tokenizer
           [F32.zero]).
  - reflexivity.
  - reflexivity.
  - reflexivity.
  - reflexivity.
  - reflexivity.
  - simpl. lia.
Defined.

Lemma recognize_transcript_witness :
  exists text,
    ASRModel.recognize (fun _ => []) fst (fun x => x) no_replace
      sample_recognizer small_model (replicate 10 F32.one)
    = Ok (text, small_model).
Proof.
  destruct (AudioProcessor.extractFeatures (fun _ => []) fst (fun x => x)
              small_processor (replicate 10 F32.one))
    as [features| |] eqn:E; [|vm_compute in E; discriminate..].
  assert (Hshape : Z.of_nat (length features) = 1
                   /\ feature_dim features = 14).
  { vm_compute in E. injection E as <-. split; reflexivity. }
  destruct Hshape as [Hrows Hdim].
  destruct (recognize_transcript (fun _ => []) fst (fun x => x) no_replace
              sample_recognizer small_model small_processor small_tokenizer
              (replicate 10 F32.one) features)
    as [_ Hok].
  - reflexivity.
  - reflexivity.
  - reflexivity.
  - unfold tables_ready. repeat split; eexists; vm_compute; reflexivity.
  - exact E.
  - rewrite Hrows. lia.
  - rewrite Hrows, Hdim, max_size_4. lia.
  - destruct (Hok 1 2%nat 4%nat sample_logits []) as (tokens & _ & _ & H).
    + reflexivity.
    + lia.
    + lia.
    + simpl. lia.
    + simpl. lia.
    + eexists. exact H.
Defined.
(** ** Sessions of the detector *)

Section Session.
Variable Run : list F32.t -> list F32.t -> Z -> VADDetector.run_result.
Hypothesis Hsound : engine_sound Run.

Lemma detectVAD_step (d : VADDetector.t) (audio : list F32.t) :
  detector_ready d ->
  length (VADDetector.state_c_ d) = length (VADDetector.state_h_ d) ->
  exists p d',
    VADDetector.detectVAD Run d audio = Ok (p, d')
    /\ detector_ready d'
    /\ length (VADDetector.state_h_ d') = length (VADDetector.state_h_ d)
    /\ length (VADDetector.state_c_ d') = length (VADDetector.state_h_ d).
Proof using Hsound.
  intros Hr Hc. rewrite detectVAD_ready by assumption.
  set (x := model_input d audio).
  assert (Hx : (length (VADDetector.context_ d) <= length x)%nat).
  { unfold x, model_input. rewrite length_app. lia. }
  pose proof (rolled_ready d x Hr Hx) as Hr'.
  destruct (Run x (VADDetector.state_h_ (rolled d x))
              (VADDetector.sample_rate (VADDetector.config_ (rolled d x))))
    as [|outs] eqn:ERun.
  - unfold VADDetector.infer. rewrite ERun.
    exists F32.zero, (rolled d x). split; [reflexivity|].
    split; [exact Hr'|]. split; [reflexivity | exact Hc].
  - destruct (Hsound _ _ _ _ ERun)
      as (prob & prob_rest & new_h & new_c & rest & -> & Hh & Hcc).
    rewrite (infer_success Run (rolled d x) x prob prob_rest new_h new_c rest
               ERun Hh).
    2:{ cbn [rolled VADDetector.with_context VADDetector.state_c_
             VADDetector.state_h_] in *. lia. }
    eexists _, _. split; [reflexivity|].
    cbn [rolled VADDetector.smooth VADDetector.with_history
         VADDetector.with_state_c VADDetector.with_state_h
         VADDetector.with_context VADDetector.state_h_ VADDetector.state_c_
         VADDetector.config_ VADDetector.context_ snd] in *.
    split.
    + destruct Hr' as (H1 & H2 & H3 & H4 & H5). repeat split; assumption.
    + rewrite !length_take. lia.
Qed.

Lemma detect_all_total (frames : list (list F32.t)) :
  forall d,
    detector_ready d ->
    length (VADDetector.state_c_ d) = length (VADDetector.state_h_ d) ->
    exists probs,
      VADDetector.detect_all Run d frames = Ok probs
      /\ length probs = length frames.
Proof using Hsound.
  induction frames as [|frame frames IH]; intros d Hr Hc.
  - exists []. split; reflexivity.
  - destruct (detectVAD_step d frame Hr Hc) as (p & d' & H & Hr' & Hh & Hc').
    cbn [VADDetector.detect_all]. rewrite H. cbn [mbind outcome_bind snd fst].
    destruct (IH d' Hr' ltac:(lia)) as (probs & Hp & Hl).
    rewrite Hp. cbn [mbind outcome_bind].
    exists (p :: probs). split; [reflexivity | simpl; lia].
Qed.

(** X14.  Against an engine that answers well-formed tensors or fails, a
    session on an initialised detector returns exactly one probability
    for every frame, whatever the lengths of the frames. *)
Theorem session_total (d : VADDetector.t) (frames : list (list F32.t)) :
  VADDetector.session_ d = true ->
  0 < VADDetector.window_size (VADDetector.config_ d) ->
  0 <= VADDetector.context_size (VADDetector.config_ d) ->
  VADDetector.context_size (VADDetector.config_ d)
  + VADDetector.window_size (VADDetector.config_ d) < 2 ^ 31 ->
  exists probs,
    VADDetector.session Run d frames = Ok probs
    /\ length probs = length frames.
Proof using Hsound.
  intros Hs Hw Hc Hsum. unfold VADDetector.session, VADDetector.reset.
  rewrite Z.mul_1_l.
  rewrite check_size_ok by (rewrite ?max_size_4; lia).
  cbn [mbind outcome_bind].
  apply detect_all_total.
  - unfold detector_ready.
    cbn [VADDetector.session_ VADDetector.config_ VADDetector.context_].
    rewrite length_replicate. repeat split; try assumption; lia.
  - cbn [VADDetector.state_h_ VADDetector.state_c_].
    rewrite !length_replicate. reflexivity.
Qed.
End Session.

Lemma sample_engine_sound : engine_sound sample_engine.
Proof.
  intros x h sr outs [= <-]. eexists _, _, _, _, _. split; [reflexivity|].
  rewrite length_map. split; lia.
Qed.

Lemma session_total_witness :
  exists probs,
    VADDetector.session sample_engine used_detector [[]; replicate 600 F32.one]
    = Ok probs
    /\ length probs = 2%nat.
Proof.
  apply (session_total sample_engine sample_engine_sound used_detector
           [[]; replicate 600 F32.one]).
  - reflexivity.
  - cbn. lia.
  - cbn. lia.
  - cbn. lia.
Defined.

(** ** The smoothing window *)


(** ** Invariants of a capture session *)

Section CaptureInvariants.
Variable Run : list F32.t -> list F32.t -> Z -> VADDetector.run_result.

Lemma callbacks_idle (events : list (list F32.t * Z)) :
  forall r r', AudioRecorder.callbacks Run r events = Ok r' ->
    AudioRecorder.speech_detected_ r' = false ->
    AudioRecorder.speech_detected_ r = false
    /\ AudioRecorder.should_stop_ r' = AudioRecorder.should_stop_ r
    /\ AudioRecorder.audio_buffer_ r' = AudioRecorder.audio_buffer_ r
    /\ AudioRecorder.last_speech_time_ r' = AudioRecorder.last_speech_time_ r.
Proof.
  induction events as [|[frame now] events IH]; intros r r' H Hidle.
  - injection H as <-. auto.
  - cbn [AudioRecorder.callbacks] in H.
    destruct (AudioRecorder.processAudioFrame Run r frame now) as [r1| |] eqn:E;
      cbn [mbind outcome_bind] in H; try discriminate.
    destruct (IH _ _ H Hidle) as (H1 & Hstop & Hbuf & Hlast).
    destruct (processAudioFrame_step _ _ _ _ _ E)
      as (p & r0 & _ & _ & _ & _ & Hs & Hl & Ha & Hst).
    rewrite H1 in Hs, Ha, Hst.
    symmetry in Hs. apply orb_false_elim in Hs as [Hs0 Hsp].
    rewrite Hsp in Hl. split; [exact Hs0|].
    split; [congruence|]. split; congruence.
Qed.

(** X16.  As long as no frame has been taken for speech, no callback sets
    the stop flag, whatever the clock says: neither the silence limit
    nor [max_record_time] applies before the trigger, and nothing is
    recorded. *)
Theorem idle_never_stops (r r' : AudioRecorder.t)
    (events : list (list F32.t * Z)) :
  AudioRecorder.callbacks Run r events = Ok r' ->
  AudioRecorder.speech_detected_ r' = false ->
  AudioRecorder.should_stop_ r' = AudioRecorder.should_stop_ r
  /\ AudioRecorder.audio_buffer_ r' = AudioRecorder.audio_buffer_ r
  /\ AudioRecorder.last_speech_time_ r' = AudioRecorder.last_speech_time_ r.
Proof.
  intros H Hidle. destruct (callbacks_idle events r r' H Hidle) as (_ & Hrest).
  exact Hrest.
Qed.

(** Once speech has been detected, every later callback appends its
    frame to [audio_buffer_], once and in order, also after the stop flag
    has been set. *)
Lemma callbacks_recording (events : list (list F32.t * Z)) :
  forall r r',
    AudioRecorder.speech_detected_ r = true ->
    AudioRecorder.callbacks Run r events = Ok r' ->
    AudioRecorder.audio_buffer_ r'
    = AudioRecorder.audio_buffer_ r ++ concat (map fst events).
Proof.
  induction events as [|[frame now] events IH]; intros r r' Hsd H.
  - injection H as <-. cbn. rewrite app_nil_r. reflexivity.
  - cbn [AudioRecorder.callbacks] in H.
    destruct (AudioRecorder.processAudioFrame Run r frame now) as [r1| |] eqn:E;
      cbn [mbind outcome_bind] in H; try discriminate.
    destruct (processAudioFrame_step _ _ _ _ _ E)
      as (p & r0 & _ & _ & _ & _ & Hs & _ & Ha & _).
    rewrite Hsd in Hs. cbn [orb] in Hs.
    rewrite Hs, Hsd in Ha. rewrite andb_false_r in Ha.
    rewrite (IH r1 r' Hs H), Ha. cbn [map concat fst].
    rewrite <- app_assoc. reflexivity.
Qed.

(** The pre-speech ring is a tail of what has been heard. *)
Lemma callbacks_ring_suffix (events : list (list F32.t * Z)) :
  forall r r', AudioRecorder.callbacks Run r events = Ok r' ->
    exists dropped,
      dropped ++ AudioRecorder.pre_speech_buffer_ r'
      = AudioRecorder.pre_speech_buffer_ r ++ concat (map fst events).
Proof.
  induction events as [|[frame now] events IH]; intros r r' H.
  - injection H as <-. exists []. cbn. rewrite app_nil_r. reflexivity.
  - cbn [AudioRecorder.callbacks] in H.
    destruct (AudioRecorder.processAudioFrame Run r frame now) as [r1| |] eqn:E;
      cbn [mbind outcome_bind] in H; try discriminate.
    destruct (processAudioFrame_step _ _ _ _ _ E)
      as (p & r0 & _ & _ & _ & Hring & _).
    destruct (IH r1 r' H) as (dropped & Hd).
    unfold AudioRecorder.push_pre_speech in Hring.
    destruct (_ <? _) in Hring.
    + exists (take (Z.to_nat (AudioRecorder.frames_per_buffer
                               (AudioRecorder.config_ r)))
                   (AudioRecorder.pre_speech_buffer_ r) ++ dropped).
      rewrite <- app_assoc, Hd, Hring. cbn [map concat fst].
      rewrite !app_assoc, take_drop. reflexivity.
    + exists dropped. rewrite Hd, Hring. cbn [map concat fst].
      rewrite app_assoc. reflexivity.
Qed.

(** The callback on which speech is detected for the first time. *)
Lemma callbacks_trigger (events : list (list F32.t * Z)) :
  forall r r', AudioRecorder.callbacks Run r events = Ok r' ->
    AudioRecorder.speech_detected_ r = false ->
    AudioRecorder.speech_detected_ r' = true ->
    exists before frame now after r1 r2,
      events = before ++ (frame, now) :: after
      /\ AudioRecorder.callbacks Run r before = Ok r1
      /\ AudioRecorder.speech_detected_ r1 = false
      /\ AudioRecorder.processAudioFrame Run r1 frame now = Ok r2
      /\ AudioRecorder.speech_detected_ r2 = true
      /\ AudioRecorder.callbacks Run r2 after = Ok r'.
Proof.
  induction events as [|[frame now] events IH]; intros r r' H Hidle Hsd.
  - injection H as <-. congruence.
  - cbn [AudioRecorder.callbacks] in H.
    destruct (AudioRecorder.processAudioFrame Run r frame now) as [r1| |] eqn:E;
      cbn [mbind outcome_bind] in H; try discriminate.
    destruct (AudioRecorder.speech_detected_ r1) eqn:E1.
    + exists [], frame, now, events, r, r1. repeat split; auto.
    + destruct (IH r1 r' H E1 Hsd)
        as (before & f & n & after & r2 & r3 & -> & Hb & H2 & Hp & H3 & Ha).
      exists ((frame, now) :: before), f, n, after, r2, r3.
      split; [reflexivity|]. split.
      { cbn [AudioRecorder.callbacks]. rewrite E. exact Hb. }
      auto.
Qed.

(** The verdicts exist for every session whose callbacks return. *)
Lemma verdicts_total (events : list (list F32.t * Z)) :
  forall r r', AudioRecorder.callbacks Run r events = Ok r' ->
    exists vs, verdicts Run r events = Ok vs.
Proof.
  induction events as [|[frame now] events IH]; intros r r' H.
  - exists []. reflexivity.
  - cbn [AudioRecorder.callbacks] in H.
    destruct (AudioRecorder.processAudioFrame Run r frame now) as [r1| |] eqn:E;
      cbn [mbind outcome_bind] in H; try discriminate.
    destruct (processAudioFrame_step _ _ _ _ _ E) as (p & r0 & Hv & _).
    destruct (IH r1 r' H) as (vs & Hvs).
    exists (AudioRecorder.is_speech (AudioRecorder.config_ r) p :: vs).
    cbn [verdicts]. rewrite Hv, E. cbn [mbind outcome_bind fst].
    rewrite Hvs. reflexivity.
Qed.

(** A session that ends with [speech_detected_] clear has taken none of
    its frames for speech. *)
Lemma verdicts_idle (events : list (list F32.t * Z)) :
  forall r r', AudioRecorder.callbacks Run r events = Ok r' ->
    AudioRecorder.speech_detected_ r' = false ->
    verdicts Run r events = Ok (replicate (length events) false).
Proof.
  induction events as [|[frame now] events IH]; intros r r' H Hidle.
  - reflexivity.
  - cbn [AudioRecorder.callbacks] in H.
    destruct (AudioRecorder.processAudioFrame Run r frame now) as [r1| |] eqn:E;
      cbn [mbind outcome_bind] in H; try discriminate.
    destruct (processAudioFrame_step _ _ _ _ _ E)
      as (p & r0 & Hv & _ & _ & _ & Hs & _).
    destruct (callbacks_idle events r1 r' H Hidle) as (Hidle1 & _).
    rewrite Hidle1 in Hs. symmetry in Hs.
    apply orb_false_elim in Hs as [_ Hp].
    cbn [verdicts]. rewrite Hv, E. cbn [mbind outcome_bind fst].
    rewrite (IH r1 r' H Hidle), Hp. reflexivity.
Qed.

(** The callback that sets [speech_detected_] is the first whose frame is
    taken for speech. *)
Lemma verdicts_trigger (before : list (list F32.t * Z)) :
  forall r r1 r2 r' frame now after,
    AudioRecorder.callbacks Run r before = Ok r1 ->
    AudioRecorder.speech_detected_ r1 = false ->
    AudioRecorder.processAudioFrame Run r1 frame now = Ok r2 ->
    AudioRecorder.speech_detected_ r2 = true ->
    AudioRecorder.callbacks Run r2 after = Ok r' ->
    exists later,
      verdicts Run r (before ++ (frame, now) :: after)
      = Ok (replicate (length before) false ++ true :: later).
Proof.
  induction before as [|[f n] before IH];
    intros r r1 r2 r' frame now after Hb Hidle1 Hp Hsd2 Ha.
  - injection Hb as ->.
    destruct (processAudioFrame_step _ _ _ _ _ Hp)
      as (p & r0 & Hv & _ & _ & _ & Hs & _).
    rewrite Hsd2, Hidle1 in Hs. cbn [orb] in Hs.
    destruct (verdicts_total after r2 r' Ha) as (later & Hl).
    exists later. cbn [app length replicate verdicts].
    rewrite Hv, Hp. cbn [mbind outcome_bind fst]. rewrite Hl, <- Hs. reflexivity.
  - cbn [AudioRecorder.callbacks] in Hb.
    destruct (AudioRecorder.processAudioFrame Run r f n) as [ra| |] eqn:E;
      cbn [mbind outcome_bind] in Hb; try discriminate.
    destruct (processAudioFrame_step _ _ _ _ _ E)
      as (p & r0 & Hv & _ & _ & _ & Hs & _).
    destruct (callbacks_idle before ra r1 Hb Hidle1) as (Hidlea & _).
    rewrite Hidlea in Hs. symmetry in Hs.
    apply orb_false_elim in Hs as [_ Hpf].
    destruct (IH ra r1 r2 r' frame now after Hb Hidle1 Hp Hsd2 Ha)
      as (later & Hl).
    exists later. cbn [app length replicate verdicts].
    rewrite Hv, E. cbn [mbind outcome_bind fst]. rewrite Hl, Hpf. reflexivity.
Qed.

(** X17.  What a session records.  From the state that [recordAudio]
    sets up, the callbacks leave [audio_buffer_] empty as long as no
    frame is taken for speech.  Otherwise, with [frame] the first frame
    taken for speech (every verdict before it is negative, its own is
    positive), the buffer is the pre-speech ring as the callback of
    [frame] leaves it, which is a tail of what was heard up to [frame]
    and ends with [frame] itself, then [frame] once more, then every
    later frame in order. *)
Theorem recording_content (r r0 r' : AudioRecorder.t) (start : Z)
    (events : list (list F32.t * Z)) :
  AudioRecorder.recordAudio_reset r start = Ok r0 ->
  AudioRecorder.callbacks Run r0 events = Ok r' ->
  if AudioRecorder.speech_detected_ r'
  then exists before frame now after later r2 dropped kept,
         events = before ++ (frame, now) :: after
         /\ verdicts Run r0 events
            = Ok (replicate (length before) false ++ true :: later)
         /\ AudioRecorder.callbacks Run r0 (before ++ [(frame, now)]) = Ok r2
         /\ AudioRecorder.pre_speech_buffer_ r2 = kept ++ frame
         /\ dropped ++ kept = concat (map fst before)
         /\ AudioRecorder.audio_buffer_ r'
            = AudioRecorder.pre_speech_buffer_ r2
              ++ frame ++ concat (map fst after)
  else verdicts Run r0 events = Ok (replicate (length events) false)
       /\ AudioRecorder.audio_buffer_ r' = [].
Proof.
  intros Hreset H.
  assert (Hr0 : AudioRecorder.speech_detected_ r0 = false
                /\ AudioRecorder.audio_buffer_ r0 = []
                /\ AudioRecorder.pre_speech_buffer_ r0 = []).
  { unfold AudioRecorder.recordAudio_reset in Hreset.
    destruct (match AudioRecorder.vad_detector_ r with
              | Some d => _
              | None => _
              end) as [d| |]; cbn [mbind outcome_bind] in Hreset;
      try discriminate.
    injection Hreset as <-. repeat split. }
  destruct Hr0 as (Hidle0 & Hbuf0 & Hring0).
  destruct (AudioRecorder.speech_detected_ r') eqn:Hsd.
  - destruct (callbacks_trigger events r0 r' H Hidle0 Hsd)
      as (before & frame & now & after & r1 & r2
          & -> & Hb & Hidle1 & Hp & Hsd2 & Ha).
    destruct (callbacks_idle before r0 r1 Hb Hidle1) as (_ & _ & Hbuf1 & _).
    destruct (callbacks_ring_suffix before r0 r1 Hb) as (dropped1 & Hd1).
    rewrite Hring0 in Hd1. cbn [app] in Hd1.
    destruct (processAudioFrame_step _ _ _ _ _ Hp)
      as (p & r3 & _ & _ & _ & Hring & Hs & _ & Hab & _).
    rewrite Hsd2 in Hab. rewrite Hsd2, Hidle1 in Hs. cbn [orb] in Hs.
    rewrite <- Hs, Hidle1, Hbuf1, Hbuf0 in Hab. cbn [andb negb app] in Hab.
    pose proof (callbacks_recording after r2 r' Hsd2 Ha) as Hrest.
    destruct (verdicts_trigger before r0 r1 r2 r' frame now after
                Hb Hidle1 Hp Hsd2 Ha) as (later & Hl).
    unfold AudioRecorder.push_pre_speech in Hring.
    set (fpb := AudioRecorder.frames_per_buffer (AudioRecorder.config_ r1)) in Hring.
    set (trim := to_size_t (fpb * 10)
                 <? Z.of_nat (length (AudioRecorder.pre_speech_buffer_ r1)))
      in Hring.
    exists before, frame, now, after, later, r2,
      (dropped1 ++ if trim
                   then take (Z.to_nat fpb) (AudioRecorder.pre_speech_buffer_ r1)
                   else []),
      (if trim then drop (Z.to_nat fpb) (AudioRecorder.pre_speech_buffer_ r1)
       else AudioRecorder.pre_speech_buffer_ r1).
    split; [reflexivity|]. split; [exact Hl|]. split.
    { rewrite callbacks_app, Hb. cbn [mbind outcome_bind AudioRecorder.callbacks].
      rewrite Hp. reflexivity. }
    split; [exact Hring|]. split.
    + rewrite <- Hd1, <- app_assoc. f_equal.
      destruct trim; [apply take_drop | reflexivity].
    + rewrite Hrest, Hab, <- app_assoc. reflexivity.
  - split; [exact (verdicts_idle events r0 r' H Hsd)|].
    destruct (callbacks_idle events r0 r' H Hsd) as (_ & _ & Hbuf & _).
    rewrite Hbuf. exact Hbuf0.
Qed.

Lemma callbacks_stop_sticky (events : list (list F32.t * Z)) :
  forall r r', AudioRecorder.callbacks Run r events = Ok r' ->
    AudioRecorder.should_stop_ r = true ->
    AudioRecorder.should_stop_ r' = true.
Proof.
  induction events as [|[frame now] events IH]; intros r r' H Hstop.
  - injection H as <-. exact Hstop.
  - cbn [AudioRecorder.callbacks] in H.
    destruct (AudioRecorder.processAudioFrame Run r frame now) as [r1| |] eqn:E;
      cbn [mbind outcome_bind] in H; try discriminate.
    apply (IH _ _ H).
    destruct (processAudioFrame_step _ _ _ _ _ E)
      as (p & r0 & _ & _ & _ & _ & _ & _ & _ & Hst).
    rewrite Hst, Hstop.
    destruct (AudioRecorder.speech_detected_ r1);
      repeat destruct (F64.gtb _ _); reflexivity.
Qed.

(** X18.  The session only moves forward: a stopped session stays
    stopped, and a recording one never becomes idle again. *)
Theorem capture_state_forward (r r' : AudioRecorder.t)
    (events : list (list F32.t * Z)) :
  AudioRecorder.callbacks Run r events = Ok r' ->
  (AudioRecorder.state r = AudioRecorder.Stopped ->
   AudioRecorder.state r' = AudioRecorder.Stopped)
  /\ (AudioRecorder.state r = AudioRecorder.Recording ->
      AudioRecorder.state r' <> AudioRecorder.Idle).
Proof.
  intros H. pose proof (callbacks_stop_sticky events r r' H) as Hstop.
  destruct (callbacks_invariant Run events r r' H) as (_ & _ & Hsd & _).
  unfold AudioRecorder.state. split.
  - destruct (AudioRecorder.should_stop_ r).
    + intros _. rewrite (Hstop eq_refl). reflexivity.
    + destruct (AudioRecorder.speech_detected_ r); discriminate.
  - destruct (AudioRecorder.should_stop_ r); [discriminate|].
    destruct (AudioRecorder.speech_detected_ r); [|discriminate].
    intros _. rewrite (Hsd eq_refl).
    destruct (AudioRecorder.should_stop_ r'); discriminate.
Qed.

Lemma push_pre_speech_bound (cfg : AudioRecorder.Config)
    (pre frame : list F32.t) :
  0 < AudioRecorder.frames_per_buffer cfg ->
  AudioRecorder.frames_per_buffer cfg * 10 < 2 ^ 31 ->
  Z.of_nat (length frame) <= AudioRecorder.frames_per_buffer cfg ->
  Z.of_nat (length pre) <= 11 * AudioRecorder.frames_per_buffer cfg ->
  Z.of_nat (length (AudioRecorder.push_pre_speech cfg pre frame))
  <= 11 * AudioRecorder.frames_per_buffer cfg
  /\ exists dropped,
       dropped ++ AudioRecorder.push_pre_speech cfg pre frame = pre ++ frame.
Proof.
  intros Hfpb Hmul Hframe Hpre. unfold AudioRecorder.push_pre_speech.
  rewrite to_size_t_small by lia.
  destruct (Z.ltb_spec (AudioRecorder.frames_per_buffer cfg * 10)
              (Z.of_nat (length pre))).
  - split.
    + rewrite length_app, length_drop. lia.
    + exists (take (Z.to_nat (AudioRecorder.frames_per_buffer cfg)) pre).
      rewrite app_assoc, take_drop. reflexivity.
  - split.
    + rewrite length_app. lia.
    + exists []. reflexivity.
Qed.

(** X19.  With callback buffers of at most [frames_per_buffer] samples,
    the pre-speech ring never holds more than eleven buffers, and it is
    always the tail of what has been heard. *)
Theorem pre_speech_ring (events : list (list F32.t * Z)) :
  forall r r',
    0 < AudioRecorder.frames_per_buffer (AudioRecorder.config_ r) ->
    AudioRecorder.frames_per_buffer (AudioRecorder.config_ r) * 10 < 2 ^ 31 ->
    Forall (fun event =>
              Z.of_nat (length (fst event))
              <= AudioRecorder.frames_per_buffer (AudioRecorder.config_ r))
           events ->
    Z.of_nat (length (AudioRecorder.pre_speech_buffer_ r))
    <= 11 * AudioRecorder.frames_per_buffer (AudioRecorder.config_ r) ->
    AudioRecorder.callbacks Run r events = Ok r' ->
    Z.of_nat (length (AudioRecorder.pre_speech_buffer_ r'))
    <= 11 * AudioRecorder.frames_per_buffer (AudioRecorder.config_ r)
    /\ exists dropped,
         dropped ++ AudioRecorder.pre_speech_buffer_ r'
         = AudioRecorder.pre_speech_buffer_ r ++ concat (map fst events).
Proof.
  induction events as [|[frame now] events IH]; intros r r' Hfpb Hmul Hall Hpre H.
  - injection H as <-. split; [exact Hpre|]. exists [].
    cbn. rewrite app_nil_r. reflexivity.
  - cbn [AudioRecorder.callbacks] in H.
    destruct (AudioRecorder.processAudioFrame Run r frame now) as [r1| |] eqn:E;
      cbn [mbind outcome_bind] in H; try discriminate.
    destruct (processAudioFrame_step _ _ _ _ _ E)
      as (p & r0 & _ & Hcfg & _ & Hring & _).
    apply Forall_cons in Hall as [Hframe Hall]. cbn [fst] in Hframe.
    destruct (push_pre_speech_bound (AudioRecorder.config_ r)
                (AudioRecorder.pre_speech_buffer_ r) frame Hfpb Hmul Hframe Hpre)
      as [Hb (dropped1 & Hd1)].
    rewrite <- Hring in Hb, Hd1.
    destruct (IH r1 r') as [Hb' (dropped2 & Hd2)];
      rewrite ?Hcfg; try assumption.
    rewrite Hcfg in Hb'. split; [exact Hb'|].
    exists (dropped1 ++ dropped2). cbn [map concat fst].
    rewrite <- app_assoc, Hd2, app_assoc, Hd1, <- app_assoc. reflexivity.
Qed.

(** X20.  Whenever the neural variant has run, [vad_buffer_] holds at most
    1024 samples, the most recent ones. *)
Theorem vad_buffer_bound (r r' : AudioRecorder.t) (d : VADDetector.t)
    (audio_chunk resampled : list F32.t) (p : F32.t) :
  AudioRecorder.vad_detector_ r = Some d ->
  AudioRecorder.resample (AudioRecorder.config_ r) audio_chunk = Ok resampled ->
  AudioRecorder.computeSileroVAD Run r audio_chunk = Ok (p, r') ->
  (length (AudioRecorder.vad_buffer_ r') <= 1024)%nat
  /\ exists dropped,
       dropped ++ AudioRecorder.vad_buffer_ r'
       = AudioRecorder.vad_buffer_ r ++ resampled.
Proof.
  intros Hd Hres H. unfold AudioRecorder.computeSileroVAD in H.
  rewrite Hd, Hres in H. cbn [mbind outcome_bind] in H.
  change AudioRecorder.VAD_WINDOW_SIZE with 512%nat in H.
  set (buffer := AudioRecorder.vad_buffer_ r ++ resampled) in *.
  case_decide as Hfull.
  - destruct (VADDetector.detectVAD Run d _) as [pd| |];
      cbn [mbind outcome_bind] in H; try discriminate.
    injection H as _ <-. cbn [AudioRecorder.with_vad AudioRecorder.vad_buffer_].
    case_decide as Hlong.
    + unfold AudioRecorder.last_n. rewrite length_drop. split; [lia|].
      exists (take (length buffer - 512) buffer). apply take_drop.
    + split; [lia|]. exists []. reflexivity.
  - injection H as _ <-. cbn [AudioRecorder.with_vad AudioRecorder.vad_buffer_].
    split; [lia|]. exists []. reflexivity.
Qed.
End CaptureInvariants.

(** ** The energy detector on silence *)

Lemma energy_of_silence (n : nat) :
  fold_left (fun energy x => F32.add energy (F32.mul x x))
            (replicate n F32.zero) F32.zero = F32.zero.
Proof. induction n as [|n IH]; [reflexivity|]. cbn [replicate fold_left]. exact IH. Qed.

(** X21.  A buffer of silence has the probability 0 whatever its length,
    an empty buffer has the probability NaN, and neither is ever
    speech when the trigger threshold is not negative. *)
Theorem computeEnergyVAD_silence (cfg : AudioRecorder.Config) (n : nat) :
  F64.ltb (AudioRecorder.trigger_threshold cfg) F64.zero = false ->
  Z.of_nat n < 2 ^ 64 ->
  AudioRecorder.computeEnergyVAD (replicate n F32.zero)
  = (if decide (n = 0%nat) then F32.nan else F32.zero)
  /\ AudioRecorder.is_speech cfg
       (AudioRecorder.computeEnergyVAD (replicate n F32.zero)) = false.
Proof.
  intros Hthr Hn.
  assert (H : AudioRecorder.computeEnergyVAD (replicate n F32.zero)
              = if decide (n = 0%nat) then F32.nan else F32.zero).
  { unfold AudioRecorder.computeEnergyVAD.
    rewrite energy_of_silence, length_replicate.
    case_decide as E.
    - subst n. vm_compute. reflexivity.
    - change F32.zero with (F32.of_Z 0) at 1.
      rewrite F32_div_zero by lia. vm_compute. reflexivity. }
  split; [exact H|]. rewrite H. unfold AudioRecorder.is_speech.
  case_decide.
  - unfold F64.gtb. change (F64.of_f32 F32.nan) with S754_nan.
    destruct (AudioRecorder.trigger_threshold cfg) as [| | |[] [] ?];
      reflexivity.
  - exact Hthr.
Qed.

(** A silent buffer one hundred seconds into the session: the cap of
    five seconds has long passed, and the session is still idle. *)
Lemma idle_never_stops_witness :
  exists r',
    AudioRecorder.callbacks failing_engine energy_recorder
      [(silent_frame, 100 * second)] = Ok r'
    /\ AudioRecorder.should_stop_ r' = false
    /\ AudioRecorder.audio_buffer_ r' = [].
Proof.
  destruct (AudioRecorder.callbacks failing_engine energy_recorder
              [(silent_frame, 100 * second)]) as [r'| |] eqn:E;
    [|vm_compute in E; discriminate..].
  assert (Hidle : AudioRecorder.speech_detected_ r' = false).
  { vm_compute in E. injection E as <-. reflexivity. }
  destruct (idle_never_stops failing_engine energy_recorder r'
              [(silent_frame, 100 * second)] E Hidle) as (Hs & Hb & _).
  exists r'. split; [first [reflexivity | eassumption]|]. split; [exact Hs | exact Hb].
Defined.

(** A silent buffer, a loud one and a silent one: the loud buffer is
    recorded twice. *)
Lemma recording_content_witness :
  exists r0 r',
    AudioRecorder.recordAudio_reset energy_recorder 0 = Ok r0
    /\ AudioRecorder.callbacks failing_engine r0
         [(silent_frame, second); (loud_frame, 2 * second);
          (silent_frame, 3 * second)] = Ok r'
    /\ verdicts failing_engine r0
         [(silent_frame, second); (loud_frame, 2 * second);
          (silent_frame, 3 * second)] = Ok [false; true; false]
    /\ AudioRecorder.audio_buffer_ r'
       = silent_frame ++ loud_frame ++ loud_frame ++ silent_frame
    /\ exists before frame now after later r2 dropped kept,
         [(silent_frame, second); (loud_frame, 2 * second);
          (silent_frame, 3 * second)] = before ++ (frame, now) :: after
         /\ verdicts failing_engine r0
              [(silent_frame, second); (loud_frame, 2 * second);
               (silent_frame, 3 * second)]
            = Ok (replicate (length before) false ++ true :: later)
         /\ AudioRecorder.callbacks failing_engine r0 (before ++ [(frame, now)])
            = Ok r2
         /\ AudioRecorder.pre_speech_buffer_ r2 = kept ++ frame
         /\ dropped ++ kept = concat (map fst before)
         /\ AudioRecorder.audio_buffer_ r'
            = AudioRecorder.pre_speech_buffer_ r2
              ++ frame ++ concat (map fst after).
Proof.
  destruct (AudioRecorder.recordAudio_reset energy_recorder 0)
    as [r0| |] eqn:E0; [|vm_compute in E0; discriminate..].
  destruct (AudioRecorder.callbacks failing_engine r0
              [(silent_frame, second); (loud_frame, 2 * second);
               (silent_frame, 3 * second)]) as [r'| |] eqn:E;
    [|vm_compute in E0; injection E0 as <-; vm_compute in E; discriminate..].
  assert (Hsd : AudioRecorder.speech_detected_ r' = true).
  { vm_compute in E0. injection E0 as <-.
    vm_compute in E. injection E as <-. reflexivity. }
  pose proof (recording_content failing_engine energy_recorder r0 r' 0
                [(silent_frame, second); (loud_frame, 2 * second);
                 (silent_frame, 3 * second)] E0 E) as H.
  rewrite Hsd in H.
  exists r0, r'. split; [reflexivity|]. split; [exact E|].
  split.
  { vm_compute in E0. injection E0 as <-. vm_compute. reflexivity. }
  split; [|exact H].
  vm_compute in E0. injection E0 as <-.
  vm_compute in E. injection E as <-. vm_compute. reflexivity.
Defined.

Lemma capture_state_forward_witness :
  exists r r',
    AudioRecorder.callbacks failing_engine energy_recorder
      [(loud_frame, second)] = Ok r
    /\ AudioRecorder.callbacks failing_engine r [(silent_frame, 3 * second)]
       = Ok r'
    /\ AudioRecorder.state r = AudioRecorder.Recording
    /\ AudioRecorder.state r' <> AudioRecorder.Idle.
Proof.
  destruct (AudioRecorder.callbacks failing_engine energy_recorder
              [(loud_frame, second)]) as [r| |] eqn:E;
    [|vm_compute in E; discriminate..].
  assert (Hst : AudioRecorder.state r = AudioRecorder.Recording).
  { vm_compute in E. injection E as <-. reflexivity. }
  destruct (AudioRecorder.callbacks failing_engine r [(silent_frame, 3 * second)])
    as [r'| |] eqn:E';
    [|vm_compute in E; injection E as <-; vm_compute in E'; discriminate..].
  destruct (capture_state_forward failing_engine r r'
              [(silent_frame, 3 * second)] E') as [_ H].
  exists r, r'. split; [first [reflexivity | eassumption]|].
  split; [first [reflexivity | eassumption]|].
  split; [exact Hst | exact (H Hst)].
Defined.

Lemma pre_speech_ring_witness :
  exists r',
    AudioRecorder.callbacks failing_engine energy_recorder
      [(silent_frame, second); (silent_frame, 2 * second)] = Ok r'
    /\ Z.of_nat (length (AudioRecorder.pre_speech_buffer_ r')) <= 5632.
Proof.
  destruct (AudioRecorder.callbacks failing_engine energy_recorder
              [(silent_frame, second); (silent_frame, 2 * second)])
    as [r'| |] eqn:E; [|vm_compute in E; discriminate..].
  destruct (pre_speech_ring failing_engine
              [(silent_frame, second); (silent_frame, 2 * second)]
              energy_recorder r') as [H _].
  - cbn. lia.
  - cbn. lia.
  - repeat constructor; cbn; vm_compute; discriminate.
  - cbn. lia.
  - exact E.
  - exists r'. split; [first [reflexivity | eassumption] | exact H].
Defined.

Lemma vad_buffer_bound_witness :
  exists p r',
    AudioRecorder.computeSileroVAD sample_engine silero_recorder
      (replicate 2000 F32.one) = Ok (p, r')
    /\ (length (AudioRecorder.vad_buffer_ r') <= 1024)%nat.
Proof.
  destruct (AudioRecorder.computeSileroVAD sample_engine silero_recorder
              (replicate 2000 F32.one)) as [[p r']| |] eqn:E;
    [|vm_compute in E; discriminate..].
  destruct (vad_buffer_bound sample_engine silero_recorder r' fresh_detector
              (replicate 2000 F32.one) (replicate 2000 F32.one) p
              eq_refl eq_refl E) as [H _].
  exists p, r'. split; [first [reflexivity | eassumption] | exact H].
Defined.

Lemma computeEnergyVAD_silence_witness :
  AudioRecorder.computeEnergyVAD (replicate 512 F32.zero) = F32.zero
  /\ AudioRecorder.is_speech AudioRecorder.default_config
       (AudioRecorder.computeEnergyVAD (replicate 512 F32.zero)) = false.
Proof.
  apply (computeEnergyVAD_silence AudioRecorder.default_config 512).
  - vm_compute. reflexivity.
  - lia.
Defined.
(** ** Resampling *)

Lemma decimate3_spec (audio_chunk : list F32.t) :
  length (AudioRecorder.decimate3 audio_chunk)
  = Nat.div (length audio_chunk + 2) 3
  /\ forall k : nat, (k < Nat.div (length audio_chunk + 2) 3)%nat ->
       AudioRecorder.decimate3 audio_chunk !! k = audio_chunk !! (3 * k)%nat.
Proof.
  unfold AudioRecorder.decimate3.
  set (n := Nat.div (length audio_chunk + 2) 3).
  assert (Hn : forall k, (k < n)%nat -> (3 * k < length audio_chunk)%nat).
  { intros k Hk. unfold n in Hk.
    assert (3 * Nat.div (length audio_chunk + 2) 3 <= length audio_chunk + 2)%nat
      by (apply Nat.Div0.mul_div_le).
    lia. }
  set (f := fun k : nat => audio_chunk !! (3 * k)%nat).
  assert (Hf : forall k, (k < n)%nat -> is_Some (f k)).
  { intros k Hk. apply lookup_lt_is_Some_2. apply Hn. exact Hk. }
  assert (Hgen : forall m i, (i + m <= n)%nat ->
            omap f (seq i m) = map (fun k => default F32.zero (f k)) (seq i m)).
  { induction m as [|m IH]; intros i Hi; [reflexivity|].
    cbn [seq map]. change (omap f (i :: seq (S i) m))
      with (match f i with
            | Some y => y :: omap f (seq (S i) m)
            | None => omap f (seq (S i) m)
            end).
    destruct (Hf i ltac:(lia)) as [x Hx].
    rewrite Hx. cbn [default]. f_equal. apply IH. lia. }
  rewrite (Hgen n 0%nat) by lia. split.
  - rewrite length_map, length_seq. reflexivity.
  - intros k Hk. rewrite list_lookup_fmap, lookup_seq_lt by exact Hk.
    cbn [fmap option_fmap option_map Nat.add].
    destruct (Hf k Hk) as [x Hx]. rewrite Hx. unfold f in Hx. rewrite Hx.
    reflexivity.
Qed.

Lemma pick_loop_selects (audio_chunk : list F32.t) (ratio : F64.t) (n : nat) :
  forall i out,
    AudioRecorder.pick_loop audio_chunk ratio n i = Ok out ->
    Forall (fun x => x ∈ audio_chunk) out.
Proof.
  induction n as [|n IH]; intros i out H.
  - injection H as <-. constructor.
  - cbn [AudioRecorder.pick_loop] in H.
    destruct (of_option _) as [src_idx| |]; cbn [mbind outcome_bind] in H;
      try discriminate.
    destruct (AudioRecorder.pick_loop audio_chunk ratio n (i + 1))
      as [rest| |] eqn:E; cbn [mbind outcome_bind] in H; try discriminate.
    injection H as <-. specialize (IH _ _ E).
    destruct (audio_chunk !! Z.to_nat src_idx) as [x|] eqn:Ex; [|exact IH].
    constructor; [|exact IH]. apply list_elem_of_lookup. eauto.
Qed.

(** X22.  Resampling to 16 kHz only ever selects samples of the chunk: it
    neither interpolates nor pads.  At 16 kHz the chunk is passed on as
    it is; at 48 kHz the result is every third sample, [ceil(n / 3)] of
    them. *)
Theorem resample_selects (cfg : AudioRecorder.Config)
    (audio_chunk resampled : list F32.t) :
  AudioRecorder.resample cfg audio_chunk = Ok resampled ->
  Forall (fun x => x ∈ audio_chunk) resampled
  /\ (AudioRecorder.sample_rate cfg = 16000 -> resampled = audio_chunk)
  /\ (AudioRecorder.sample_rate cfg = 48000 ->
      length resampled = Nat.div (length audio_chunk + 2) 3
      /\ forall k : nat, (k < length resampled)%nat ->
           resampled !! k = audio_chunk !! (3 * k)%nat).
Proof.
  unfold AudioRecorder.resample. intros H.
  destruct (Z.eqb_spec (AudioRecorder.sample_rate cfg) 16000) as [E16|N16];
    cbn [negb] in H.
  - injection H as <-. split; [|split].
    + apply Forall_forall. auto.
    + reflexivity.
    + intros E48. rewrite E48 in E16. discriminate.
  - destruct (Z.eqb_spec (AudioRecorder.sample_rate cfg) 48000) as [E48|N48].
    + injection H as <-. destruct (decimate3_spec audio_chunk) as [Hl Hk].
      split; [|split].
      * apply Forall_forall. intros x Hx.
        apply list_elem_of_lookup in Hx as [k Hk'].
        pose proof (lookup_lt_Some _ _ _ Hk') as Hlt. rewrite Hl in Hlt.
        rewrite (Hk k Hlt) in Hk'. apply list_elem_of_lookup. eauto.
      * intros E16. contradiction.
      * intros _. split; [exact Hl|]. intros k Hlt. apply Hk.
        rewrite <- Hl. exact Hlt.
    + destruct (of_option _) as [new_size| |]; cbn [mbind outcome_bind] in H;
        try discriminate.
      destruct (check_size 4 new_size) as [n| |]; cbn [mbind outcome_bind] in H;
        try discriminate.
      split; [|split].
      * eapply pick_loop_selects. exact H.
      * intros E16. contradiction.
      * intros E48. contradiction.
Qed.

Lemma resample_selects_witness :
  AudioRecorder.resample config_48k
    [F32.one; F32.zero; F32.zero; F32.of_Z 2; F32.zero]
  = Ok [F32.one; F32.of_Z 2]
  /\ Forall (fun x => x ∈ [F32.one; F32.zero; F32.zero; F32.of_Z 2; F32.zero])
            [F32.one; F32.of_Z 2].
Proof.
  split; [reflexivity|].
  destruct (resample_selects config_48k
              [F32.one; F32.zero; F32.zero; F32.of_Z 2; F32.zero]
              [F32.one; F32.of_Z 2] eq_refl) as (H & _).
  exact H.
Defined.
